(** * tradenlypro-bridge: the order lifecycle core, embedded and verified

    The definitions follow the three source units that carry the logic:

    - [Provider]  the bridge context provider, [BridgeProvider] (quote
                  countdown, amount validation, quote calculation, order
                  creation);
    - [Awaiting]  pages/BridgeAwaitingDeposit.tsx (polling table, status
                  poller, completion recorder);
    - [Renderer]  components/bridge/BridgeStatusRenderer.tsx (the
                  reconciliation of expired orders).

    Around them: [Catalog] and [StatusTimer] (the provider's currency
    catalogue and status timer), [Actions] (the renderer's emergency
    handler and what it shows), [Complete] (the completion page) and
    [Selector] (components/bridge/CurrencySelector.tsx: the amount field
    and the default currency).

    [JS] holds the fragment of JavaScript they rely on, [Order] the data
    the two order views share, [Samples] concrete inputs, [Conditions]
    the tests of the code that the statements name.  The theorems come
    after the definitions, one module per component of the design.

    React state is modelled by explicit state passing.  A function that
    React re-creates on every render reads the values of the render that
    created it, so the embedded functions take that render's snapshot [r]
    for what they read and thread the live state for what they set; refs
    are read and written in the live state.  An [await] splits a function
    in two: what runs up to the call of the collaborator, and the
    continuation that receives its outcome.  Collaborators (the status,
    quote and order services, the store) are inputs: their outcome is an
    argument, and their calls are logged in the world the function
    returns.  [parseFloat] is a parameter. *)

From Stdlib Require Import ZArith QArith Lia Bool.
From stdpp Require Import base option list strings gmap pretty.

Local Open Scope Z_scope.

(** ** The fragment of JavaScript the sources rely on *)

Module JS.

(** A value found by a property read, as far as the sources can tell
    them apart: [undefined], [null], an integral number, or one of the
    members every object inherits from [Object.prototype]. *)
Inductive value :=
| Undefined
| Null
| Num (n : Z)
| Inherited (name : string).

(** [a ?? b] *)
Definition nullish (a b : value) : value :=
  match a with
  | Undefined | Null => b
  | _ => a
  end.

(** [v === null] *)
Definition is_null (v : value) : bool :=
  match v with Null => true | _ => false end.

(** The property names an object literal inherits from
    [Object.prototype]. *)
Definition Object_prototype : list string :=
  [ "constructor"; "hasOwnProperty"; "isPrototypeOf";
    "propertyIsEnumerable"; "toLocaleString"; "toString"; "valueOf";
    "__proto__"; "__defineGetter__"; "__defineSetter__";
    "__lookupGetter__"; "__lookupSetter__" ]%string.

(** [o[k]] for an object literal [o]: own properties first, then the
    prototype, then [undefined]. *)
Definition get (o : gmap string value) (k : string) : value :=
  match o !! k with
  | Some v => v
  | None => if bool_decide (k ∈ Object_prototype) then Inherited k
            else Undefined
  end.

(** [x < v] for a number [x]: [null] converts to 0, and whatever is not
    a number converts to NaN, for which every comparison is false. *)
Definition lt_value (x : Z) (v : value) : bool :=
  match v with
  | Num n => x <? n
  | Null => x <? 0
  | Undefined | Inherited _ => false
  end.

(** A string in a condition: only the empty string is falsy. *)
Definition truthy (s : string) : bool :=
  match s with EmptyString => false | _ => true end.

(** An optional string in a condition ([null], [undefined] and the
    empty string are falsy). *)
Definition present (o : option string) : bool :=
  match o with Some s => truthy s | None => false end.

(** [a || b] on optional strings. *)
Definition or_else (a : option string) (b : string) : string :=
  match a with
  | Some s => if truthy s then s else b
  | None => b
  end.

(** Numbers as [parseFloat], [Date.getTime() / 1000] and the
    comparison operators see them: a finite value, an infinity, or
    NaN.  Finite doubles are rationals and compare as such. *)
Inductive number :=
| NaN
| NegInf
| Fin (q : Q)
| PosInf.

Definition isNaN (x : number) : bool :=
  match x with NaN => true | _ => false end.

Definition Qltb (x y : Q) : bool :=
  match (x ?= y)%Q with Lt => true | _ => false end.

(** [x < y]; false as soon as one side is NaN. *)
Definition lt (x y : number) : bool :=
  match x, y with
  | NaN, _ | _, NaN => false
  | PosInf, _ | _, NegInf => false
  | NegInf, _ | _, PosInf => true
  | Fin a, Fin b => Qltb a b
  end.

(** [x > y] *)
Definition gt (x y : number) : bool := lt y x.

(** [x <= y]; false as soon as one side is NaN. *)
Definition le (x y : number) : bool :=
  match x, y with
  | NaN, _ | _, NaN => false
  | _, _ => negb (lt y x)
  end.

Definition of_Z (z : Z) : number := Fin (inject_Z z).

End JS.

(** ** Data shared by the order views *)

Module Order.

(** The settlement engine's payload for an order: the order it is
    about, its status code, and the rest, which the views only carry
    along. *)
Record RawApiResponse := {
  id : string;
  status : string;
  payload : string
}.

(** [OrderDetails] of hooks/useBridgeOrder, the fields the views
    read. *)
Record OrderDetails := {
  orderId : string;
  ffOrderId : option string;
  ffOrderToken : option string;
  fromCurrency : string;
  toCurrency : string;
  depositAmount : string;
  destinationAddress : string;
  depositAddress : string;
  currentStatus : string;
  rawApiResponse : option RawApiResponse
}.

(** [{ ...d, currentStatus: s, rawApiResponse: raw }] *)
Definition with_status (d : OrderDetails) (s : string)
    (raw : option RawApiResponse) : OrderDetails :=
  {| orderId := orderId d; ffOrderId := ffOrderId d;
     ffOrderToken := ffOrderToken d; fromCurrency := fromCurrency d;
     toCurrency := toCurrency d; depositAmount := depositAmount d;
     destinationAddress := destinationAddress d;
     depositAddress := depositAddress d;
     currentStatus := s; rawApiResponse := raw |}.

(** [{ ...raw, status: s }]; spreading an absent payload leaves an
    object with nothing but the status. *)
Definition raw_with_status (raw : option RawApiResponse) (s : string)
    : RawApiResponse :=
  {| id := match raw with Some x => id x | None => EmptyString end;
     status := s;
     payload := match raw with Some x => payload x | None => EmptyString end |}.

(** [d?.rawApiResponse?.status] *)
Definition raw_status (d : option OrderDetails) : option string :=
  match d with
  | Some x => status <$> rawApiResponse x
  | None => None
  end.

End Order.

(** ** pages/BridgeAwaitingDeposit.tsx *)

Module Awaiting.

(** *** The polling table *)

Definition POLLING_INTERVALS : gmap string JS.value :=
  list_to_map
    [ ("DEFAULT", JS.Num 15000);
      ("NEW", JS.Num 10000);
      ("PENDING", JS.Num 10000);
      ("EXCHANGE", JS.Num 20000);
      ("WITHDRAW", JS.Num 20000);
      ("DONE", JS.Num 30000);
      ("EXPIRED", JS.Null);
      ("EMERGENCY", JS.Null) ]%string.

(** The seven status codes of the settlement engine. *)
Definition raw_statuses : list string :=
  [ "NEW"; "PENDING"; "EXCHANGE"; "WITHDRAW"; "DONE"; "EXPIRED";
    "EMERGENCY" ]%string.

(** [POLLING_INTERVALS[apiStatus] ?? POLLING_INTERVALS.DEFAULT] *)
Definition newInterval (apiStatus : string) : JS.value :=
  JS.nullish (JS.get POLLING_INTERVALS apiStatus)
             (JS.get POLLING_INTERVALS "DEFAULT").

(** *** The page's state *)

Record State := {
  orderId : option string;   (* searchParams.get("orderId") *)
  token : string;            (* searchParams.get("token"), else empty *)
  simulateSuccess : bool;
  manualStatusCheckAttempted : bool;
  statusCheckDebugInfo : option string;
  statusCheckError : option string;
  pollingInterval : JS.value;
  lastPollTimestamp : Z;
  transactionSaved : bool;
  originalOrderDetails : option Order.OrderDetails;
  orderDetails : option Order.OrderDetails
}.

Definition setSimulateSuccess (v : bool) (s : State) :=
  {| orderId := orderId s; token := token s;
     simulateSuccess := v;
     manualStatusCheckAttempted := manualStatusCheckAttempted s;
     statusCheckDebugInfo := statusCheckDebugInfo s;
     statusCheckError := statusCheckError s;
     pollingInterval := pollingInterval s;
     lastPollTimestamp := lastPollTimestamp s;
     transactionSaved := transactionSaved s;
     originalOrderDetails := originalOrderDetails s;
     orderDetails := orderDetails s |}.

Definition setStatusCheckDebugInfo (v : option string) (s : State) :=
  {| orderId := orderId s; token := token s;
     simulateSuccess := simulateSuccess s;
     manualStatusCheckAttempted := manualStatusCheckAttempted s;
     statusCheckDebugInfo := v;
     statusCheckError := statusCheckError s;
     pollingInterval := pollingInterval s;
     lastPollTimestamp := lastPollTimestamp s;
     transactionSaved := transactionSaved s;
     originalOrderDetails := originalOrderDetails s;
     orderDetails := orderDetails s |}.

Definition setStatusCheckError (v : string) (s : State) :=
  {| orderId := orderId s; token := token s;
     simulateSuccess := simulateSuccess s;
     manualStatusCheckAttempted := manualStatusCheckAttempted s;
     statusCheckDebugInfo := statusCheckDebugInfo s;
     statusCheckError := Some v;
     pollingInterval := pollingInterval s;
     lastPollTimestamp := lastPollTimestamp s;
     transactionSaved := transactionSaved s;
     originalOrderDetails := originalOrderDetails s;
     orderDetails := orderDetails s |}.

Definition setPollingInterval (v : JS.value) (s : State) :=
  {| orderId := orderId s; token := token s;
     simulateSuccess := simulateSuccess s;
     manualStatusCheckAttempted := manualStatusCheckAttempted s;
     statusCheckDebugInfo := statusCheckDebugInfo s;
     statusCheckError := statusCheckError s;
     pollingInterval := v;
     lastPollTimestamp := lastPollTimestamp s;
     transactionSaved := transactionSaved s;
     originalOrderDetails := originalOrderDetails s;
     orderDetails := orderDetails s |}.

Definition setLastPollTimestamp (v : Z) (s : State) :=
  {| orderId := orderId s; token := token s;
     simulateSuccess := simulateSuccess s;
     manualStatusCheckAttempted := manualStatusCheckAttempted s;
     statusCheckDebugInfo := statusCheckDebugInfo s;
     statusCheckError := statusCheckError s;
     pollingInterval := pollingInterval s;
     lastPollTimestamp := v;
     transactionSaved := transactionSaved s;
     originalOrderDetails := originalOrderDetails s;
     orderDetails := orderDetails s |}.

Definition setManualStatusCheckAttempted (v : bool) (s : State) :=
  {| orderId := orderId s; token := token s;
     simulateSuccess := simulateSuccess s;
     manualStatusCheckAttempted := v;
     statusCheckDebugInfo := statusCheckDebugInfo s;
     statusCheckError := statusCheckError s;
     pollingInterval := pollingInterval s;
     lastPollTimestamp := lastPollTimestamp s;
     transactionSaved := transactionSaved s;
     originalOrderDetails := originalOrderDetails s;
     orderDetails := orderDetails s |}.

Definition setTransactionSaved (v : bool) (s : State) :=
  {| orderId := orderId s; token := token s;
     simulateSuccess := simulateSuccess s;
     manualStatusCheckAttempted := manualStatusCheckAttempted s;
     statusCheckDebugInfo := statusCheckDebugInfo s;
     statusCheckError := statusCheckError s;
     pollingInterval := pollingInterval s;
     lastPollTimestamp := lastPollTimestamp s;
     transactionSaved := v;
     originalOrderDetails := originalOrderDetails s;
     orderDetails := orderDetails s |}.

Definition setOrderDetails (v : option Order.OrderDetails) (s : State) :=
  {| orderId := orderId s; token := token s;
     simulateSuccess := simulateSuccess s;
     manualStatusCheckAttempted := manualStatusCheckAttempted s;
     statusCheckDebugInfo := statusCheckDebugInfo s;
     statusCheckError := statusCheckError s;
     pollingInterval := pollingInterval s;
     lastPollTimestamp := lastPollTimestamp s;
     transactionSaved := transactionSaved s;
     originalOrderDetails := originalOrderDetails s;
     orderDetails := v |}.

(** [{ ...o, currentStatus: "completed",
       rawApiResponse: { ...o.rawApiResponse, status: "DONE" } }] *)
Definition completed (o : Order.OrderDetails) : Order.OrderDetails :=
  Order.with_status o "completed"
    (Some (Order.raw_with_status (Order.rawApiResponse o) "DONE")).

(** The status-change effect: the interval follows the status of the
    displayed order.  This is the setter's behaviour for a value that
    is not a function, which is every value the table holds.  For a
    status that names an inherited member the value is a function, and
    React's setter calls a function as an updater and stores its
    result: there the state is not the member itself, and nothing below
    evaluates the effect at such a status. *)
Definition polling_interval_effect (r : State) (s : State) : State :=
  match orderDetails r with
  | Some d =>
      match Order.rawApiResponse d with
      | Some raw => setPollingInterval (newInterval (Order.status raw)) s
      | None => s
      end
  | None => s
  end.

(** The scheduling effect: the period of the interval timer it sets
    up, or [None] when it sets up none. *)
Definition polling_timer (r : State) : option JS.value :=
  if negb (JS.present (orderId r)) || negb (JS.truthy (token r))
     || JS.is_null (pollingInterval r)
  then None
  else Some (pollingInterval r).

(** The simulation switch: the displayed order is the loaded one, or
    the loaded one dressed up as completed. *)
Definition simulation_effect (r : State) (s : State) : State :=
  match originalOrderDetails r with
  | None => s
  | Some o =>
      if simulateSuccess r
      then setOrderDetails (Some (completed o)) s
      else setOrderDetails (Some o) s
  end.

(** *** Collaborators *)

(** The body of a [bridge-status] invocation. *)
Record StatusRequest := {
  req_id : string;
  req_token : string
}.

(** What a [bridge-status] invocation resolves to. *)
Record StatusResponse := {
  code : Z;
  data : option Order.RawApiResponse;
  debugInfo : option string;
  msg : option string
}.

Inductive invoke_outcome :=
| InvokeError (message : string)       (* { error } *)
| InvokeData (d : StatusResponse)      (* { data } *)
| InvokeThrows (message : string).     (* the call rejects *)

(** What the page reads from [navigator] and the clock when it builds
    a row. *)
Record Navigator := {
  userAgent : string;
  languages : list string;
  toISOString : string
}.

Record ClientMetadata := {
  device : string;
  timestamp : string;
  simulation : bool;
  user_agent : string;
  client_languages : list string;
  debug_info : option string
}.

(** [apiResponse.data], with the two marks a simulated save adds. *)
Record RawRecord := {
  base : option Order.RawApiResponse;
  simulated : bool;
  original_status : option string
}.

(** A row of [completed_bridge_transactions]. *)
Record TransactionData := {
  ff_order_id : string;
  ff_order_token : string;
  from_currency : string;
  to_currency : string;
  amount : JS.number;
  destination_address : string;
  deposit_address : string;
  status : string;
  raw_api_response : RawRecord;
  client_metadata : ClientMetadata
}.

(** What an [insert] resolves to. *)
Inductive insert_outcome :=
| Inserted
| InsertError (message : string)       (* { error } *)
| InsertThrows.                        (* the call rejects *)

(** What the page does to the world around it: the table of completed
    transactions, the calls it made, and what it showed. *)
Record World := {
  completed_bridge_transactions : list TransactionData;
  status_invocations : list StatusRequest;
  insert_invocations : list TransactionData;
  toasts : list string;
  navigations : list string
}.

Definition invoke_status (q : StatusRequest) (w : World) : World :=
  {| completed_bridge_transactions := completed_bridge_transactions w;
     status_invocations := status_invocations w ++ [q];
     insert_invocations := insert_invocations w;
     toasts := toasts w; navigations := navigations w |}.

Definition invoke_insert (row : TransactionData) (w : World) : World :=
  {| completed_bridge_transactions := completed_bridge_transactions w;
     status_invocations := status_invocations w;
     insert_invocations := insert_invocations w ++ [row];
     toasts := toasts w; navigations := navigations w |}.

(** The store's side of an insert: a row is added when it succeeds. *)
Definition store (out : insert_outcome) (row : TransactionData)
    (w : World) : World :=
  {| completed_bridge_transactions :=
       match out with
       | Inserted => completed_bridge_transactions w ++ [row]
       | _ => completed_bridge_transactions w
       end;
     status_invocations := status_invocations w;
     insert_invocations := insert_invocations w;
     toasts := toasts w; navigations := navigations w |}.

Definition toast (title : string) (w : World) : World :=
  {| completed_bridge_transactions := completed_bridge_transactions w;
     status_invocations := status_invocations w;
     insert_invocations := insert_invocations w;
     toasts := toasts w ++ [title]; navigations := navigations w |}.

Definition navigate (url : string) (w : World) : World :=
  {| completed_bridge_transactions := completed_bridge_transactions w;
     status_invocations := status_invocations w;
     insert_invocations := insert_invocations w;
     toasts := toasts w; navigations := navigations w ++ [url] |}.

(** An insert on its way: the row and the order it was built from. *)
Definition pending_insert : Type := TransactionData * Order.OrderDetails.

Section Recorder.

Variable parseFloat : string → JS.number.
Variable nav : Navigator.

(** *** The completion recorder *)

(** The row [saveCompletedTransaction] prepares. *)
Definition transactionData (r : State) (d : Order.OrderDetails)
    (apiData : option Order.RawApiResponse) (isSimulated : bool)
    : TransactionData :=
  {| ff_order_id := JS.or_else (Order.ffOrderId d) (Order.orderId d);
     ff_order_token := JS.or_else (Order.ffOrderToken d) (token r);
     from_currency := Order.fromCurrency d;
     to_currency := Order.toCurrency d;
     amount := parseFloat (Order.depositAmount d);
     destination_address := Order.destinationAddress d;
     deposit_address := Order.depositAddress d;
     status := "completed";
     raw_api_response :=
       if isSimulated
       then {| base := apiData; simulated := true;
               original_status :=
                 Order.raw_status (originalOrderDetails r) |}
       else {| base := apiData; simulated := false;
               original_status := None |};
     client_metadata :=
       {| device := userAgent nav;
          timestamp := toISOString nav;
          simulation := isSimulated;
          user_agent := userAgent nav;
          client_languages := languages nav;
          debug_info := statusCheckDebugInfo r |} |}.

(** [saveCompletedTransaction], up to the [await]: the guard, the row,
    and the call of [insert]. *)
Definition saveCompletedTransaction (r : State)
    (details : option Order.OrderDetails)
    (apiData : option Order.RawApiResponse) (isSimulated : bool)
    (w : World) : World * option pending_insert :=
  match details with
  | None => (w, None)
  | Some d =>
      if transactionSaved r then (w, None)
      else
        let row := transactionData r d apiData isSimulated in
        (invoke_insert row w, Some (row, d))
  end.

(** [saveCompletedTransaction], from the [await] on: the store has
    answered [out]. *)
Definition saveCompletedTransaction_resume (out : insert_outcome)
    (d : Order.OrderDetails) (c : State * World) : State * World :=
  match out with
  | InsertError _ => (c.1, toast "Database Error" c.2)
  | Inserted =>
      (setTransactionSaved true c.1,
       navigate ("/bridge/complete?orderId=" ++ Order.orderId d)
         (toast "Transaction Recorded" c.2))
  | InsertThrows => c
  end.

(** An insert on its way settles: the store does its part, then the
    page's continuation runs. *)
Definition insert_settles (out : insert_outcome) (p : pending_insert)
    (c : State * World) : State * World :=
  saveCompletedTransaction_resume out p.2 (c.1, store out p.1 c.2).

(** The effect that watches for a simulated completion. *)
Definition simulated_completion_effect (r : State) (w : World)
    : World * option pending_insert :=
  match orderDetails r with
  | Some d =>
      if simulateSuccess r
         && String.eqb (Order.currentStatus d) "completed"
         && bool_decide (Order.raw_status (Some d) = Some "DONE")
         && negb (transactionSaved r)
      then saveCompletedTransaction r (Some d)
             (Order.rawApiResponse d) true w
      else (w, None)
  | None => (w, None)
  end.

(** *** The status poller *)

(** [checkOrderStatus], up to the [await]: the guards, the attempt
    time, and the call of [bridge-status]. *)
Definition checkOrderStatus (r : State) (force : bool) (now : Z)
    (c : State * World) : (State * World) * option StatusRequest :=
  match orderId r with
  | Some oid =>
      if negb (JS.truthy oid) || negb (JS.truthy (token r))
      then ((setStatusCheckError "Missing order ID or token" c.1, c.2),
            None)
      else if JS.is_null (pollingInterval r) && negb force
      then (c, None)
      else if negb force
              && JS.lt_value (now - lastPollTimestamp r)
                   (pollingInterval r)
      then (c, None)
      else
        let q := {| req_id := oid; req_token := token r |} in
        ((setManualStatusCheckAttempted true
            (setLastPollTimestamp now c.1),
          invoke_status q c.2),
         Some q)
  | None =>
      ((setStatusCheckError "Missing order ID or token" c.1, c.2), None)
  end.

(** The effect that forces one check when the page opens. *)
Definition initial_check_effect (r : State) (now : Z) (c : State * World)
    : (State * World) * option StatusRequest :=
  if JS.present (orderId r) && JS.truthy (token r)
     && negb (manualStatusCheckAttempted r)
  then checkOrderStatus r true now c
  else (c, None).

(** The callback of the interval timer, when the scheduling effect has
    set one up. *)
Definition polling_tick (r : State) (now : Z) (c : State * World)
    : (State * World) * option StatusRequest :=
  match polling_timer r with
  | Some _ => checkOrderStatus r false now c
  | None => (c, None)
  end.

(** [checkOrderStatus], from the [await] on: the invocation has
    resolved to [out].  A completed order starts a save. *)
Definition checkOrderStatus_resume (r : State) (out : invoke_outcome)
    (c : State * World) : (State * World) * option pending_insert :=
  match out with
  | InvokeError m =>
      ((setStatusCheckDebugInfo (Some m)
          (setStatusCheckError ("Error: " ++ m) c.1), c.2), None)
  | InvokeThrows m =>
      ((setStatusCheckError ("Error: " ++ m) c.1, c.2), None)
  | InvokeData d =>
      let s1 := match debugInfo d with
                | Some i => setStatusCheckDebugInfo (Some i) c.1
                | None => c.1
                end in
      match data d with
      | Some dd =>
          if code d =? 0
          then
            if String.eqb (Order.status dd) "DONE"
            then
              let w1 := toast "Transaction Complete" c.2 in
              let s2 :=
                match originalOrderDetails r with
                | Some o =>
                    setOrderDetails (Some (completed o)) s1
                | None => s1
                end in
              let '(w2, p) :=
                saveCompletedTransaction r (originalOrderDetails r)
                  (data d) false w1 in
              ((s2, w2), p)
            else ((s1, c.2), None)
          else
            ((setStatusCheckError
                ("API Error: " ++ JS.or_else (msg d) "Unknown error")
                s1, c.2), None)
      | None =>
          ((setStatusCheckError
              ("API Error: " ++ JS.or_else (msg d) "Unknown error")
              s1, c.2), None)
      end
  end.

End Recorder.

End Awaiting.

(** ** The bridge context provider *)

Module Provider.

Record TimerConfig := {
  QUOTE_VALIDITY_MS : Z;
  TIMER_UPDATE_INTERVAL_MS : Z;
  RECALCULATION_THROTTLE_MS : Z
}.

Definition TIMER_CONFIG : TimerConfig :=
  {| QUOTE_VALIDITY_MS := 120000;
     TIMER_UPDATE_INTERVAL_MS := 1000;
     RECALCULATION_THROTTLE_MS := 120000 |}.

Inductive order_type := fixed | float.

(** [PriceResponse], the fields the provider reads:
    [data.rate], [data.from.min], [data.from.max], [data.to.amount]
    and [expiresAt] (seconds). *)
Record PriceResponse := {
  rate : option string;
  from_min : string;
  from_max : string;
  to_amount : string;
  expiresAt : JS.number
}.

(** The texts the provider builds.  A template literal that prints a
    number keeps the number. *)
Inductive message :=
| Text (s : string)
| MinimumAmountIs (minAmount : JS.number) (currency : string)
| MaximumAmountIs (maxAmount : JS.number) (currency : string).

Definition message_truthy (m : message) : bool :=
  match m with Text s => JS.truthy s | _ => true end.

(** [m || fallback] *)
Definition message_or (m : option message) (fallback : string) : message :=
  match m with
  | Some x => if message_truthy x then x else Text fallback
  | None => Text fallback
  end.

(** What [useState] holds. *)
Record State := {
  fromCurrency : string;
  toCurrency : string;
  amount : string;
  estimatedReceiveAmount : string;
  destinationAddress : string;
  orderType : order_type;
  isCalculating : bool;
  timeRemaining : option string;
  lastPriceData : option PriceResponse;
  amountError : option message
}.

(** What [useRef] holds; a ref is read and written in place, whatever
    render the reader comes from. *)
Record Refs := {
  timeRemainingTimerRef : option nat;
  quoteExpiryTimeRef : option Z;
  statusCheckTimerRef : option nat;
  lastPriceCheckTimeRef : Z
}.

Inductive call :=
| CalculatePrice (from to amt : string) (ot : order_type)
| CreateOrder (from to amt destination : string) (ot : order_type)
    (rate : string).

(** The blob kept under [bridge_transaction_data]. *)
Record StoredTransaction := {
  stored_id : string;
  stored_orderToken : string;
  stored_fromCurrency : string;
  stored_toCurrency : string;
  stored_amount : string;
  stored_destinationAddress : string;
  stored_status : string;
  stored_depositAddress : option string;
  stored_type : order_type;
  stored_receiveAmount : string;
  stored_tag : option string;
  stored_tagName : option string;
  stored_addressAlt : option string;
  stored_expiresAt : option Z       (* milliseconds, before formatting *)
}.

(** The world around the provider: the interval timers that are set
    (identifier and period), the next timer identifier, the calls of
    its collaborators, local storage, and the toasts it showed. *)
Record World := {
  intervals : gmap nat Z;
  next_timer : nat;
  calls : list call;
  localStorage : option StoredTransaction;
  toasts : list string
}.

Record Config := {
  st : State;
  refs : Refs;
  world : World
}.

Definition on_state (f : State → State) (c : Config) : Config :=
  {| st := f (st c); refs := refs c; world := world c |}.
Definition on_refs (f : Refs → Refs) (c : Config) : Config :=
  {| st := st c; refs := f (refs c); world := world c |}.
Definition on_world (f : World → World) (c : Config) : Config :=
  {| st := st c; refs := refs c; world := f (world c) |}.

Definition setEstimatedReceiveAmount (v : string) (s : State) :=
  {| fromCurrency := fromCurrency s; toCurrency := toCurrency s;
     amount := amount s; estimatedReceiveAmount := v;
     destinationAddress := destinationAddress s;
     orderType := orderType s; isCalculating := isCalculating s;
     timeRemaining := timeRemaining s;
     lastPriceData := lastPriceData s; amountError := amountError s |}.

Definition setIsCalculating (v : bool) (s : State) :=
  {| fromCurrency := fromCurrency s; toCurrency := toCurrency s;
     amount := amount s;
     estimatedReceiveAmount := estimatedReceiveAmount s;
     destinationAddress := destinationAddress s;
     orderType := orderType s; isCalculating := v;
     timeRemaining := timeRemaining s;
     lastPriceData := lastPriceData s; amountError := amountError s |}.

Definition setTimeRemaining (v : option string) (s : State) :=
  {| fromCurrency := fromCurrency s; toCurrency := toCurrency s;
     amount := amount s;
     estimatedReceiveAmount := estimatedReceiveAmount s;
     destinationAddress := destinationAddress s;
     orderType := orderType s; isCalculating := isCalculating s;
     timeRemaining := v;
     lastPriceData := lastPriceData s; amountError := amountError s |}.

Definition setLastPriceData (v : option PriceResponse) (s : State) :=
  {| fromCurrency := fromCurrency s; toCurrency := toCurrency s;
     amount := amount s;
     estimatedReceiveAmount := estimatedReceiveAmount s;
     destinationAddress := destinationAddress s;
     orderType := orderType s; isCalculating := isCalculating s;
     timeRemaining := timeRemaining s;
     lastPriceData := v; amountError := amountError s |}.

Definition setAmountError (v : option message) (s : State) :=
  {| fromCurrency := fromCurrency s; toCurrency := toCurrency s;
     amount := amount s;
     estimatedReceiveAmount := estimatedReceiveAmount s;
     destinationAddress := destinationAddress s;
     orderType := orderType s; isCalculating := isCalculating s;
     timeRemaining := timeRemaining s;
     lastPriceData := lastPriceData s; amountError := v |}.

Definition set_timeRemainingTimerRef (v : option nat) (f : Refs) :=
  {| timeRemainingTimerRef := v;
     quoteExpiryTimeRef := quoteExpiryTimeRef f;
     statusCheckTimerRef := statusCheckTimerRef f;
     lastPriceCheckTimeRef := lastPriceCheckTimeRef f |}.

Definition set_quoteExpiryTimeRef (v : option Z) (f : Refs) :=
  {| timeRemainingTimerRef := timeRemainingTimerRef f;
     quoteExpiryTimeRef := v;
     statusCheckTimerRef := statusCheckTimerRef f;
     lastPriceCheckTimeRef := lastPriceCheckTimeRef f |}.

Definition set_statusCheckTimerRef (v : option nat) (f : Refs) :=
  {| timeRemainingTimerRef := timeRemainingTimerRef f;
     quoteExpiryTimeRef := quoteExpiryTimeRef f;
     statusCheckTimerRef := v;
     lastPriceCheckTimeRef := lastPriceCheckTimeRef f |}.

Definition set_lastPriceCheckTimeRef (v : Z) (f : Refs) :=
  {| timeRemainingTimerRef := timeRemainingTimerRef f;
     quoteExpiryTimeRef := quoteExpiryTimeRef f;
     statusCheckTimerRef := statusCheckTimerRef f;
     lastPriceCheckTimeRef := v |}.

(** [setInterval(_, period)]: a fresh identifier. *)
Definition setInterval (period : Z) (w : World) : nat * World :=
  (next_timer w,
   {| intervals := <[next_timer w := period]> (intervals w);
      next_timer := S (next_timer w);
      calls := calls w; localStorage := localStorage w;
      toasts := toasts w |}).

Definition clearInterval (i : nat) (w : World) : World :=
  {| intervals := delete i (intervals w);
     next_timer := next_timer w;
     calls := calls w; localStorage := localStorage w;
     toasts := toasts w |}.

Definition record_call (k : call) (w : World) : World :=
  {| intervals := intervals w; next_timer := next_timer w;
     calls := calls w ++ [k]; localStorage := localStorage w;
     toasts := toasts w |}.

Definition setItem (v : StoredTransaction) (w : World) : World :=
  {| intervals := intervals w; next_timer := next_timer w;
     calls := calls w; localStorage := Some v; toasts := toasts w |}.

Definition toast (title : string) (w : World) : World :=
  {| intervals := intervals w; next_timer := next_timer w;
     calls := calls w; localStorage := localStorage w;
     toasts := toasts w ++ [title] |}.

(** *** The quote countdown *)

Fixpoint zeros (n : nat) : string :=
  match n with
  | O => EmptyString
  | S k => "0" ++ zeros k
  end.

(** [s.padStart(n, "0")] *)
Definition padStart (n : nat) (s : string) : string :=
  zeros (n - String.length s) ++ s.

(** The text shown for [timeLeft] milliseconds. *)
Definition format_remaining (timeLeft : Z) : string :=
  let seconds := timeLeft / 1000 in
  let milliseconds := Z.rem timeLeft 1000 / 10 in
  pretty seconds ++ "." ++ padStart 2 (pretty milliseconds).

(** Stop the countdown's interval, if one is set.  The effect, its
    cleanup and [updateTimer] all do this. *)
Definition clear_countdown (c : Config) : Config :=
  match timeRemainingTimerRef (refs c) with
  | Some i =>
      on_refs (set_timeRemainingTimerRef None)
        (on_world (clearInterval i) c)
  | None => c
  end.

Definition updateTimer (now : Z) (c : Config) : Config :=
  match quoteExpiryTimeRef (refs c) with
  | None => c
  | Some expiry =>
      if expiry =? 0 then c
      else
        let timeLeft := Z.max 0 (expiry - now) in
        if timeLeft <=? 0
        then clear_countdown (on_state (setTimeRemaining None) c)
        else on_state (setTimeRemaining (Some (format_remaining timeLeft)))
               c
  end.

(** The countdown effect, run by a render [r] at time [t0]; its first
    [updateTimer] reads the clock at [t1]. *)
Definition countdown_effect (r : State) (t0 t1 : Z) (c : Config)
    : Config :=
  let c1 := clear_countdown c in
  if JS.truthy (estimatedReceiveAmount r) && negb (isCalculating r)
  then
    let c2 :=
      on_refs (set_quoteExpiryTimeRef
                 (Some (t0 + QUOTE_VALIDITY_MS TIMER_CONFIG))) c1 in
    let c3 := updateTimer t1 c2 in
    let '(i, w) :=
      setInterval (TIMER_UPDATE_INTERVAL_MS TIMER_CONFIG) (world c3) in
    on_refs (set_timeRemainingTimerRef (Some i)) (on_world (λ _, w) c3)
  else on_state (setTimeRemaining None) c1.

Definition countdown_cleanup (c : Config) : Config := clear_countdown c.

(** The timer the countdown's ref holds was handed out by
    [setInterval]: its identifier lies below the next one. *)
Definition handed_out (c : Config) : Prop :=
  ∀ i, timeRemainingTimerRef (refs c) = Some i →
       (i < next_timer (world c))%nat.

(** The interval's ticks, one call of [updateTimer] per tick. *)
Definition run_ticks (ticks : list Z) (c : Config) : Config :=
  foldl (λ c t, updateTimer t c) c ticks.

(** *** Collaborators *)

Inductive price_outcome :=
| PriceData (p : PriceResponse)
| PriceNull
| PriceThrows (m : string).

(** [result.data] of an order creation. *)
Record OrderData := {
  order_id : string;
  order_token : string;
  order_status : string;
  from_address : option string;
  from_tag : option string;
  from_tagName : option string;
  from_addressAlt : option string;
  time_expiration : option Z
}.

Record OrderResponse := {
  code : option Z;
  data : option OrderData;
  msg : option string;
  debugInfo : option string
}.

(** What a [throw] carries: an [Error], or an object with a [code]. *)
Inductive thrown :=
| Error (m : message)
| ApiErrorObject (code : Z) (m : string).

Inductive order_outcome :=
| OrderReturns (res : option OrderResponse)
| OrderThrows (e : thrown).

(** What [createBridgeTransaction] returns: the collaborator's
    response as it came, the object it threw, or the provider's own
    failure object. *)
Inductive create_result :=
| Returned (res : OrderResponse)
| Rethrown (code : Z) (m : string)
| Failure (code : Z) (m : message).

(** [o || null] *)
Definition or_null (o : option string) : option string :=
  if JS.present o then o else None.

(** The largest time value a [Date] holds, in milliseconds either side
    of the epoch. *)
Definition MAX_TIME_VALUE : Z := 8640000000000000.

(** [time?.expiration ? new Date(expiration * 1000).toISOString() : null]:
    the milliseconds that are formatted, [Some None] for [null], and
    [None] when the time value is out of the range of [Date], where
    [toISOString] throws a [RangeError]. *)
Definition expiresAt_iso (expiration : option Z) : option (option Z) :=
  match expiration with
  | Some e =>
      if e =? 0 then Some None
      else if Z.abs (e * 1000) <=? MAX_TIME_VALUE then Some (Some (e * 1000))
      else None
  | None => Some None
  end.

(** The message of that [RangeError] (as V8 and JavaScriptCore word
    it). *)
Definition invalid_time_value : message := Text "Invalid time value".

Section Bridge.

Variable parseFloat : string → JS.number.

(** *** The amount validator *)

Definition validateAmount (r : State) (s : State) : bool * State :=
  match lastPriceData r with
  | None => (true, setAmountError None s)
  | Some q =>
      if negb (JS.truthy (amount r)) then (true, setAmountError None s)
      else
        let currentAmount := parseFloat (amount r) in
        if JS.isNaN currentAmount then (true, setAmountError None s)
        else
          let minAmount := parseFloat (from_min q) in
          let maxAmount := parseFloat (from_max q) in
          if JS.lt currentAmount minAmount
          then (false,
                setAmountError
                  (Some (MinimumAmountIs minAmount (fromCurrency r))) s)
          else if JS.gt currentAmount maxAmount
          then (false,
                setAmountError
                  (Some (MaximumAmountIs maxAmount (fromCurrency r))) s)
          else (true, setAmountError None s)
  end.

(** *** The quote calculator *)

Definition calculateReceiveAmount (r : State) (out : price_outcome)
    (now : Z) (c : Config) : Config :=
  if negb (JS.truthy (fromCurrency r)) || negb (JS.truthy (toCurrency r))
     || negb (JS.truthy (amount r))
     || JS.le (parseFloat (amount r)) (JS.of_Z 0)
  then
    on_state (setLastPriceData None)
      (on_state (setEstimatedReceiveAmount EmptyString) c)
  else
    let c1 :=
      on_world
        (record_call
           (CalculatePrice (fromCurrency r) (toCurrency r) (amount r)
              (orderType r)))
        (on_state (setIsCalculating true) c) in
    let c2 :=
      match out with
      | PriceNull =>
          on_state (setIsCalculating false)
            (on_state (setLastPriceData None)
               (on_state (setEstimatedReceiveAmount "0") c1))
      | PriceData p =>
          on_refs (set_lastPriceCheckTimeRef now)
            (on_state (λ s, (validateAmount r s).2)
               (on_state (setLastPriceData (Some p))
                  (on_state (setEstimatedReceiveAmount (to_amount p))
                     c1)))
      | PriceThrows _ =>
          on_world (toast "Calculation Error")
            (on_state (setLastPriceData None)
               (on_state (setEstimatedReceiveAmount "0") c1))
      end in
    on_state (setIsCalculating false) c2.

(** *** The order creator *)

(** [startStatusChecking(orderId)], the part that runs at once. *)
Definition startStatusChecking (c : Config) : Config :=
  let c1 :=
    match statusCheckTimerRef (refs c) with
    | Some i =>
        on_refs (set_statusCheckTimerRef None)
          (on_world (clearInterval i) c)
    | None => c
    end in
  let '(i, w) := setInterval 10000 (world c1) in
  on_refs (set_statusCheckTimerRef (Some i)) (on_world (λ _, w) c1).

(** [validateBridgeTransaction]: what it throws, if it throws, and
    the state [validateAmount] leaves. *)
Definition validateBridgeTransaction (r : State) (s : State)
    : option message * State :=
  if negb (JS.truthy (fromCurrency r))
  then (Some (Text "Source currency is required"), s)
  else if negb (JS.truthy (toCurrency r))
  then (Some (Text "Destination currency is required"), s)
  else if negb (JS.truthy (amount r))
          || JS.le (parseFloat (amount r)) (JS.of_Z 0)
  then (Some (Text "Valid amount is required"), s)
  else if negb (JS.truthy (destinationAddress r))
  then (Some (Text "Destination address is required"), s)
  else
    let '(ok, s1) := validateAmount r s in
    if ok then (None, s1)
    else (Some (message_or (amountError r) "Invalid amount"), s1).

(** The [catch] of [createBridgeTransaction]. *)
Definition catch (e : thrown) (c : Config) : create_result * Config :=
  match e with
  | ApiErrorObject k m =>
      if k =? 0
      then (Failure 500
              (Text (JS.or_else (Some m)
                       "Failed to create bridge transaction")),
            on_world (toast "Transaction Failed") c)
      else (Rethrown k m, c)
  | Error m =>
      (Failure 500
         (message_or (Some m) "Failed to create bridge transaction"),
       on_world (toast "Transaction Failed") c)
  end.

Definition expired_rate : message :=
  Text "Exchange rate has expired. Please try again.".

(** The branch of [createBridgeTransaction] for a missing or expired
    quote: a fresh calculation, then the expired-rate error. *)
Definition refuse_stale_rate (r : State) (now_ms : Z)
    (price : price_outcome) (c : Config) : create_result * Config :=
  catch (Error expired_rate) (calculateReceiveAmount r price now_ms c).

(** The branch of [createBridgeTransaction] for a quote [q] that is
    still valid: the call of the order service and what follows it.
    The row for local storage is built field by field, the expiry date
    last; when that throws, nothing is stored and no timer is started. *)
Definition submit (r : State) (q : PriceResponse) (order : order_outcome)
    (c : Config) : create_result * Config :=
  let c2 :=
    on_world
      (record_call
         (CreateOrder (fromCurrency r) (toCurrency r) (amount r)
            (destinationAddress r) (orderType r)
            (JS.or_else (rate q) EmptyString))) c in
  match order with
  | OrderThrows e => catch e c2
  | OrderReturns None => (Failure 500 (Text "Failed to create order"), c2)
  | OrderReturns (Some result) =>
      match code result, data result with
      | Some 0, Some d =>
          match expiresAt_iso (time_expiration d) with
          | None => catch (Error invalid_time_value) c2
          | Some expiresAt =>
              let transactionData :=
                {| stored_id := order_id d;
                   stored_orderToken := order_token d;
                   stored_fromCurrency := fromCurrency r;
                   stored_toCurrency := toCurrency r;
                   stored_amount := amount r;
                   stored_destinationAddress := destinationAddress r;
                   stored_status := order_status d;
                   stored_depositAddress := from_address d;
                   stored_type := orderType r;
                   stored_receiveAmount := estimatedReceiveAmount r;
                   stored_tag := or_null (from_tag d);
                   stored_tagName := or_null (from_tagName d);
                   stored_addressAlt := or_null (from_addressAlt d);
                   stored_expiresAt := expiresAt |} in
              (Returned result,
               startStatusChecking (on_world (setItem transactionData) c2))
          end
      | Some k, _ =>
          if negb (k =? 0) && JS.present (msg result)
          then (Returned result, c2)
          else (Failure 500 (Text "Failed to create order"), c2)
      | None, _ => (Failure 500 (Text "Failed to create order"), c2)
      end
  end.

(** [createBridgeTransaction], run by a render [r] when the clock
    reads [now] seconds ([now_ms] milliseconds for the calculator);
    [price] and [order] are what the collaborators answer if they
    are called. *)
Definition createBridgeTransaction (r : State) (now : JS.number)
    (now_ms : Z) (price : price_outcome) (order : order_outcome)
    (c : Config) : create_result * Config :=
  let '(t, s1) := validateBridgeTransaction r (st c) in
  let c1 := on_state (λ _, s1) c in
  match t with
  | Some m => catch (Error m) c1
  | None =>
      match lastPriceData r with
      | Some q =>
          if JS.lt (expiresAt q) now
          then refuse_stale_rate r now_ms price c1
          else submit r q order c1
      | None => refuse_stale_rate r now_ms price c1
      end
  end.

End Bridge.

(** A stand-in for [parseFloat] on strings of decimal digits, where the
    builtin is exact; every other string is taken as not a number.  It
    serves to run the definitions above on concrete inputs. *)
Fixpoint digits (s : string) (acc : Z) : option Z :=
  match s with
  | EmptyString => Some acc
  | String a rest =>
      let k := Z.of_N (Ascii.N_of_ascii a) - 48 in
      if (0 <=? k) && (k <=? 9) then digits rest (10 * acc + k)
      else None
  end.

Definition parseFloat_digits (s : string) : JS.number :=
  match s with
  | EmptyString => JS.NaN
  | _ => match digits s 0 with
         | Some n => JS.of_Z n
         | None => JS.NaN
         end
  end.

End Provider.

(** ** components/bridge/BridgeStatusRenderer.tsx *)

Module Renderer.

Record Props := {
  initialLoading : bool;
  error : option string;
  initialOrderDetails : option Order.OrderDetails;
  checkDbForCompletedTransaction : bool   (* is the function passed? *)
}.

(** A row found by [checkDbForCompletedTransaction]. *)
Record DbTransaction := {
  raw_api_response : option Order.RawApiResponse
}.

Inductive db_outcome :=
| Found (tx : DbTransaction)
| NotFound
| DbThrows.

(** What is waiting to run: the continuation of a database check, and
    the callbacks given to [setTimeout].  [bound] tells whether the
    render that created the callback got as far as the declaration of
    [handleOrderDetailsUpdate], which follows the early returns. *)
Inductive task :=
| DbResolves (d : Order.OrderDetails) (bound : bool) (res : db_outcome)
| ApplyFound (updated : Order.OrderDetails) (bound : bool)
| ApplyNotFound
| Stabilize (d : Order.OrderDetails)
| CheckTimeout.

(** The component: its state, its ref, the clock, the tasks that wait
    with the time each is due (in the order they were registered), and
    the order ids it asked the store about. *)
Record View := {
  orderDetails : option Order.OrderDetails;
  checkingDbForExpiredOrder : bool;
  loading : bool;
  stateStabilized : bool;
  hasCheckedExpiredOrderRef : option string;
  now : Z;
  pending : list (Z * task);
  db_queries : list string
}.

(** The component as it mounts at time [t]. *)
Definition mount (p : Props) (t : Z) : View :=
  {| orderDetails := initialOrderDetails p;
     checkingDbForExpiredOrder := false;
     loading := initialLoading p;
     stateStabilized := false;
     hasCheckedExpiredOrderRef := None;
     now := t; pending := []; db_queries := [] |}.

Definition setOrderDetails (o : option Order.OrderDetails) (v : View) :=
  {| orderDetails := o;
     checkingDbForExpiredOrder := checkingDbForExpiredOrder v;
     loading := loading v; stateStabilized := stateStabilized v;
     hasCheckedExpiredOrderRef := hasCheckedExpiredOrderRef v;
     now := now v; pending := pending v; db_queries := db_queries v |}.

Definition setLoading (b : bool) (v : View) :=
  {| orderDetails := orderDetails v;
     checkingDbForExpiredOrder := checkingDbForExpiredOrder v;
     loading := b; stateStabilized := stateStabilized v;
     hasCheckedExpiredOrderRef := hasCheckedExpiredOrderRef v;
     now := now v; pending := pending v; db_queries := db_queries v |}.

Definition setStateStabilized (b : bool) (v : View) :=
  {| orderDetails := orderDetails v;
     checkingDbForExpiredOrder := checkingDbForExpiredOrder v;
     loading := loading v; stateStabilized := b;
     hasCheckedExpiredOrderRef := hasCheckedExpiredOrderRef v;
     now := now v; pending := pending v; db_queries := db_queries v |}.

Definition set_hasCheckedExpiredOrderRef (o : option string) (v : View) :=
  {| orderDetails := orderDetails v;
     checkingDbForExpiredOrder := checkingDbForExpiredOrder v;
     loading := loading v; stateStabilized := stateStabilized v;
     hasCheckedExpiredOrderRef := o;
     now := now v; pending := pending v; db_queries := db_queries v |}.

Definition set_pending (q : list (Z * task)) (v : View) :=
  {| orderDetails := orderDetails v;
     checkingDbForExpiredOrder := checkingDbForExpiredOrder v;
     loading := loading v; stateStabilized := stateStabilized v;
     hasCheckedExpiredOrderRef := hasCheckedExpiredOrderRef v;
     now := now v; pending := q; db_queries := db_queries v |}.

Definition set_now (t : Z) (v : View) :=
  {| orderDetails := orderDetails v;
     checkingDbForExpiredOrder := checkingDbForExpiredOrder v;
     loading := loading v; stateStabilized := stateStabilized v;
     hasCheckedExpiredOrderRef := hasCheckedExpiredOrderRef v;
     now := t; pending := pending v; db_queries := db_queries v |}.

Definition query_db (oid : string) (v : View) :=
  {| orderDetails := orderDetails v;
     checkingDbForExpiredOrder := checkingDbForExpiredOrder v;
     loading := loading v; stateStabilized := stateStabilized v;
     hasCheckedExpiredOrderRef := hasCheckedExpiredOrderRef v;
     now := now v; pending := pending v;
     db_queries := db_queries v ++ [oid] |}.

(** [setTimeout(k, delay)] *)
Definition setTimeout (k : task) (delay : Z) (v : View) : View :=
  set_pending (pending v ++ [(now v + delay, k)]) v.

Definition is_CheckTimeout (k : task) : bool :=
  match k with CheckTimeout => true | _ => false end.

Definition is_Stabilize (k : task) : bool :=
  match k with Stabilize _ => true | _ => false end.

(** [clearTimeout] of the timers of one kind. *)
Definition clearTimeouts (which : task → bool) (v : View) : View :=
  set_pending (List.filter (λ e, negb (which e.2)) (pending v)) v.

(** [setCheckingDbForExpiredOrder], with the effect that depends on
    the flag: when the flag turns true a 3000 ms timeout is set, and
    when it turns false the effect's cleanup clears that timeout. *)
Definition setCheckingDbForExpiredOrder (b : bool) (v : View) : View :=
  let v1 :=
    {| orderDetails := orderDetails v;
       checkingDbForExpiredOrder := b;
       loading := loading v; stateStabilized := stateStabilized v;
       hasCheckedExpiredOrderRef := hasCheckedExpiredOrderRef v;
       now := now v; pending := pending v;
       db_queries := db_queries v |} in
  match checkingDbForExpiredOrder v, b with
  | false, true => setTimeout CheckTimeout 3000 v1
  | true, false => clearTimeouts is_CheckTimeout v1
  | _, _ => v1
  end.

(** The three setters that end a check. *)
Definition reset_loading (v : View) : View :=
  setStateStabilized true
    (setLoading false (setCheckingDbForExpiredOrder false v)).

(** Did the render of state [v] with props [p] get past the early
    returns, to where the handlers are declared? *)
Definition reaches_handlers (p : Props) (v : View) : bool :=
  negb (loading v || checkingDbForExpiredOrder v)
  && negb (JS.present (error p))
  && bool_decide (is_Some (orderDetails v)).

(** The effect that follows the parent's order details. *)
Definition sync_effect (p : Props) (v : View) (live : View) : View :=
  let live1 :=
    if stateStabilized v
       && negb (bool_decide
                  (Order.currentStatus <$> initialOrderDetails p
                   = Order.currentStatus <$> orderDetails v))
    then setOrderDetails (initialOrderDetails p) live
    else live in
  match initialOrderDetails p with
  | Some d =>
      if negb (stateStabilized v) then setTimeout (Stabilize d) 300 live1
      else setLoading (initialLoading p) live1
  | None => setLoading (initialLoading p) live1
  end.

(** [isExpiredOrder] of the reconciling effect. *)
Definition isExpiredOrder (d : Order.OrderDetails) : bool :=
  String.eqb (Order.currentStatus d) "expired"
  || bool_decide (Order.raw_status (Some d) = Some "EXPIRED").

(** The effect that reconciles an expired order.  The store will
    answer [res] after [latency] ms if it is asked. *)
Definition reconcile_effect (p : Props) (latency : Z) (res : db_outcome)
    (v : View) (live : View) : View :=
  match initialOrderDetails p with
  | Some d =>
      let shouldCheckDB :=
        isExpiredOrder d
        && negb (checkingDbForExpiredOrder v)
        && negb (bool_decide (hasCheckedExpiredOrderRef live
                              = Some (Order.orderId d)))
        && checkDbForCompletedTransaction p in
      if shouldCheckDB
      then
        let live1 :=
          set_hasCheckedExpiredOrderRef (Some (Order.orderId d))
            (setCheckingDbForExpiredOrder true
               (setStateStabilized false live)) in
        (* startDbCheck *)
        if JS.truthy (Order.orderId d)
        then
          set_pending
            (pending live1
             ++ [(now live1 + latency,
                  DbResolves d (reaches_handlers p v) res)])
            (query_db (Order.orderId d) live1)
        else live1
      else live
  | None => live
  end.

(** The parent renders the component with props [p]: the render sees
    the state [v]; the previous stabilisation timer is cleaned up, and
    the two effects run in the order of the source. *)
Definition observe (p : Props) (latency : Z) (res : db_outcome)
    (v : View) : View :=
  reconcile_effect p latency res v
    (sync_effect p v (clearTimeouts is_Stabilize v)).

(** [{ ...d, currentStatus: "completed",
       rawApiResponse: tx.raw_api_response || d.rawApiResponse }] *)
Definition updatedDetails (d : Order.OrderDetails) (tx : DbTransaction)
    : Order.OrderDetails :=
  Order.with_status d "completed"
    (match raw_api_response tx with
     | Some raw => Some raw
     | None => Order.rawApiResponse d
     end).

(** One task runs. *)
Definition exec (k : task) (v : View) : View :=
  match k with
  | DbResolves d bound (Found tx) =>
      setTimeout (ApplyFound (updatedDetails d tx) bound) 300 v
  | DbResolves _ _ NotFound => setTimeout ApplyNotFound 300 v
  | DbResolves _ _ DbThrows => reset_loading v
  | ApplyFound updated true =>
      reset_loading (setOrderDetails (Some updated) v)
  | ApplyFound _ false => v      (* the call of the handler throws *)
  | ApplyNotFound => reset_loading v
  | Stabilize d => setOrderDetails (Some d) (setStateStabilized true v)
  | CheckTimeout => reset_loading v
  end.

(** The task due first, the earliest registered among equals, and the
    tasks that stay. *)
Fixpoint pop (q : list (Z * task))
    : option ((Z * task) * list (Z * task)) :=
  match q with
  | [] => None
  | x :: rest =>
      match pop rest with
      | None => Some (x, [])
      | Some (y, rest') =>
          if x.1 <=? y.1 then Some (x, rest) else Some (y, x :: rest')
      end
  end.

(** The timers and the store's answers run in the order they are due,
    up to time [T]. *)
Fixpoint run (fuel : nat) (T : Z) (v : View) : View :=
  match fuel with
  | O => v
  | S fuel' =>
      match pop (pending v) with
      | Some ((due, k), rest) =>
          if due <=? T
          then run fuel' T
                 (exec k (set_now (Z.max (now v) due) (set_pending rest v)))
          else set_now (Z.max (now v) T) v
      | None => set_now (Z.max (now v) T) v
      end
  end.

(** A database check waits for at most two runs (its answer and the
    delayed callback), any other task for one. *)
Definition weight (k : task) : nat :=
  match k with DbResolves _ _ _ => 2%nat | _ => 1%nat end.

Definition total_weight (q : list (Z * task)) : nat :=
  foldr (λ e n, (weight e.2 + n)%nat) 0%nat q.

Definition run_until (T : Z) (v : View) : View :=
  run (S (total_weight (pending v))) T v.

(** What happens to a mounted view: the parent renders it with new
    props (and the store will answer a check started then with [res]
    after [latency] ms), or time passes until [T]. *)
Inductive event :=
| Observe (p : Props) (latency : Z) (res : db_outcome)
| Wait (T : Z).

Definition happen (v : View) (e : event) : View :=
  match e with
  | Observe p latency res => observe p latency res v
  | Wait T => run_until T v
  end.

Definition replay (es : list event) (v : View) : View :=
  foldl happen v es.

(** Is the event a render for order [oid], or without an order? *)
Definition about (oid : string) (e : event) : Prop :=
  match e with
  | Observe p _ _ =>
      match initialOrderDetails p with
      | Some d => Order.orderId d = oid
      | None => True
      end
  | Wait _ => True
  end.

(** The view at time [T], after a render of the view [v] with props [p]
    whose effects have run, when the store answers [res] after [latency]
    ms. *)
Definition seen_at (p : Props) (v : View) (latency T : Z)
    (res : db_outcome) : View :=
  run_until T (observe p latency res v).

(** The order the syncing effect leaves on display at once: the parent's
    when the view is stable and shows another status, else the view's
    own. *)
Definition synced (p : Props) (v : View) : option Order.OrderDetails :=
  if stateStabilized v
     && negb (bool_decide
                (Order.currentStatus <$> initialOrderDetails p
                 = Order.currentStatus <$> orderDetails v))
  then initialOrderDetails p
  else orderDetails v.

End Renderer.

(** ** Concrete inputs *)

Module Samples.

Definition order_Y : Order.OrderDetails :=
  {| Order.orderId := "Y";
     Order.ffOrderId := Some "FF-Y";
     Order.ffOrderToken := Some "tok-Y";
     Order.fromCurrency := "USDT";
     Order.toCurrency := "BTC";
     Order.depositAmount := "11";
     Order.destinationAddress := "addr1";
     Order.depositAddress := "dep1";
     Order.currentStatus := "pending";
     Order.rawApiResponse :=
       Some {| Order.id := "FF-Y"; Order.status := "NEW";
               Order.payload := "{}" |} |}.

Definition expired_order (oid : string) : Order.OrderDetails :=
  {| Order.orderId := oid;
     Order.ffOrderId := Some oid;
     Order.ffOrderToken := Some "tok";
     Order.fromCurrency := "USDT";
     Order.toCurrency := "BTC";
     Order.depositAmount := "11";
     Order.destinationAddress := "addr1";
     Order.depositAddress := "dep1";
     Order.currentStatus := "expired";
     Order.rawApiResponse :=
       Some {| Order.id := oid; Order.status := "EXPIRED";
               Order.payload := "{}" |} |}.

(** The awaiting-deposit page tracking order Y, just loaded. *)
Definition page (tok : string) : Awaiting.State :=
  {| Awaiting.orderId := Some "FF-Y";
     Awaiting.token := tok;
     Awaiting.simulateSuccess := false;
     Awaiting.manualStatusCheckAttempted := false;
     Awaiting.statusCheckDebugInfo := None;
     Awaiting.statusCheckError := None;
     Awaiting.pollingInterval := JS.Num 15000;
     Awaiting.lastPollTimestamp := 0;
     Awaiting.transactionSaved := false;
     Awaiting.originalOrderDetails := Some order_Y;
     Awaiting.orderDetails := Some order_Y |}.

Definition quiet : Awaiting.World :=
  {| Awaiting.completed_bridge_transactions := [];
     Awaiting.status_invocations := [];
     Awaiting.insert_invocations := [];
     Awaiting.toasts := [];
     Awaiting.navigations := [] |}.

Definition nav : Awaiting.Navigator :=
  {| Awaiting.userAgent := "agent";
     Awaiting.languages := ["en"];
     Awaiting.toISOString := "2025-01-01T00:00:00.000Z" |}.

(** The insert of a save of order Y by the page. *)
Definition pending_Y : Awaiting.pending_insert :=
  (Awaiting.transactionData Provider.parseFloat_digits nav (page "tok-Y")
     order_Y None false,
   order_Y).

(** A successful status response about another order, X. *)
Definition done_for_X : Awaiting.StatusResponse :=
  {| Awaiting.code := 0;
     Awaiting.data :=
       Some {| Order.id := "FF-X"; Order.status := "DONE";
               Order.payload := "{}" |};
     Awaiting.debugInfo := None;
     Awaiting.msg := None |}.

(** The props of a parent that has loaded order [d] without error and
    passes the database check. *)
Definition props (d : Order.OrderDetails) : Renderer.Props :=
  {| Renderer.initialLoading := false;
     Renderer.error := None;
     Renderer.initialOrderDetails := Some d;
     Renderer.checkDbForCompletedTransaction := true |}.

(** A completed record of the store. *)
Definition record_of (oid : string) : Renderer.DbTransaction :=
  {| Renderer.raw_api_response :=
       Some {| Order.id := oid; Order.status := "DONE";
               Order.payload := "{}" |} |}.

(** A quote with the given bounds, valid until second 2000. *)
Definition quote (lo hi : string) : Provider.PriceResponse :=
  {| Provider.rate := Some "0.000016";
     Provider.from_min := lo;
     Provider.from_max := hi;
     Provider.to_amount := "0.00017";
     Provider.expiresAt := JS.of_Z 2000 |}.

(** The exchange form as the user filled it in. *)
Definition form (amt destination : string)
    (q : option Provider.PriceResponse) : Provider.State :=
  {| Provider.fromCurrency := "USDT";
     Provider.toCurrency := "BTC";
     Provider.amount := amt;
     Provider.estimatedReceiveAmount := "0.00017";
     Provider.destinationAddress := destination;
     Provider.orderType := Provider.fixed;
     Provider.isCalculating := false;
     Provider.timeRemaining := None;
     Provider.lastPriceData := q;
     Provider.amountError := None |}.

(** The provider at rest: no timer set, nothing called yet. *)
Definition at_rest (s : Provider.State) : Provider.Config :=
  {| Provider.st := s;
     Provider.refs :=
       {| Provider.timeRemainingTimerRef := None;
          Provider.quoteExpiryTimeRef := None;
          Provider.statusCheckTimerRef := None;
          Provider.lastPriceCheckTimeRef := 0 |};
     Provider.world :=
       {| Provider.intervals := ∅;
          Provider.next_timer := 1;
          Provider.calls := [];
          Provider.localStorage := None;
          Provider.toasts := [] |} |}.

End Samples.

(** ** The currency catalogue of the provider *)

Module Catalog.

(** [Currency] of types/bridge, the fields the sources compare. *)
Record Currency := {
  code : option string;
  coin : option string;
  network : option string;
  name : option string;
  send : Z;
  recv : Z;
  priority : option Z
}.

(** [s.includes(needle)] *)
Fixpoint includes (s needle : string) : bool :=
  String.prefix needle s
  || match s with
     | EmptyString => false
     | String _ rest => includes rest needle
     end.

(** [c.code?.includes(needle)] *)
Definition code_includes (needle : string) (c : Currency) : bool :=
  match code c with
  | Some s => includes s needle
  | None => false
  end.

(** [c.code === s] *)
Definition code_is (s : string) (c : Currency) : bool :=
  bool_decide (code c = Some s).

(** The part of the provider's state the catalogue functions set, and
    the toasts they show. *)
Record State := {
  fromCurrency : string;
  toCurrency : string;
  availableCurrencies : list Currency;
  isLoadingCurrencies : bool;
  toasts : list string
}.

Definition setFromCurrency (v : string) (s : State) :=
  {| fromCurrency := v; toCurrency := toCurrency s;
     availableCurrencies := availableCurrencies s;
     isLoadingCurrencies := isLoadingCurrencies s; toasts := toasts s |}.

Definition setToCurrency (v : string) (s : State) :=
  {| fromCurrency := fromCurrency s; toCurrency := v;
     availableCurrencies := availableCurrencies s;
     isLoadingCurrencies := isLoadingCurrencies s; toasts := toasts s |}.

Definition setAvailableCurrencies (v : list Currency) (s : State) :=
  {| fromCurrency := fromCurrency s; toCurrency := toCurrency s;
     availableCurrencies := v;
     isLoadingCurrencies := isLoadingCurrencies s; toasts := toasts s |}.

Definition setIsLoadingCurrencies (v : bool) (s : State) :=
  {| fromCurrency := fromCurrency s; toCurrency := toCurrency s;
     availableCurrencies := availableCurrencies s;
     isLoadingCurrencies := v; toasts := toasts s |}.

Definition toast (title : string) (s : State) :=
  {| fromCurrency := fromCurrency s; toCurrency := toCurrency s;
     availableCurrencies := availableCurrencies s;
     isLoadingCurrencies := isLoadingCurrencies s;
     toasts := toasts s ++ [title] |}.

(** What [fetchCurrencies] resolves to. *)
Inductive fetch_outcome :=
| Fetched (currencies : list Currency)
| FetchedNoArray
| FetchThrows.

(** [refreshCurrencies] (and the loader that runs on mount, which has
    the same body), up to the [await]. *)
Definition refreshCurrencies_begin (s : State) : State :=
  setIsLoadingCurrencies true s.

(** The default pair: a currency that can be sent and whose code
    contains USDT, and BTC if it can be received. *)
Definition usdtCurrency (currencies : list Currency) : option Currency :=
  List.find (λ c, code_includes "USDT" c && (send c =? 1)) currencies.

Definition btcCurrency (currencies : list Currency) : option Currency :=
  List.find (λ c, code_is "BTC" c && (recv c =? 1)) currencies.

(** [refreshCurrencies], from the [await] on. *)
Definition refreshCurrencies_resume (out : fetch_outcome) (s : State)
    : State :=
  let s1 :=
    match out with
    | Fetched [] => setAvailableCurrencies [] s
    | Fetched currencies =>
        let s' := setAvailableCurrencies currencies s in
        match usdtCurrency currencies, btcCurrency currencies with
        | Some u, Some b =>
            setToCurrency (JS.or_else (code b) EmptyString)
              (setFromCurrency (JS.or_else (code u) EmptyString) s')
        | _, _ => s'
        end
    | FetchedNoArray => setAvailableCurrencies [] s
    | FetchThrows => setAvailableCurrencies [] (toast "Error" s)
    end in
  setIsLoadingCurrencies false s1.

Definition refreshCurrencies (out : fetch_outcome) (s : State) : State :=
  refreshCurrencies_resume out (refreshCurrencies_begin s).

End Catalog.

(** ** The status timer of the provider *)

Module StatusTimer.

(** The statuses at which the provider stops checking. *)
Definition terminal : list string :=
  [ "completed"; "failed"; "expired"; "refunded" ]%string.

(** Stop the status interval, if one is set: the interval's callback and
    the cleanup [startStatusChecking] returns both do this. *)
Definition clear_status_timer (c : Provider.Config) : Provider.Config :=
  match Provider.statusCheckTimerRef (Provider.refs c) with
  | Some i =>
      Provider.on_refs (Provider.set_statusCheckTimerRef None)
        (Provider.on_world (Provider.clearInterval i) c)
  | None => c
  end.

(** The interval's callback, once [checkOrderStatus(orderId)] has
    resolved: to nothing, or to data with a status. *)
Definition status_tick (data : option string) (c : Provider.Config)
    : Provider.Config :=
  match data with
  | Some st => if bool_decide (st ∈ terminal) then clear_status_timer c
               else c
  | None => c
  end.

(** The status timer the ref holds was handed out by [setInterval]. *)
Definition handed_out (c : Provider.Config) : Prop :=
  ∀ i, Provider.statusCheckTimerRef (Provider.refs c) = Some i →
       (i < Provider.next_timer (Provider.world c))%nat.

End StatusTimer.

(** ** components/bridge/CurrencySelector.tsx *)

Module Selector.

(** *** The amount field *)

Definition is_digit (a : Ascii.ascii) : bool :=
  let n := Ascii.N_of_ascii a in ((48 <=? n) && (n <=? 57))%N.

Definition is_dot (a : Ascii.ascii) : bool :=
  (Ascii.N_of_ascii a =? 46)%N.

(** What is left of a string after its leading digits. *)
Fixpoint after_digits (s : string) : string :=
  match s with
  | EmptyString => EmptyString
  | String a rest => if is_digit a then after_digits rest else s
  end.

(** The test of the amount's pattern: digits, then at most one point,
    then digits, up to the end of the input. *)
Definition amount_pattern (s : string) : bool :=
  match after_digits s with
  | EmptyString => true
  | String a rest =>
      is_dot a
      && match after_digits rest with EmptyString => true | _ => false end
  end.

(** The field's state, the typing timeouts that are pending, the next
    timeout identifier (the browser hands out positive integers), and
    the values passed to [onAmountChange]. *)
Record State := {
  isTyping : bool;
  typingTimeout : option positive
}.

Record World := {
  timeouts : gset positive;
  next_timeout : positive;
  amount_changes : list string
}.

(** [handleAmountChange(value)], called by a render [r]; [handled]
    tells whether [onAmountChange] was passed. *)
Definition handleAmountChange (handled : bool) (r : State) (value : string)
    (c : State * World) : State * World :=
  if negb handled then c
  else if amount_pattern value
  then
    let cleared :=
      match typingTimeout r with
      | Some i => timeouts c.2 ∖ {[i]}
      | None => timeouts c.2
      end in
    let timeout := next_timeout c.2 in
    ({| isTyping := true; typingTimeout := Some timeout |},
     {| timeouts := cleared ∪ {[timeout]};
        next_timeout := Pos.succ timeout;
        amount_changes := amount_changes c.2 ++ [value] |})
  else c.

(** A typing timeout fires, if it is still pending. *)
Definition typing_timeout_fires (i : positive) (c : State * World)
    : State * World :=
  if bool_decide (i ∈ timeouts c.2)
  then ({| isTyping := false; typingTimeout := typingTimeout c.1 |},
        {| timeouts := timeouts c.2 ∖ {[i]};
           next_timeout := next_timeout c.2;
           amount_changes := amount_changes c.2 |})
  else c.

(** What happens to the field: the user edits it, or a timeout fires. *)
Inductive event :=
| Edit (value : string)
| Fire (i : positive).

(** Each event is handled by the render of the state it finds. *)
Definition happen (handled : bool) (c : State * World) (e : event)
    : State * World :=
  match e with
  | Edit value => handleAmountChange handled c.1 value c
  | Fire i => typing_timeout_fires i c
  end.

Definition mounted : State * World :=
  ({| isTyping := false; typingTimeout := None |},
   {| timeouts := ∅; next_timeout := 1%positive; amount_changes := [] |}).

(** *** The default currency *)

(** [c.priority || 0] *)
Definition prio (c : Catalog.Currency) : Z :=
  match Catalog.priority c with Some n => n | None => 0 end.

(** [list.sort((a, b) => (b.priority || 0) - (a.priority || 0))]: the
    sort is stable, so equal priorities keep their order. *)
Fixpoint insert_by_priority (x : Catalog.Currency)
    (l : list Catalog.Currency) : list Catalog.Currency :=
  match l with
  | [] => [x]
  | y :: rest =>
      if prio x <? prio y then y :: insert_by_priority x rest
      else x :: y :: rest
  end.

Definition sort_by_priority (l : list Catalog.Currency)
    : list Catalog.Currency :=
  foldr insert_by_priority [] l.

(** [filteredCurrencies]: the currencies of the selector's side. *)
Definition filteredCurrencies (isReceiveSide : bool)
    (availableCurrencies : list Catalog.Currency)
    : list Catalog.Currency :=
  List.filter
    (λ c, if isReceiveSide then Catalog.recv c =? 1 else Catalog.send c =? 1)
    availableCurrencies.

(** [a?.code || b?.code || ... || ""] *)
Fixpoint first_code (candidates : list (option Catalog.Currency))
    : string :=
  match candidates with
  | [] => EmptyString
  | o :: rest =>
      match o with
      | Some c =>
          if JS.present (Catalog.code c)
          then JS.or_else (Catalog.code c) EmptyString
          else first_code rest
      | None => first_code rest
      end
  end.

(** The effect that selects a default: the value it passes to
    [onChange], if it calls it. *)
Definition default_currency (isReceiveSide : bool)
    (availableCurrencies : list Catalog.Currency) (value : string)
    : option string :=
  let filtered := filteredCurrencies isReceiveSide availableCurrencies in
  match filtered with
  | [] => None
  | _ :: _ =>
      if JS.truthy value then None
      else
        let sorted := sort_by_priority filtered in
        let highPriorityCurrency := head sorted in
        if isReceiveSide
        then Some (first_code
                     [ List.find (Catalog.code_includes "USDT") filtered;
                       List.find (Catalog.code_includes "USDC") filtered;
                       List.find (Catalog.code_is "ETH") filtered;
                       highPriorityCurrency; head sorted ])
        else Some (first_code
                     [ List.find (Catalog.code_is "BTC") filtered;
                       List.find (Catalog.code_is "ETH") filtered;
                       highPriorityCurrency; head sorted ])
  end.

End Selector.

(** ** The order-complete page *)

Module Complete.

(** [OrderData], the fields the page reads before it renders. *)
Record OrderData := {
  status : string;
  ff_order_id : string;
  ff_order_token : string
}.

Record State := {
  orderId : option string;          (* searchParams.get("orderId") *)
  orderDetails : option OrderData;
  apiOrderData : option string;     (* the status payload, as it came *)
  loading : bool;
  error : option string;
  apiAttempted : bool
}.

Inductive call :=
| BridgeOrder (orderId : string)
| BridgeStatus (id token : string).

Record World := {
  calls : list call;
  navigations : list string;
  toasts : list string
}.

(** What the [bridge-order] invocation resolves to: nothing; an error,
    with or without a message; a result with neither error nor data,
    reading whose status throws a [TypeError] with the engine's message;
    data; or a rejection, with an [Error] or with something else. *)
Inductive order_outcome :=
| OrderNothing
| OrderError (message : option string)
| OrderNoData (type_error : string)
| OrderData_ (data : OrderData)
| OrderRejects (message : option string).

(** What the [bridge-status] invocation resolves to; [StatusData] holds
    [data.code] and [data.data]. *)
Inductive status_outcome :=
| StatusNothing
| StatusError
| StatusNoData
| StatusData (code : Z) (data : option string)
| StatusRejects.

Definition setLoading (b : bool) (s : State) :=
  {| orderId := orderId s; orderDetails := orderDetails s;
     apiOrderData := apiOrderData s; loading := b; error := error s;
     apiAttempted := apiAttempted s |}.

Definition setError (e : string) (s : State) :=
  {| orderId := orderId s; orderDetails := orderDetails s;
     apiOrderData := apiOrderData s; loading := loading s;
     error := Some e; apiAttempted := apiAttempted s |}.

Definition setApiAttempted (b : bool) (s : State) :=
  {| orderId := orderId s; orderDetails := orderDetails s;
     apiOrderData := apiOrderData s; loading := loading s;
     error := error s; apiAttempted := b |}.

Definition setOrderDetails (d : option OrderData) (s : State) :=
  {| orderId := orderId s; orderDetails := d;
     apiOrderData := apiOrderData s; loading := loading s;
     error := error s; apiAttempted := apiAttempted s |}.

Definition setApiOrderData (d : option string) (s : State) :=
  {| orderId := orderId s; orderDetails := orderDetails s;
     apiOrderData := d; loading := loading s;
     error := error s; apiAttempted := apiAttempted s |}.

Definition invoke (k : call) (w : World) : World :=
  {| calls := calls w ++ [k]; navigations := navigations w;
     toasts := toasts w |}.

Definition navigate (url : string) (w : World) : World :=
  {| calls := calls w; navigations := navigations w ++ [url];
     toasts := toasts w |}.

Definition toast (title : string) (w : World) : World :=
  {| calls := calls w; navigations := navigations w;
     toasts := toasts w ++ [title] |}.

Definition fetch_failed : string := "Failed to fetch order details".

(** The [catch] and the [finally] of [fetchOrderDetails]. *)
Definition fetch_fails (message : string) (c : State * World)
    : State * World :=
  (setLoading false (setError message c.1), toast "Error" c.2).

(** [fetchOrderDetails], run by the effect of a render [r]; [order] and
    [details] are what the two invocations resolve to if they are
    made. *)
Definition fetchOrderDetails (r : State) (order : order_outcome)
    (details : status_outcome) (c : State * World) : State * World :=
  match orderId r with
  | None =>
      (setLoading false (setError "No order ID provided" c.1), c.2)
  | Some oid =>
      if negb (JS.truthy oid)
      then (setLoading false (setError "No order ID provided" c.1), c.2)
      else if apiAttempted r then c
      else
        let c1 := (setApiAttempted true c.1, invoke (BridgeOrder oid) c.2) in
        match order with
        | OrderNothing => fetch_fails fetch_failed c1
        | OrderError m => fetch_fails (JS.or_else m fetch_failed) c1
        | OrderRejects (Some m) => fetch_fails m c1
        | OrderRejects None => fetch_fails fetch_failed c1
        | OrderNoData type_error =>
            fetch_fails type_error (setOrderDetails None c1.1, c1.2)
        | OrderData_ d =>
            let s2 := setOrderDetails (Some d) c1.1 in
            if negb (String.eqb (status d) "completed")
            then
              (setLoading false s2,
               navigate ("/bridge/awaiting-deposit?orderId=" ++ oid) c1.2)
            else
              let w3 :=
                invoke (BridgeStatus (ff_order_id d) (ff_order_token d))
                  c1.2 in
              match details with
              | StatusData code payload =>
                  if code =? 0
                  then (setLoading false (setApiOrderData payload s2), w3)
                  else (setLoading false s2, w3)
              | _ => (setLoading false s2, w3)
              end
        end
  end.

(** [truncateTxId] *)
Definition truncateTxId (txId : option string) : string :=
  match txId with
  | None => "N/A"
  | Some s =>
      if negb (JS.truthy s) then "N/A"
      else if (String.length s <=? 20)%nat then s
      else String.substring 0 18 s ++ "..."
  end.

End Complete.

(** ** The handlers and the screens of the status renderer *)

Module Actions.

Inductive choice := EXCHANGE | REFUND.

(** [choice.toLowerCase()] *)
Definition lower (k : choice) : string :=
  match k with EXCHANGE => "exchange" | REFUND => "refund" end.

(** The body of a [bridge-emergency] invocation. *)
Record Request := {
  id : string;
  token : string;
  choice_ : choice;
  address : option string
}.

(** What the renderer is given besides the order: the token, and whether
    the two optional callbacks were passed. *)
Record Props := {
  token_ : string;
  setEmergencyActionTaken : bool;
  checkOrderStatus : bool
}.

Record Response := {
  code : option Z;
  msg : option string
}.

Inductive outcome :=
| InvokeError (message : string)          (* { error } *)
| InvokeData (data : option Response)     (* { data } *)
| InvokeThrows.

(** What a handler does outside the component: the invocations, the
    window events, the toasts (their descriptions), the parent's flag,
    and the delays after which a status check is scheduled. *)
Record Effects := {
  invocations : list Request;
  events : list string;
  toasts : list string;
  emergencyActionTaken : bool;
  scheduled_checks : list Z
}.

Definition quiet : Effects :=
  {| invocations := []; events := []; toasts := [];
     emergencyActionTaken := false; scheduled_checks := [] |}.

Definition toast (description : string) (w : Effects) : Effects :=
  {| invocations := invocations w; events := events w;
     toasts := toasts w ++ [description];
     emergencyActionTaken := emergencyActionTaken w;
     scheduled_checks := scheduled_checks w |}.

Definition invoke (q : Request) (w : Effects) : Effects :=
  {| invocations := invocations w ++ [q]; events := events w;
     toasts := toasts w;
     emergencyActionTaken := emergencyActionTaken w;
     scheduled_checks := scheduled_checks w |}.

(** The branch of a response with code 0. *)
Definition succeeded (p : Props) (w : Effects) : Effects :=
  {| invocations := invocations w;
     events := events w ++ ["emergency-action-triggered"];
     toasts := toasts w;
     emergencyActionTaken :=
       if setEmergencyActionTaken p then true else emergencyActionTaken w;
     scheduled_checks :=
       if checkOrderStatus p then scheduled_checks w ++ [1000]
       else scheduled_checks w |}.

(** The request [handleEmergencyAction] builds. *)
Definition requestBody (p : Props) (ffOrderId : string) (k : choice)
    (refundAddress : option string) : Request :=
  {| id := ffOrderId; token := token_ p; choice_ := k;
     address :=
       match k with
       | REFUND => if JS.present refundAddress then refundAddress else None
       | EXCHANGE => None
       end |}.

(** [handleEmergencyAction(choice, refundAddress)] for the order on
    display; [out] is what the invocation resolves to if it is made. *)
Definition handleEmergencyAction (p : Props)
    (orderDetails : option Order.OrderDetails) (k : choice)
    (refundAddress : option string) (out : outcome) (w : Effects)
    : Effects :=
  match orderDetails with
  | Some d =>
      match Order.ffOrderId d with
      | Some fid =>
          if JS.truthy fid && JS.truthy (token_ p)
          then
            let w1 := invoke (requestBody p fid k refundAddress) w in
            match out with
            | InvokeError m =>
                toast ("Failed to process " ++ lower k ++ ": " ++ m) w1
            | InvokeData (Some r) =>
                if bool_decide (code r = Some 0) then succeeded p w1
                else toast (JS.or_else (msg r) "Unknown error occurred") w1
            | InvokeData None => toast "Unknown error occurred" w1
            | InvokeThrows =>
                toast "Failed to process request. Please try again later." w1
            end
          else toast "Missing order information for emergency action" w
      | None => toast "Missing order information for emergency action" w
      end
  | None => toast "Missing order information for emergency action" w
  end.

(** What the renderer shows. *)
Inductive Screen :=
| LoadingState (message : string)
| ErrorState (e : string)
| EmptyState
| Transaction (d : Order.OrderDetails).

Definition screen (p : Renderer.Props) (v : Renderer.View) : Screen :=
  if Renderer.loading v || Renderer.checkingDbForExpiredOrder v
  then LoadingState
         (if Renderer.checkingDbForExpiredOrder v
          then "Checking transaction records..."
          else "Verifying transaction status...")
  else
    match Renderer.error p with
    | Some e =>
        if JS.truthy e then ErrorState e
        else match Renderer.orderDetails v with
             | Some d => Transaction d
             | None => EmptyState
             end
    | None =>
        match Renderer.orderDetails v with
        | Some d => Transaction d
        | None => EmptyState
        end
    end.

End Actions.

(** ** Conditions the code tests, named *)

Module Conditions.

(** The calculator's own check of its inputs:
    [fromCurrency && toCurrency && amount && !(parseFloat(amount) <= 0)]. *)
Definition inputs_given (parseFloat : string → JS.number)
    (r : Provider.State) : bool :=
  JS.truthy (Provider.fromCurrency r) && JS.truthy (Provider.toCurrency r)
  && JS.truthy (Provider.amount r)
  && negb (JS.le (parseFloat (Provider.amount r)) (JS.of_Z 0)).

(** The provider's test of the order service's answer:
    [result && result.code === 0 && result.data]. *)
Definition order_accepted (order : Provider.order_outcome)
    : option (Provider.OrderResponse * Provider.OrderData) :=
  match order with
  | Provider.OrderReturns (Some res) =>
      match Provider.code res, Provider.data res with
      | Some 0, Some d => Some (res, d)
      | _, _ => None
      end
  | _ => None
  end.

(** Can the expiry the order service gave be formatted as a date?  A
    missing one and 0 are not formatted at all. *)
Definition date_in_range (expiration : option Z) : bool :=
  match expiration with
  | Some e => Z.abs (e * 1000) <=? Provider.MAX_TIME_VALUE
  | None => true
  end.

(** The call of the order service for the form of render [r] and the
    quote [q]. *)
Definition order_call (r : Provider.State) (q : Provider.PriceResponse)
    : Provider.call :=
  Provider.CreateOrder (Provider.fromCurrency r) (Provider.toCurrency r)
    (Provider.amount r) (Provider.destinationAddress r)
    (Provider.orderType r) (JS.or_else (Provider.rate q) EmptyString).

(** Whether the answer of a status check makes the interval's callback
    stop the timer: [data && [...].includes(data.status)]. *)
Definition stops (data : option string) : bool :=
  match data with
  | Some st => bool_decide (st ∈ StatusTimer.terminal)
  | None => false
  end.

(** The status interval's callbacks, one per answer, in the order the
    answers arrive. *)
Definition status_ticks (answers : list (option string))
    (c : Provider.Config) : Provider.Config :=
  foldl (λ c d, StatusTimer.status_tick d c) c answers.

(** The page's tests of a status answer: [data.code === 0 && data.data]
    with [status === 'DONE'], and the answers it reports as errors. *)
Definition done_answer (out : Awaiting.invoke_outcome) : bool :=
  match out with
  | Awaiting.InvokeData d =>
      match Awaiting.data d with
      | Some dd => (Awaiting.code d =? 0) && String.eqb (Order.status dd) "DONE"
      | None => false
      end
  | _ => false
  end.

Definition failed_answer (out : Awaiting.invoke_outcome) : bool :=
  match out with
  | Awaiting.InvokeData d =>
      match Awaiting.data d with
      | Some _ => negb (Awaiting.code d =? 0)
      | None => true
      end
  | _ => true
  end.

(** A string of decimal digits, possibly empty. *)
Fixpoint all_digits (s : string) : bool :=
  match s with
  | EmptyString => true
  | String a rest => Selector.is_digit a && all_digits rest
  end.

(** The amount field after the events [es], each handled by the render
    of the state it finds. *)
Definition field_after (handled : bool) (es : list Selector.event)
    : Selector.State * Selector.World :=
  foldl (Selector.happen handled) Selector.mounted es.

(** Is the currency offered on the selector's side? *)
Definition eligible (isReceiveSide : bool) (c : Catalog.Currency) : bool :=
  if isReceiveSide then Catalog.recv c =? 1 else Catalog.send c =? 1.

(** The codes the selector prefers on its side, before it looks at
    priorities. *)
Definition preferred (isReceiveSide : bool) (s : string) : Prop :=
  if isReceiveSide
  then Catalog.includes s "USDT" = true ∨ Catalog.includes s "USDC" = true
       ∨ s = "ETH"%string
  else s = "BTC"%string ∨ s = "ETH"%string.

End Conditions.

(** * Theorems *)

(** ** The polling policy *)

Module PollingPolicy.
Import Awaiting.

(** A status that the table does not list and that names no inherited
    member is looked up as [undefined]. *)
Lemma get_unlisted (k : string) :
  k ∉ "DEFAULT" :: raw_statuses →
  k ∉ JS.Object_prototype →
  JS.get POLLING_INTERVALS k = JS.Undefined.
Proof.
  intros Hown Hproto. unfold JS.get.
  assert (POLLING_INTERVALS !! k = None) as ->.
  { apply not_elem_of_list_to_map_1. exact Hown. }
  rewrite bool_decide_eq_false_2; done.
Qed.

(** The statuses with a numeric entry get that entry. *)
Lemma newInterval_numeric :
  newInterval "NEW" = JS.Num 10000 ∧
  newInterval "PENDING" = JS.Num 10000 ∧
  newInterval "EXCHANGE" = JS.Num 20000 ∧
  newInterval "WITHDRAW" = JS.Num 20000 ∧
  newInterval "DONE" = JS.Num 30000.
Proof. repeat split; vm_compute; reflexivity. Qed.

(** The selected interval is never [null] and never [undefined]. *)
Lemma newInterval_not_nullish (k : string) :
  newInterval k ≠ JS.Null ∧ newInterval k ≠ JS.Undefined.
Proof.
  unfold newInterval.
  replace (JS.get POLLING_INTERVALS "DEFAULT") with (JS.Num 15000)
    by (vm_compute; reflexivity).
  unfold JS.get.
  destruct (POLLING_INTERVALS !! k) as [v|] eqn:Hk.
  - apply elem_of_list_to_map_2 in Hk.
    repeat (apply elem_of_cons in Hk as [[= _ ->] | Hk];
            [simpl; split; discriminate |]).
    by apply elem_of_nil in Hk.
  - case_bool_decide; simpl; split; discriminate.
Qed.

(** An unlisted status that names no inherited member gets the
    default. *)
Lemma newInterval_unlisted (k : string) :
  k ∉ "DEFAULT" :: raw_statuses →
  k ∉ JS.Object_prototype →
  newInterval k = JS.Num 15000.
Proof.
  intros Hown Hproto. unfold newInterval.
  rewrite (get_unlisted k Hown Hproto). vm_compute. reflexivity.
Qed.

(** [C2] The table holds [null] for EXPIRED and EMERGENCY, but the
    interval that is applied is [POLLING_INTERVALS[status] ??
    DEFAULT], and [??] replaces [null] by its right operand: the
    applied interval is 15000 ms for both, and the page showing an
    expired order keeps an interval timer of that period. *)
Theorem null_entries_get_the_default :
  JS.get POLLING_INTERVALS "EXPIRED" = JS.Null ∧
  JS.get POLLING_INTERVALS "EMERGENCY" = JS.Null ∧
  newInterval "EXPIRED" = JS.Num 15000 ∧
  newInterval "EMERGENCY" = JS.Num 15000 ∧
  (let s := setOrderDetails (Some (Samples.expired_order "FF-Y"))
              (Samples.page "tok-Y") in
   polling_timer (polling_interval_effect s s) = Some (JS.Num 15000)).
Proof. repeat split; vm_compute; reflexivity. Qed.

(** [C10] A status string outside the seven listed ones is not always
    given the default: a string that names a member inherited from
    [Object.prototype] finds that member, which is not nullish, so
    [??] keeps it. *)
Theorem inherited_member_is_not_defaulted :
  ("toString" ∉ raw_statuses) ∧
  newInterval "toString" = JS.Inherited "toString" ∧
  newInterval "toString" ≠ JS.Num 15000.
Proof.
  split; [|split].
  - compute_done.
  - vm_compute. reflexivity.
  - vm_compute. discriminate.
Qed.

End PollingPolicy.


(** ** The status poller *)

Module StatusPoller.
Import Awaiting.

Lemma lt_value_Num (x n : Z) : JS.lt_value x (JS.Num n) = true ↔ x < n.
Proof. simpl. apply Z.ltb_lt. Qed.

(** The guards of [checkOrderStatus], call by call.  A call for a page
    that lacks the order id or the token, forced or not, issues nothing
    and records the error.  For a page that has both: an unforced call
    under a [null] interval issues nothing; an unforced call less than
    the interval after the last attempt issues nothing; every other
    call records the attempt time and issues the request, before any
    response; a forced call always does so. *)
Theorem poll_tick_guards (r : State) (force : bool) (now : Z)
    (c : State * World) :
  let elapsed := now - lastPollTimestamp r in
  (JS.present (orderId r) && JS.truthy (token r) = false →
   checkOrderStatus r force now c
   = ((setStatusCheckError "Missing order ID or token" c.1, c.2), None)) ∧
  (∀ oid, orderId r = Some oid →
     JS.truthy oid = true →
     JS.truthy (token r) = true →
     let q := {| req_id := oid; req_token := token r |} in
     let issued :=
       ((setManualStatusCheckAttempted true (setLastPollTimestamp now c.1),
         invoke_status q c.2), Some q) in
     (force = false → pollingInterval r = JS.Null →
      checkOrderStatus r force now c = (c, None)) ∧
     (force = false → JS.lt_value elapsed (pollingInterval r) = true →
      checkOrderStatus r force now c = (c, None)) ∧
     (force = false → pollingInterval r ≠ JS.Null →
      JS.lt_value elapsed (pollingInterval r) = false →
      checkOrderStatus r force now c = issued) ∧
     (force = true → checkOrderStatus r force now c = issued) ∧
     lastPollTimestamp issued.1.1 = now ∧
     status_invocations issued.1.2 = status_invocations c.2 ++ [q]).
Proof.
  intros elapsed. split.
  - unfold checkOrderStatus, JS.present.
    destruct (orderId r) as [oid|]; [|reflexivity].
    intros H. rewrite <- negb_andb, H. reflexivity.
  - intros oid Hid Hoid Htok q issued. unfold checkOrderStatus.
    subst issued. rewrite Hid, Hoid, Htok. simpl.
    repeat split.
    + intros -> ->. reflexivity.
    + intros -> Hlt. subst elapsed. rewrite Hlt.
      destruct (JS.is_null (pollingInterval r)); reflexivity.
    + intros -> Hnn Hlt. subst elapsed. rewrite Hlt.
      destruct (pollingInterval r); try reflexivity. congruence.
    + intros ->. rewrite !andb_false_r. reflexivity.
Qed.

Lemma poll_tick_guards_witness :
  let s := Samples.page "tok-Y" in
  let q := {| req_id := "FF-Y"; req_token := "tok-Y" |} in
  checkOrderStatus s true 5000 (s, Samples.quiet)
  = ((setManualStatusCheckAttempted true (setLastPollTimestamp 5000 s),
      invoke_status q Samples.quiet), Some q).
Proof.
  intros s q.
  exact (proj1 (proj2 (proj2 (proj2
    (proj2 (poll_tick_guards s true 5000 (s, Samples.quiet))
       "FF-Y"%string eq_refl eq_refl eq_refl)))) eq_refl).
Defined.

(** The page itself calls [checkOrderStatus] only with an order id and a
    token: where it forces the first check, and where the interval
    ticks. *)
Lemma page_ticks_have_order_and_token (r : State) (now : Z)
    (c : State * World) :
  (initial_check_effect r now c ≠ (c, None) →
   JS.present (orderId r) && JS.truthy (token r) = true) ∧
  (polling_tick r now c ≠ (c, None) →
   JS.present (orderId r) && JS.truthy (token r) = true).
Proof.
  split.
  - unfold initial_check_effect.
    destruct (JS.present (orderId r) && JS.truthy (token r)); [done|].
    simpl. congruence.
  - unfold polling_tick, polling_timer.
    destruct (JS.present (orderId r)); simpl; [|congruence].
    destruct (JS.truthy (token r)); simpl; [done | congruence].
Qed.

(** [C7] Every tick the page makes follows the guards.  The page
    calls [checkOrderStatus] in two places, and in both only with an
    order id and a token: forced, from the effect that runs when the
    page opens, and unforced, from the interval timer, which is set only
    under an interval that is not [null].  For every tick of a page
    that has both: an unforced tick under a [null] interval issues
    nothing; an unforced tick less than the interval after the last
    attempt issues nothing; every other tick records the attempt time
    and issues the request, before any response; a forced tick always
    does so, whatever the interval and the last attempt are. *)
Theorem page_ticks_follow_the_guards (r : State) (force : bool) (now : Z)
    (c : State * World) :
  let elapsed := now - lastPollTimestamp r in
  let has_both := JS.present (orderId r) && JS.truthy (token r) in
  initial_check_effect r now c
  = (if has_both && negb (manualStatusCheckAttempted r)
     then checkOrderStatus r true now c else (c, None)) ∧
  polling_tick r now c
  = (if has_both && negb (JS.is_null (pollingInterval r))
     then checkOrderStatus r false now c else (c, None)) ∧
  (∀ oid, orderId r = Some oid →
     JS.truthy oid = true →
     JS.truthy (token r) = true →
     let q := {| req_id := oid; req_token := token r |} in
     let issued :=
       ((setManualStatusCheckAttempted true (setLastPollTimestamp now c.1),
         invoke_status q c.2), Some q) in
     (force = false → pollingInterval r = JS.Null →
      checkOrderStatus r force now c = (c, None)) ∧
     (force = false → JS.lt_value elapsed (pollingInterval r) = true →
      checkOrderStatus r force now c = (c, None)) ∧
     (force = false → pollingInterval r ≠ JS.Null →
      JS.lt_value elapsed (pollingInterval r) = false →
      checkOrderStatus r force now c = issued) ∧
     (force = true → checkOrderStatus r force now c = issued) ∧
     lastPollTimestamp issued.1.1 = now ∧
     status_invocations issued.1.2 = status_invocations c.2 ++ [q]).
Proof.
  intros elapsed has_both. split; [|split].
  - reflexivity.
  - subst has_both. unfold polling_tick, polling_timer.
    destruct (JS.present (orderId r)), (JS.truthy (token r)),
      (JS.is_null (pollingInterval r)); reflexivity.
  - exact (proj2 (poll_tick_guards r force now c)).
Qed.

Lemma page_ticks_follow_the_guards_witness :
  let s := Samples.page "tok-Y" in
  let q := {| req_id := "FF-Y"; req_token := "tok-Y" |} in
  checkOrderStatus s true 5000 (s, Samples.quiet)
  = ((setManualStatusCheckAttempted true (setLastPollTimestamp 5000 s),
      invoke_status q Samples.quiet), Some q).
Proof.
  intros s q.
  exact (proj1 (proj2 (proj2 (proj2
    (proj2 (proj2 (page_ticks_follow_the_guards s true 5000
                     (s, Samples.quiet)))
       "FF-Y"%string eq_refl eq_refl eq_refl)))) eq_refl).
Defined.

(** [checkOrderStatus] called by hand, forced, for a page that has no
    token, issues no request: the guard on the order id and the token
    comes before the two guards that a forced check bypasses.  The page
    makes no such call (see [page_ticks_have_order_and_token]). *)
Lemma forced_check_without_token :
  let s := Samples.page EmptyString in
  let res := checkOrderStatus s true 5000 (s, Samples.quiet) in
  res.2 = None ∧
  status_invocations res.1.2 = [] ∧
  lastPollTimestamp res.1.1 = lastPollTimestamp s ∧
  statusCheckError res.1.1 = Some "Missing order ID or token"%string.
Proof. repeat split. Qed.

Section Responses.

Variable parseFloat : string → JS.number.
Variable nav : Navigator.

(** [C3, as the code has it] The success handler never looks at the
    order id of the payload.  A successful response whose status is not
    DONE leaves the displayed order as it is; one whose status is DONE
    replaces it by the order loaded by the render that sent the request,
    marked completed. *)
Theorem success_handler_ignores_id (r : State) (rid st pl : string)
    (di m : option string) (c : State * World) :
  let resp :=
    {| code := 0;
       data := Some {| Order.id := rid; Order.status := st;
                       Order.payload := pl |};
       debugInfo := di; msg := m |} in
  orderDetails
    (checkOrderStatus_resume parseFloat nav r (InvokeData resp) c).1.1
  = if String.eqb st "DONE"
    then match originalOrderDetails r with
         | Some o => Some (completed o)
         | None => orderDetails c.1
         end
    else orderDetails c.1.
Proof.
  intros resp. unfold checkOrderStatus_resume. simpl.
  destruct (String.eqb st "DONE") eqn:Hst.
  - destruct (saveCompletedTransaction _ _ _ _ _ _ _) as [w2 p].
    destruct (originalOrderDetails r), di; reflexivity.
  - destruct di; reflexivity.
Qed.

End Responses.

(** [C3, as stated, fails] The page tracks order FF-Y; a successful
    response whose payload is about order FF-X and says DONE changes the
    displayed order to completed. *)
Lemma response_about_another_order_is_applied :
  let s := Samples.page "tok-Y" in
  let res :=
    checkOrderStatus_resume Provider.parseFloat_digits Samples.nav s
      (InvokeData Samples.done_for_X) (s, Samples.quiet) in
  orderId s = Some "FF-Y"%string ∧
  Order.id <$> data Samples.done_for_X = Some "FF-X"%string ∧
  Order.raw_status (orderDetails s) = Some "NEW"%string ∧
  orderDetails res.1.1 ≠ orderDetails s ∧
  Order.raw_status (orderDetails res.1.1) = Some "DONE"%string ∧
  Order.currentStatus <$> orderDetails res.1.1 = Some "completed"%string.
Proof. repeat split. vm_compute. discriminate. Qed.

End StatusPoller.


(** ** The completion recorder *)

Module CompletionRecorder.
Import Awaiting.

Section Saves.

Variable parseFloat : string → JS.number.
Variable nav : Navigator.

(** A render that sees the flag set saves nothing. *)
Lemma saved_flag_stops_save r details api sim w :
  transactionSaved r = true →
  saveCompletedTransaction parseFloat nav r details api sim w = (w, None).
Proof.
  intros H. unfold saveCompletedTransaction. rewrite H.
  destruct details; reflexivity.
Qed.

(** A render that sees the flag clear, with an order, calls [insert]. *)
Lemma clear_flag_lets_save r d api sim w :
  transactionSaved r = false →
  ∃ row,
    saveCompletedTransaction parseFloat nav r (Some d) api sim w
    = (invoke_insert row w, Some (row, d)) ∧
    ff_order_id row = JS.or_else (Order.ffOrderId d) (Order.orderId d).
Proof.
  intros H. unfold saveCompletedTransaction. rewrite H.
  eexists. split; reflexivity.
Qed.

(** The flag after an insert has settled. *)
Lemma flag_after_settling out p c :
  transactionSaved (insert_settles out p c).1
  = match out with Inserted => true | _ => transactionSaved c.1 end.
Proof. destruct out; reflexivity. Qed.

(** The table after an insert has settled. *)
Lemma table_after_settling out p c :
  completed_bridge_transactions (insert_settles out p c).2
  = match out with
    | Inserted => completed_bridge_transactions c.2 ++ [p.1]
    | _ => completed_bridge_transactions c.2
    end.
Proof. destruct out; reflexivity. Qed.

(** The guard is read when the save starts and the flag is written when
    the insert has succeeded: two saves that start before either insert
    has settled both write. *)
Lemma overlapping_saves_both_write (s : State) (w : World)
    (d : Order.OrderDetails) api1 api2 sim1 sim2 :
  transactionSaved s = false →
  ∃ p1 p2 w1 w2,
    saveCompletedTransaction parseFloat nav s (Some d) api1 sim1 w
    = (w1, Some p1) ∧
    saveCompletedTransaction parseFloat nav s (Some d) api2 sim2 w1
    = (w2, Some p2) ∧
    insert_invocations w2 = insert_invocations w ++ [p1.1; p2.1] ∧
    completed_bridge_transactions
      (insert_settles Inserted p2 (insert_settles Inserted p1 (s, w2))).2
    = completed_bridge_transactions w ++ [p1.1; p2.1] ∧
    ff_order_id p1.1 = ff_order_id p2.1.
Proof.
  intros H.
  destruct (clear_flag_lets_save s d api1 sim1 w H) as (row1 & E1 & I1).
  destruct (clear_flag_lets_save s d api2 sim2 (invoke_insert row1 w) H)
    as (row2 & E2 & I2).
  exists (row1, d), (row2, d), (invoke_insert row1 w),
         (invoke_insert row2 (invoke_insert row1 w)).
  repeat split; try assumption.
  - simpl. rewrite <- app_assoc. reflexivity.
  - simpl. rewrite <- app_assoc. reflexivity.
  - simpl. congruence.
Qed.

(** [C9] When the insert returns an error or throws, the flag stays
    clear and no row is stored, so the next save of the order is let
    through by the guard and, if its insert succeeds, stores the row and
    sets the flag.  The flag is set only by an insert that succeeded. *)
Theorem failed_save_can_be_retried (out : insert_outcome)
    (p : pending_insert) (c : State * World) :
  out ≠ Inserted →
  transactionSaved c.1 = false →
  let c1 := insert_settles out p c in
  transactionSaved c1.1 = false ∧
  completed_bridge_transactions c1.2 = completed_bridge_transactions c.2 ∧
  (∀ d api sim,
     ∃ row,
       saveCompletedTransaction parseFloat nav c1.1 (Some d) api sim c1.2
       = (invoke_insert row c1.2, Some (row, d)) ∧
       let c2 :=
         insert_settles Inserted (row, d) (c1.1, invoke_insert row c1.2) in
       transactionSaved c2.1 = true ∧
       completed_bridge_transactions c2.2
       = completed_bridge_transactions c.2 ++ [row]) ∧
  (∀ out' p' c', transactionSaved c'.1 = false →
     transactionSaved (insert_settles out' p' c').1 = true →
     out' = Inserted).
Proof.
  intros Hout Hflag c1.
  assert (transactionSaved c1.1 = false) as Hflag1.
  { subst c1. rewrite flag_after_settling. destruct out; congruence. }
  assert (completed_bridge_transactions c1.2
          = completed_bridge_transactions c.2) as Htable.
  { subst c1. rewrite table_after_settling. destruct out; congruence. }
  repeat split; try assumption.
  - intros d api sim.
    destruct (clear_flag_lets_save c1.1 d api sim c1.2 Hflag1)
      as (row & E & _).
    exists row. split; [exact E|]. simpl. split; [reflexivity|].
    rewrite Htable. reflexivity.
  - intros out' p' c' Hc' H. rewrite flag_after_settling in H.
    destruct out'; congruence.
Qed.

End Saves.

Lemma failed_save_can_be_retried_witness :
  let c := (Samples.page "tok-Y", Samples.quiet) in
  transactionSaved
    (insert_settles (InsertError "refused") Samples.pending_Y c).1
  = false.
Proof.
  apply (failed_save_can_be_retried Provider.parseFloat_digits Samples.nav
           (InsertError "refused") Samples.pending_Y
           (Samples.page "tok-Y", Samples.quiet));
    [discriminate | reflexivity].
Defined.

(** [C1] The page tracks order FF-Y and nothing is saved yet.  A poll
    answers DONE and starts a save; before its insert has settled the
    user turns the simulation switch on, and the effect that watches for
    a simulated completion, which still sees the flag clear, starts a
    second save.  Both inserts are performed, and when both succeed the
    table holds two rows for the order. *)
Theorem live_and_simulated_saves_both_write :
  let pf := Provider.parseFloat_digits in
  let s0 := Samples.page "tok-Y" in
  let done_Y :=
    {| code := 0;
       data := Some {| Order.id := "FF-Y"; Order.status := "DONE";
                       Order.payload := "{}" |};
       debugInfo := None; msg := None |} in
  (* the poll's answer arrives *)
  let r1 := checkOrderStatus_resume pf Samples.nav s0 (InvokeData done_Y)
              (s0, Samples.quiet) in
  (* the switch is turned on, and the effects of the next render run *)
  let s2 := setSimulateSuccess true r1.1.1 in
  let s3 := simulation_effect s2 s2 in
  let r3 := simulated_completion_effect pf Samples.nav s3 r1.1.2 in
  transactionSaved s3 = false ∧
  ∃ pA pB,
    r1.2 = Some pA ∧ r3.2 = Some pB ∧
    insert_invocations r3.1 = [pA.1; pB.1] ∧
    let c := insert_settles Inserted pB
               (insert_settles Inserted pA (s3, r3.1)) in
    completed_bridge_transactions c.2 = [pA.1; pB.1] ∧
    ff_order_id pA.1 = "FF-Y"%string ∧ ff_order_id pB.1 = "FF-Y"%string ∧
    length (completed_bridge_transactions c.2) = 2%nat.
Proof.
  split; [reflexivity|].
  eexists _, _. repeat split.
Qed.

End CompletionRecorder.


(** ** Comparisons of numbers *)

Module Numbers.

Lemma Qltb_lt (x y : Q) : JS.Qltb x y = true ↔ (x < y)%Q.
Proof.
  unfold JS.Qltb. rewrite Qlt_alt. destruct (x ?= y)%Q; split; congruence.
Qed.

Lemma lt_trans (x y z : JS.number) :
  JS.lt x y = true → JS.lt y z = true → JS.lt x z = true.
Proof.
  destruct x, y, z; simpl; try congruence.
  rewrite !Qltb_lt. apply Qlt_trans.
Qed.

Lemma lt_irrefl (x : JS.number) : JS.lt x x = false.
Proof.
  destruct x; simpl; try reflexivity.
  apply not_true_is_false. rewrite Qltb_lt. apply Qlt_irrefl.
Qed.

(** Comparisons with NaN are all false. *)
Lemma NaN_compares_false (x : JS.number) :
  JS.lt JS.NaN x = false ∧ JS.lt x JS.NaN = false ∧
  JS.le JS.NaN x = false ∧ JS.le x JS.NaN = false.
Proof. destruct x; repeat split. Qed.

Lemma of_Z_lt (a b : Z) : JS.lt (JS.of_Z a) (JS.of_Z b) = (a <? b).
Proof.
  unfold JS.of_Z, JS.lt, JS.Qltb, Qcompare. simpl.
  rewrite !Z.mul_1_r. unfold Z.ltb. reflexivity.
Qed.

End Numbers.

(** ** The amount validator *)

Module AmountValidator.
Import Provider.

Section Validator.

Variable parseFloat : string → JS.number.

(** [C4, as the code has it] With no quote, or an empty or non-numeric
    amount, the validator reports no error and answers valid.
    Otherwise it reports the minimum exactly when the amount is below
    it; it reports the maximum exactly when the amount is above it and
    not below the minimum, which is exactly when the amount is above it
    as long as the maximum is not below the minimum; and it reports no
    error exactly when the amount is neither. *)
Theorem validateAmount_verdicts (r s : State) :
  let res := validateAmount parseFloat r s in
  let a := parseFloat (amount r) in
  ((lastPriceData r = None ∨ JS.truthy (amount r) = false
    ∨ JS.isNaN a = true) →
   res = (true, setAmountError None s)) ∧
  (∀ q, lastPriceData r = Some q →
     JS.truthy (amount r) = true →
     JS.isNaN a = false →
     let lo := parseFloat (from_min q) in
     let hi := parseFloat (from_max q) in
     (res.1 = false ∧
      amountError res.2 = Some (MinimumAmountIs lo (fromCurrency r))
      ↔ JS.lt a lo = true) ∧
     (res.1 = false ∧
      amountError res.2 = Some (MaximumAmountIs hi (fromCurrency r))
      ↔ JS.gt a hi = true ∧ JS.lt a lo = false) ∧
     (JS.lt hi lo = false →
      (res.1 = false ∧
       amountError res.2 = Some (MaximumAmountIs hi (fromCurrency r))
       ↔ JS.gt a hi = true)) ∧
     (res.1 = true ∧ amountError res.2 = None
      ↔ JS.lt a lo = false ∧ JS.gt a hi = false)).
Proof.
  intros res a. subst res a. split.
  - unfold validateAmount.
    destruct (lastPriceData r) as [q|]; [|reflexivity].
    destruct (JS.truthy (amount r)); [|reflexivity]. simpl.
    destruct (JS.isNaN (parseFloat (amount r))); [reflexivity|].
    intros [H | [H | H]]; discriminate.
  - intros q Hq Hamt Hnan lo hi. unfold validateAmount.
    rewrite Hq, Hamt, Hnan. simpl. fold lo hi.
    assert (JS.lt hi lo = false →
            JS.gt (parseFloat (amount r)) hi = true →
            JS.lt (parseFloat (amount r)) lo = false) as Hord.
    { intros Hhl Hgt. apply not_true_is_false. intros Hlt.
      unfold JS.gt in Hgt.
      rewrite (Numbers.lt_trans _ _ _ Hgt Hlt) in Hhl. discriminate. }
    destruct (JS.lt (parseFloat (amount r)) lo) eqn:Hlo;
      [| destruct (JS.gt (parseFloat (amount r)) hi) eqn:Hhi ]; simpl;
      repeat split; intros; try tauto; try congruence;
      try (destruct_and?; congruence).
    destruct_and?. specialize (Hord ltac:(assumption) ltac:(assumption)).
    congruence.
Qed.

End Validator.

Lemma validateAmount_verdicts_witness :
  let r := Samples.form "5" "addr1" (Some (Samples.quote "10" "100")) in
  let res := validateAmount parseFloat_digits r r in
  res.1 = false ∧
  amountError res.2 = Some (MinimumAmountIs (JS.of_Z 10) "USDT")
  ↔ JS.lt (JS.of_Z 5) (JS.of_Z 10) = true.
Proof.
  intros r res.
  exact (proj1 (proj2 (validateAmount_verdicts parseFloat_digits r r)
                  (Samples.quote "10" "100") eq_refl eq_refl eq_refl)).
Defined.

(** [C4, as stated, fails] A quote whose maximum (5) lies below its
    minimum (10) and the amount 7: the amount is above the maximum, yet
    the validator reports the minimum, not the maximum. *)
Lemma amount_above_maximum_reported_below_minimum :
  let pf := parseFloat_digits in
  let r := Samples.form "7" "addr1" (Some (Samples.quote "10" "5")) in
  let res := validateAmount pf r r in
  JS.gt (pf "7") (pf "5") = true ∧
  res.1 = false ∧
  amountError res.2 = Some (MinimumAmountIs (JS.of_Z 10) "USDT") ∧
  amountError res.2 ≠ Some (MaximumAmountIs (JS.of_Z 5) "USDT").
Proof. repeat split. vm_compute. discriminate. Qed.

End AmountValidator.

(** ** The order creator *)

Module OrderCreator.
Import Provider.

Section Creator.

Variable parseFloat : string → JS.number.

(** What the checks before the quote check have established when they
    pass. *)
Lemma validation_passed (r s : State) :
  (validateBridgeTransaction parseFloat r s).1 = None →
  JS.truthy (fromCurrency r) = true ∧ JS.truthy (toCurrency r) = true ∧
  JS.truthy (amount r) = true ∧
  JS.le (parseFloat (amount r)) (JS.of_Z 0) = false ∧
  JS.truthy (destinationAddress r) = true ∧
  (validateAmount parseFloat r s).1 = true.
Proof.
  unfold validateBridgeTransaction.
  destruct (JS.truthy (fromCurrency r)); simpl; [|discriminate].
  destruct (JS.truthy (toCurrency r)); simpl; [|discriminate].
  destruct (JS.truthy (amount r)); simpl; [|discriminate].
  destruct (JS.le (parseFloat (amount r)) (JS.of_Z 0)); simpl;
    [discriminate|].
  destruct (JS.truthy (destinationAddress r)); simpl; [|discriminate].
  destruct (validateAmount parseFloat r s) as [[] s1]; simpl;
    [tauto | discriminate].
Qed.

(** The catch of an [Error] makes no call. *)
Lemma catch_Error (m : message) (c : Config) :
  catch (Error m) c
  = (Failure 500 (message_or (Some m) "Failed to create bridge transaction"),
     on_world (toast "Transaction Failed") c).
Proof. reflexivity. Qed.

(** Once the inputs are valid, the calculator calls the quote service,
    once, whatever the service answers. *)
Lemma calculateReceiveAmount_calls (r : State) out now (c : Config) :
  JS.truthy (fromCurrency r) = true → JS.truthy (toCurrency r) = true →
  JS.truthy (amount r) = true →
  JS.le (parseFloat (amount r)) (JS.of_Z 0) = false →
  calls (world (calculateReceiveAmount parseFloat r out now c))
  = calls (world c)
    ++ [CalculatePrice (fromCurrency r) (toCurrency r) (amount r)
          (orderType r)].
Proof.
  intros H1 H2 H3 H4. unfold calculateReceiveAmount.
  rewrite H1, H2, H3, H4. simpl. destruct out; reflexivity.
Qed.

(** [C5, as the code has it] A submission whose quote is missing, or
    whose quote expired before the submission, never calls the order
    service.  When the checks that come first pass, it calls the quote
    service for a fresh quote and fails with the expired-rate message;
    when one of them fails, it fails with that check's message and calls
    no collaborator. *)
Theorem stale_quote_is_not_submitted (r : State) (now : JS.number)
    (now_ms : Z) (price : price_outcome) (order : order_outcome)
    (c : Config) :
  (lastPriceData r = None
   ∨ ∃ q, lastPriceData r = Some q ∧ JS.lt (expiresAt q) now = true) →
  let res :=
    createBridgeTransaction parseFloat r now now_ms price order c in
  let fresh_quote :=
    CalculatePrice (fromCurrency r) (toCurrency r) (amount r)
      (orderType r) in
  ((validateBridgeTransaction parseFloat r (st c)).1 = None →
   res.1 = Failure 500 expired_rate ∧
   calls (world res.2) = calls (world c) ++ [fresh_quote]) ∧
  (∀ m, (validateBridgeTransaction parseFloat r (st c)).1 = Some m →
   res.1 = Failure 500 (message_or (Some m)
                          "Failed to create bridge transaction") ∧
   calls (world res.2) = calls (world c)) ∧
  (∀ from to amt dest ot rt,
     CreateOrder from to amt dest ot rt ∈ calls (world res.2) →
     CreateOrder from to amt dest ot rt ∈ calls (world c)).
Proof.
  intros Hstale res fresh_quote.
  assert (∀ s1,
    (validateBridgeTransaction parseFloat r (st c)).1 = None →
    (validateBridgeTransaction parseFloat r (st c)).2 = s1 →
    res = catch (Error expired_rate)
            (calculateReceiveAmount parseFloat r price now_ms
               (on_state (λ _, s1) c))) as Hexpired.
  { intros s1 Hv Hs. subst res. unfold createBridgeTransaction.
    destruct (validateBridgeTransaction parseFloat r (st c)) as [t s0].
    simpl in Hv, Hs. subst t s0.
    destruct Hstale as [-> | (q & -> & ->)]; reflexivity. }
  assert (∀ m s1,
    validateBridgeTransaction parseFloat r (st c) = (Some m, s1) →
    res = catch (Error m) (on_state (λ _, s1) c)) as Hinvalid.
  { intros m s1 Hv. subst res. unfold createBridgeTransaction.
    rewrite Hv. reflexivity. }
  assert ((validateBridgeTransaction parseFloat r (st c)).1 = None →
          res.1 = Failure 500 expired_rate ∧
          calls (world res.2) = calls (world c) ++ [fresh_quote]) as Hpass.
  { intros Hv. rewrite (Hexpired _ Hv eq_refl), catch_Error. simpl.
    split; [reflexivity|].
    destruct (validation_passed r (st c) Hv) as (H1 & H2 & H3 & H4 & _).
    rewrite (calculateReceiveAmount_calls r price now_ms _ H1 H2 H3 H4).
    reflexivity. }
  assert (∀ m, (validateBridgeTransaction parseFloat r (st c)).1 = Some m →
          res.1 = Failure 500 (message_or (Some m)
                                 "Failed to create bridge transaction") ∧
          calls (world res.2) = calls (world c)) as Hfail.
  { intros m Hv.
    destruct (validateBridgeTransaction parseFloat r (st c)) as [t s1] eqn:E.
    simpl in Hv. subst t. rewrite (Hinvalid m s1 eq_refl), catch_Error.
    split; reflexivity. }
  split; [exact Hpass|]. split; [exact Hfail|].
  intros from to amt dest ot rt Hin.
  destruct (validateBridgeTransaction parseFloat r (st c)).1 as [m|] eqn:Hv.
  - destruct (Hfail m eq_refl) as [_ Hc]. rewrite Hc in Hin. exact Hin.
  - destruct (Hpass eq_refl) as [_ Hc]. rewrite Hc in Hin.
    apply elem_of_app in Hin as [Hin | Hin]; [exact Hin|].
    apply list_elem_of_singleton in Hin. discriminate.
Qed.

End Creator.

Lemma stale_quote_is_not_submitted_witness :
  let r := Samples.form "11" "addr1" None in
  let res :=
    createBridgeTransaction parseFloat_digits r (JS.of_Z 1000) 1000000
      PriceNull (OrderReturns None) (Samples.at_rest r) in
  res.1 = Failure 500 expired_rate ∧
  calls (world res.2) = [CalculatePrice "USDT" "BTC" "11" fixed].
Proof.
  intros r res.
  exact (proj1 (stale_quote_is_not_submitted parseFloat_digits r
                  (JS.of_Z 1000) 1000000 PriceNull (OrderReturns None)
                  (Samples.at_rest r) (or_introl eq_refl))
           eq_refl).
Defined.

(** [C5, as stated, fails] A submission with no quote and no destination
    address: the attempt fails on the address, before the quote is
    looked at; no fresh quote is asked for and the failure is not the
    expired-rate one. *)
Lemma missing_address_comes_before_stale_quote :
  let r := Samples.form "11" EmptyString None in
  let res :=
    createBridgeTransaction parseFloat_digits r (JS.of_Z 1000) 1000000
      PriceNull (OrderReturns None) (Samples.at_rest r) in
  lastPriceData r = None ∧
  res.1 = Failure 500 (Text "Destination address is required") ∧
  res.1 ≠ Failure 500 expired_rate ∧
  calls (world res.2) = [].
Proof. repeat split. vm_compute. discriminate. Qed.

End OrderCreator.

(** ** The quote countdown *)

Module QuoteCountdown.
Import Provider.

(** Two digits after the point. *)
Lemma two_digits (k : Z) :
  0 ≤ k < 100 → String.length (padStart 2 (pretty k)) = 2%nat.
Proof.
  intros Hk.
  assert (Forall (λ k, String.length (padStart 2 (pretty k)) = 2%nat)
            (seqZ 0 100)) as Hall by compute_done.
  rewrite Forall_forall in Hall. apply Hall. apply elem_of_seqZ. lia.
Qed.

Example format_remaining_pads :
  format_remaining 5030 = "5.03"%string ∧
  format_remaining 120000 = "120.00"%string ∧
  format_remaining 999 = "0.99"%string.
Proof. repeat split; vm_compute; reflexivity. Qed.

Lemma format_remaining_shape (x : Z) :
  0 ≤ x →
  format_remaining x
  = (pretty (x / 1000) ++ "." ++ padStart 2 (pretty (x `mod` 1000 / 10)))%string.
Proof.
  intros Hx. unfold format_remaining.
  rewrite Z.rem_mod_nonneg by lia. reflexivity.
Qed.

Lemma updateTimer_running (now expiry : Z) (c : Config) :
  quoteExpiryTimeRef (refs c) = Some expiry → expiry ≠ 0 → now < expiry →
  updateTimer now c
  = on_state (setTimeRemaining (Some (format_remaining (expiry - now)))) c.
Proof.
  intros He Hnz Hlt. unfold updateTimer. rewrite He.
  destruct (expiry =? 0) eqn:E0; [apply Z.eqb_eq in E0; lia|].
  rewrite Z.max_r by lia.
  destruct (expiry - now <=? 0) eqn:E1; [apply Z.leb_le in E1; lia|].
  reflexivity.
Qed.

Lemma updateTimer_expired (now expiry : Z) (c : Config) :
  quoteExpiryTimeRef (refs c) = Some expiry → expiry ≠ 0 → expiry ≤ now →
  updateTimer now c = clear_countdown (on_state (setTimeRemaining None) c).
Proof.
  intros He Hnz Hle. unfold updateTimer. rewrite He.
  destruct (expiry =? 0) eqn:E0; [apply Z.eqb_eq in E0; lia|].
  rewrite Z.max_l by lia. reflexivity.
Qed.

(** With no interval set, [updateTimer] touches the display only. *)
Lemma updateTimer_without_timer (now : Z) (c : Config) :
  timeRemainingTimerRef (refs c) = None →
  refs (updateTimer now c) = refs c ∧ world (updateTimer now c) = world c.
Proof.
  intros Hnone. unfold updateTimer.
  destruct (quoteExpiryTimeRef (refs c)) as [e|]; [|done].
  destruct (e =? 0); [done|].
  destruct (Z.max 0 (e - now) <=? 0); [|done].
  unfold clear_countdown. simpl. rewrite Hnone. done.
Qed.

(** Ticks before the expiry touch the display only. *)
Lemma run_ticks_running (expiry : Z) (ticks : list Z) (c : Config) :
  quoteExpiryTimeRef (refs c) = Some expiry → expiry ≠ 0 →
  Forall (λ u, u < expiry) ticks →
  refs (run_ticks ticks c) = refs c ∧ world (run_ticks ticks c) = world c.
Proof.
  intros He Hnz Hall. revert c He.
  induction Hall as [|u ticks Hu _ IH]; intros c He; [done|].
  unfold run_ticks. simpl. fold (run_ticks ticks (updateTimer u c)).
  rewrite (updateTimer_running u expiry c He Hnz Hu).
  destruct (IH (on_state
                  (setTimeRemaining (Some (format_remaining (expiry - u))))
                  c) He) as [-> ->].
  done.
Qed.

(** Timer identifiers come from [setInterval] only. *)
Lemma clear_countdown_no_timer (c : Config) :
  timeRemainingTimerRef (refs (clear_countdown c)) = None.
Proof.
  unfold clear_countdown.
  destruct (timeRemainingTimerRef (refs c)) eqn:E; simpl; done.
Qed.

Lemma handed_out_at_rest (s : State) : handed_out (Samples.at_rest s).
Proof. intros i H. discriminate H. Qed.

Lemma clear_countdown_handed_out (c : Config) :
  handed_out (clear_countdown c).
Proof. intros i H. rewrite clear_countdown_no_timer in H. discriminate. Qed.

Lemma updateTimer_handed_out (now : Z) (c : Config) :
  handed_out c → handed_out (updateTimer now c).
Proof.
  intros Hc. unfold updateTimer.
  destruct (quoteExpiryTimeRef (refs c)) as [e|]; [|exact Hc].
  destruct (e =? 0); [exact Hc|].
  destruct (Z.max 0 (e - now) <=? 0); [|exact Hc].
  apply clear_countdown_handed_out.
Qed.

Lemma countdown_effect_handed_out (r : State) (t0 t1 : Z) (c : Config) :
  handed_out (countdown_effect r t0 t1 c).
Proof.
  unfold countdown_effect.
  destruct (JS.truthy (estimatedReceiveAmount r) && negb (isCalculating r)).
  - intros i. simpl. intros [= <-]. lia.
  - intros i. simpl. rewrite clear_countdown_no_timer. discriminate.
Qed.

(** What starting a countdown leaves in the refs and among the
    timers. *)
Lemma countdown_effect_started (r : State) (t0 t1 : Z) (c : Config) :
  JS.truthy (estimatedReceiveAmount r) = true → isCalculating r = false →
  let started := countdown_effect r t0 t1 c in
  let cleared :=
    match timeRemainingTimerRef (refs c) with
    | Some prior => delete prior (intervals (world c))
    | None => intervals (world c)
    end in
  timeRemainingTimerRef (refs started) = Some (next_timer (world c)) ∧
  quoteExpiryTimeRef (refs started) = Some (t0 + 120000) ∧
  intervals (world started) = <[next_timer (world c) := 1000]> cleared.
Proof.
  intros Hest Hcalc started cleared. subst started cleared.
  unfold countdown_effect. rewrite Hest, Hcalc. simpl.
  set (c2 := on_refs _ (clear_countdown c)).
  assert (timeRemainingTimerRef (refs c2) = None) as Hnone.
  { subst c2. unfold clear_countdown.
    destruct (timeRemainingTimerRef (refs c)) eqn:E; simpl; done. }
  destruct (updateTimer_without_timer t1 c2 Hnone) as [Hr Hw].
  rewrite Hr, Hw. subst c2. unfold clear_countdown.
  destruct (timeRemainingTimerRef (refs c)) eqn:E; simpl; done.
Qed.

(** [C6] A countdown started at [t0] cancels the countdown before it
    and ticks every second.  A tick at [t] shows
    [max(0, 120000 - (t - t0))] as whole seconds, a point, and two
    digits of hundredths; when nothing remains the tick clears the
    display and stops the countdown's own interval.

    The clock reads milliseconds since the epoch ([0 ≤ t0]), the timer
    the ref holds was handed out by [setInterval] (its identifier lies
    below the next one), and the ticks before [t] came while time
    remained, since the countdown stops at its first tick without. *)
Theorem countdown_shows_remaining (r : State) (t0 t1 : Z) (c : Config)
    (ticks : list Z) (t : Z) :
  JS.truthy (estimatedReceiveAmount r) = true →
  isCalculating r = false →
  0 ≤ t0 →
  handed_out c →
  Forall (λ u, u - t0 < 120000) ticks →
  let started := countdown_effect r t0 t1 c in
  let id := next_timer (world c) in
  let remaining := Z.max 0 (120000 - (t - t0)) in
  let shown := updateTimer t (run_ticks ticks started) in
  let hundredths := padStart 2 (pretty (remaining `mod` 1000 / 10)) in
  (∀ prior, timeRemainingTimerRef (refs c) = Some prior →
            intervals (world started) !! prior = None) ∧
  timeRemainingTimerRef (refs started) = Some id ∧
  intervals (world started) !! id = Some 1000 ∧
  (0 < remaining →
   timeRemaining (st shown)
   = Some (pretty (remaining / 1000) ++ "." ++ hundredths)%string ∧
   String.length hundredths = 2%nat ∧
   intervals (world shown) !! id = Some 1000) ∧
  (remaining = 0 →
   timeRemaining (st shown) = None ∧
   timeRemainingTimerRef (refs shown) = None ∧
   intervals (world shown) !! id = None).
Proof.
  intros Hest Hcalc Ht0 Hprior Hticks started id remaining shown hundredths.
  destruct (countdown_effect_started r t0 t1 c Hest Hcalc)
    as (Hid & Hexp & Hint).
  fold started in Hid, Hexp, Hint. fold id in Hid, Hint.
  assert (t0 + 120000 ≠ 0) as Hnz by lia.
  assert (Forall (λ u, u < t0 + 120000) ticks) as Hticks'.
  { eapply Forall_impl; [exact Hticks|]. simpl. intros. lia. }
  destruct (run_ticks_running _ ticks started Hexp Hnz Hticks')
    as [Hrefs Hworld].
  set (ticked := run_ticks ticks started) in *.
  assert (quoteExpiryTimeRef (refs ticked) = Some (t0 + 120000)) as Hexp'
    by (rewrite Hrefs; exact Hexp).
  repeat split.
  - intros prior Hp. rewrite Hint, Hp.
    rewrite lookup_insert_ne by (specialize (Hprior prior Hp); lia).
    apply lookup_delete_eq.
  - exact Hid.
  - rewrite Hint. apply lookup_insert_eq.
  - subst shown.
    rewrite (updateTimer_running t _ ticked Hexp' Hnz) by lia. simpl.
    rewrite format_remaining_shape by lia.
    subst hundredths remaining.
    replace (t0 + 120000 - t) with (Z.max 0 (120000 - (t - t0))) by lia.
    reflexivity.
  - subst hundredths. apply two_digits.
    pose proof (Z.mod_pos_bound remaining 1000 ltac:(lia)) as Hm.
    split.
    + apply Z.div_pos; lia.
    + apply Z.div_lt_upper_bound; lia.
  - subst shown.
    rewrite (updateTimer_running t _ ticked Hexp' Hnz) by lia. simpl.
    rewrite Hworld, Hint. apply lookup_insert_eq.
  - subst shown.
    rewrite (updateTimer_expired t _ ticked Hexp' Hnz) by lia.
    unfold clear_countdown. simpl. rewrite Hrefs, Hid. reflexivity.
  - subst shown.
    rewrite (updateTimer_expired t _ ticked Hexp' Hnz) by lia.
    unfold clear_countdown. simpl. rewrite Hrefs, Hid. reflexivity.
  - subst shown.
    rewrite (updateTimer_expired t _ ticked Hexp' Hnz) by lia.
    unfold clear_countdown. simpl. rewrite Hrefs, Hid. simpl.
    apply lookup_delete_eq.
Qed.

Lemma countdown_shows_remaining_witness :
  let r := Samples.form "11" "addr1" (Some (Samples.quote "10" "100")) in
  let started := countdown_effect r 1000 1000 (Samples.at_rest r) in
  timeRemaining (st (updateTimer 3450 (run_ticks [2000] started)))
  = Some "117.55"%string.
Proof.
  intros r started.
  refine (proj1 (proj1 (proj2 (proj2 (proj2
    (countdown_shows_remaining r 1000 1000 (Samples.at_rest r) [2000] 3450
       eq_refl eq_refl _ _ _)))) _)).
  - lia.
  - intros prior H. discriminate H.
  - repeat constructor.
  - reflexivity.
Defined.

End QuoteCountdown.

(** ** The expired-order reconciler *)

Module ExpiredOrderReconciler.
Import Renderer.

(** *** The scheduler runs everything that is due *)

Lemma pop_None (q : list (Z * task)) : pop q = None → q = [].
Proof.
  destruct q as [|x rest]; [done|]. simpl.
  destruct (pop rest) as [[y rest']|]; [|done].
  destruct (x.1 <=? y.1); done.
Qed.

Lemma pop_weight (q rest : list (Z * task)) (e : Z * task) :
  pop q = Some (e, rest) →
  total_weight q = (weight e.2 + total_weight rest)%nat.
Proof.
  revert e rest. induction q as [|x q IH]; intros e rest; [done|]. simpl.
  destruct (pop q) as [[y rest']|] eqn:Hq.
  - specialize (IH y rest' eq_refl).
    destruct (x.1 <=? y.1); intros [= <- <-]; simpl; lia.
  - apply pop_None in Hq as ->. intros [= <- <-]. reflexivity.
Qed.

Lemma pop_earliest (q rest : list (Z * task)) (e : Z * task) :
  pop q = Some (e, rest) → ∀ x, x ∈ q → e.1 ≤ x.1.
Proof.
  revert e rest. induction q as [|y q IH]; intros e rest; [done|]. simpl.
  destruct (pop q) as [[m rest']|] eqn:Hq.
  - specialize (IH m rest' eq_refl).
    destruct (Z.leb_spec y.1 m.1); intros [= <- <-] x Hx;
      apply elem_of_cons in Hx as [-> | Hx]; try lia.
    + specialize (IH x Hx). lia.
    + apply IH. exact Hx.
  - apply pop_None in Hq as ->. intros [= <- <-] x Hx.
    apply elem_of_cons in Hx as [-> | Hx]; [lia|].
    by apply elem_of_nil in Hx.
Qed.

Lemma clearTimeouts_weight (which : task → bool) (v : View) :
  (total_weight (pending (clearTimeouts which v))
   ≤ total_weight (pending v))%nat.
Proof.
  unfold clearTimeouts. simpl.
  induction (pending v) as [|x q IH]; simpl; [lia|].
  destruct (negb (which x.2)); simpl; lia.
Qed.

Lemma clear_flag_weight (v : View) :
  (total_weight (pending (setCheckingDbForExpiredOrder false v))
   ≤ total_weight (pending v))%nat.
Proof.
  unfold setCheckingDbForExpiredOrder.
  destruct (checkingDbForExpiredOrder v); simpl; [|lia].
  apply (clearTimeouts_weight is_CheckTimeout
           (set_pending (pending v) v)).
Qed.

Lemma total_weight_app (q1 q2 : list (Z * task)) :
  total_weight (q1 ++ q2) = (total_weight q1 + total_weight q2)%nat.
Proof. induction q1 as [|x q1 IH]; simpl; [done|]. rewrite IH. lia. Qed.

(** Running a task uses up at least one unit of the weight it had. *)
Lemma exec_weight (k : task) (v : View) :
  (S (total_weight (pending (exec k v)))
   ≤ weight k + total_weight (pending v))%nat.
Proof.
  destruct k as [d b res|u b| |d|];
    [destruct res|destruct b| | |]; simpl;
    try (rewrite total_weight_app; simpl; lia);
    try (pose proof (clear_flag_weight v); lia);
    try lia.
  pose proof (clear_flag_weight (setOrderDetails (Some u) v)) as H.
  simpl in H. lia.
Qed.

(** With the fuel [run_until] gives it, [run] stops only when nothing
    that waits is due by [T]. *)
Lemma run_leaves_nothing_due (fuel : nat) (T : Z) (v : View) :
  (total_weight (pending v) < fuel)%nat →
  ∀ e, e ∈ pending (run fuel T v) → T < e.1.
Proof.
  revert v. induction fuel as [|fuel IH]; intros v Hfuel; [lia|]. simpl.
  destruct (pop (pending v)) as [[[due k] rest]|] eqn:Hpop.
  - destruct (Z.leb_spec due T) as [Hdue | Hdue].
    + apply IH.
      pose proof (pop_weight _ _ _ Hpop) as Hw. simpl in Hw.
      pose proof (exec_weight k
                    (set_now (now v `max` due) (set_pending rest v))) as He.
      simpl in He. lia.
    + simpl. intros e He.
      pose proof (pop_earliest _ _ _ Hpop e He) as Hmin. simpl in Hmin. lia.
  - apply pop_None in Hpop. simpl. rewrite Hpop. intros e He.
    by apply elem_of_nil in He.
Qed.

Lemma run_until_leaves_nothing_due (T : Z) (v : View) :
  ∀ e, e ∈ pending (run_until T v) → T < e.1.
Proof. apply run_leaves_nothing_due. lia. Qed.

(** *** The reconciling effect *)

(** The view right after a render that got past the early returns has
    observed an expired order it has not reconciled, with nothing
    waiting: the 3000 ms timeout and the database check are waiting,
    and so is the stabilisation timer if the view was not stable. *)
Lemma observe_at_rest (p : Props) (d : Order.OrderDetails) (v : View)
    (latency : Z) (res : db_outcome) :
  pending v = [] →
  reaches_handlers p v = true →
  hasCheckedExpiredOrderRef v ≠ Some (Order.orderId d) →
  initialOrderDetails p = Some d →
  checkDbForCompletedTransaction p = true →
  isExpiredOrder d = true →
  JS.truthy (Order.orderId d) = true →
  observe p latency res v
  = {| orderDetails := synced p v;
       checkingDbForExpiredOrder := true;
       loading := if stateStabilized v then initialLoading p else false;
       stateStabilized := false;
       hasCheckedExpiredOrderRef := Some (Order.orderId d);
       now := now v;
       pending := (if stateStabilized v then []
                   else [(now v + 300, Stabilize d)])
                  ++ [ (now v + 3000, CheckTimeout);
                       (now v + latency, DbResolves d true res) ];
       db_queries := db_queries v ++ [Order.orderId d] |}.
Proof.
  intros Hq Hh Href Hd Hdb Hexp Hid.
  unfold reaches_handlers in Hh.
  apply andb_prop in Hh as [Hh Hod]. apply andb_prop in Hh as [Hl He].
  apply negb_true_iff, orb_false_elim in Hl as [Hl Hc].
  apply negb_true_iff in He.
  destruct v as [od ck ld sb rf t0 q qs]. simpl in *. subst q ck ld.
  unfold observe, reconcile_effect, sync_effect, synced, reaches_handlers,
    clearTimeouts. simpl.
  rewrite Hd, Hdb, Hexp, Hid, He. simpl.
  destruct sb; simpl; repeat case_bool_decide; simpl in *;
    try reflexivity; congruence.
Qed.

Ltac order_by_due :=
  match goal with
  | |- context [Z.leb ?a ?b] => destruct (Z.leb_spec a b); try lia
  end.

Ltac play :=
  unfold run_until; cbn [total_weight foldr pending weight snd fst app];
  simpl Nat.add;
  repeat (cbn -[Z.leb Z.add Z.max]; order_by_due).

Section AtRest.

Variables (p : Props) (d : Order.OrderDetails) (v : View) (latency T : Z).
Hypothesis Hquiet : pending v = [].
Hypothesis Hreach : reaches_handlers p v = true.
Hypothesis Hnew : hasCheckedExpiredOrderRef v ≠ Some (Order.orderId d).
Hypothesis Hd : initialOrderDetails p = Some d.
Hypothesis Hdb : checkDbForCompletedTransaction p = true.
Hypothesis Hexp : isExpiredOrder d = true.
Hypothesis Hid : JS.truthy (Order.orderId d) = true.

(** With no record, or a store that fails, the view shows what the
    syncing effect leaves: the parent's order or its own copy. *)
Lemma seen_without_record (res : db_outcome) :
  res = NotFound ∨ res = DbThrows →
  orderDetails (seen_at p v latency T res)
  = (if stateStabilized v then synced p v
     else if now v + 300 <=? T then Some d else orderDetails v).
Proof.
  intros Hres. unfold seen_at.
  rewrite (observe_at_rest p d) by assumption. unfold synced.
  destruct Hres as [-> | ->]; destruct (stateStabilized v); play;
    reflexivity.
Qed.

Lemma seen_with_record (tx : DbTransaction) :
  0 ≤ latency →
  orderDetails (seen_at p v latency T (Found tx))
  = (if now v + latency + 300 <=? T then Some (updatedDetails d tx)
     else orderDetails (seen_at p v latency T NotFound)).
Proof.
  intros Hlat. rewrite (seen_without_record NotFound) by tauto.
  unfold seen_at. rewrite (observe_at_rest p d) by assumption.
  unfold synced. destruct (stateStabilized v); play; reflexivity.
Qed.

Lemma check_is_over (res : db_outcome) :
  now v + 3000 ≤ T →
  checkingDbForExpiredOrder (seen_at p v latency T res) = false.
Proof.
  intros Hbound. unfold seen_at.
  rewrite (observe_at_rest p d) by assumption.
  destruct res; destruct (stateStabilized v); play; reflexivity.
Qed.

End AtRest.

(** *** One check per order *)

Lemma flag_keeps_ref_and_queries (b : bool) (v : View) :
  hasCheckedExpiredOrderRef (setCheckingDbForExpiredOrder b v)
  = hasCheckedExpiredOrderRef v ∧
  db_queries (setCheckingDbForExpiredOrder b v) = db_queries v.
Proof.
  unfold setCheckingDbForExpiredOrder.
  destruct (checkingDbForExpiredOrder v), b; done.
Qed.

Lemma exec_keeps_ref_and_queries (k : task) (v : View) :
  hasCheckedExpiredOrderRef (exec k v) = hasCheckedExpiredOrderRef v ∧
  db_queries (exec k v) = db_queries v.
Proof.
  destruct k as [d b res|u b| |d|]; [destruct res|destruct b| | |];
    cbn -[setCheckingDbForExpiredOrder];
    rewrite ?(proj1 (flag_keeps_ref_and_queries _ _)),
            ?(proj2 (flag_keeps_ref_and_queries _ _));
    done.
Qed.

Lemma run_keeps_ref_and_queries (fuel : nat) (T : Z) (v : View) :
  hasCheckedExpiredOrderRef (run fuel T v) = hasCheckedExpiredOrderRef v ∧
  db_queries (run fuel T v) = db_queries v.
Proof.
  revert v. induction fuel as [|fuel IH]; intros v; [done|]. simpl.
  destruct (pop (pending v)) as [[[due k] rest]|]; [|done].
  destruct (due <=? T); [|done].
  destruct (IH (exec k (set_now (now v `max` due) (set_pending rest v))))
    as [-> ->].
  destruct (exec_keeps_ref_and_queries k
              (set_now (now v `max` due) (set_pending rest v))) as [-> ->].
  done.
Qed.

(** A render for the order that was reconciled last starts no check. *)
Lemma same_order_is_not_checked_again (p : Props) (latency : Z)
    (res : db_outcome) (v : View) (oid : string) :
  hasCheckedExpiredOrderRef v = Some oid →
  about oid (Observe p latency res) →
  hasCheckedExpiredOrderRef (observe p latency res v) = Some oid ∧
  db_queries (observe p latency res v) = db_queries v.
Proof.
  intros Href Hp. unfold observe, reconcile_effect. simpl in Hp.
  set (live := sync_effect p v (clearTimeouts is_Stabilize v)).
  assert (hasCheckedExpiredOrderRef live = Some oid ∧
          db_queries live = db_queries v) as [Hl Hq].
  { subst live. unfold sync_effect.
    destruct (initialOrderDetails p), (stateStabilized v);
      simpl; try case_bool_decide; simpl; done. }
  destruct (initialOrderDetails p) as [d|]; [|done].
  rewrite Hl, Hp, bool_decide_eq_true_2 by done.
  rewrite andb_false_r. simpl. done.
Qed.

Lemma replay_same_order (es : list event) (v : View) (oid : string) :
  hasCheckedExpiredOrderRef v = Some oid →
  Forall (about oid) es →
  hasCheckedExpiredOrderRef (replay es v) = Some oid ∧
  db_queries (replay es v) = db_queries v.
Proof.
  intros Href Hes. revert v Href.
  induction Hes as [|e es He _ IH]; intros v Href; [done|].
  unfold replay. simpl. fold (replay es (happen v e)).
  assert (hasCheckedExpiredOrderRef (happen v e) = Some oid ∧
          db_queries (happen v e) = db_queries v) as [Hr Hq].
  { destruct e as [p latency res|T]; simpl.
    - by apply same_order_is_not_checked_again.
    - unfold run_until.
      destruct (run_keeps_ref_and_queries
                  (S (total_weight (pending v))) T v) as [-> ->].
      done. }
  destruct (IH _ Hr) as [-> ->]. done.
Qed.

(** [C8, as the code has it] A render of the view that gets past the
    early returns, with nothing waiting, observes an expired order the
    view has not reconciled.  The view asks the store once.  If the
    store holds a completed record and answers after [latency] ms, the
    view shows the order as completed from [latency + 300] ms on, hence
    by the 3000 ms bound when the store answers within 2700 ms; before
    that it shows what it shows when there is no record.  If the store
    holds no record, or fails, the view shows the order its parent
    passed or its own copy, never a completed one of the store's.  In
    every case the check is over at 3000 ms, and whatever renders follow
    for the same order id, and however long the view lives, no second
    check is started. *)
Theorem reconciliation_of_expired_order (p : Props)
    (d : Order.OrderDetails) (v : View) (tx : DbTransaction)
    (latency T : Z) :
  pending v = [] →
  reaches_handlers p v = true →
  hasCheckedExpiredOrderRef v ≠ Some (Order.orderId d) →
  initialOrderDetails p = Some d →
  checkDbForCompletedTransaction p = true →
  isExpiredOrder d = true →
  JS.truthy (Order.orderId d) = true →
  0 ≤ latency →
  let seen := seen_at p v latency T in
  orderDetails (seen (Found tx))
  = (if now v + latency + 300 <=? T then Some (updatedDetails d tx)
     else orderDetails (seen NotFound)) ∧
  (latency ≤ 2700 → now v + 3000 ≤ T →
   Order.currentStatus <$> orderDetails (seen (Found tx))
   = Some "completed"%string) ∧
  (orderDetails (seen NotFound) = Some d
   ∨ orderDetails (seen NotFound) = orderDetails v) ∧
  orderDetails (seen DbThrows) = orderDetails (seen NotFound) ∧
  (∀ res, now v + 3000 ≤ T → checkingDbForExpiredOrder (seen res) = false) ∧
  (∀ res es, Forall (about (Order.orderId d)) es →
     db_queries (replay es (seen res))
     = db_queries v ++ [Order.orderId d]).
Proof.
  intros Hquiet Hreach Hnew Hd Hdb Hexp Hid Hlat seen.
  pose proof (seen_with_record p d v latency T Hquiet Hreach Hnew Hd Hdb
                Hexp Hid tx Hlat) as Hfound.
  pose proof (seen_without_record p d v latency T Hquiet Hreach Hnew Hd Hdb
                Hexp Hid) as Hnone.
  split; [exact Hfound|]. split.
  { intros Hfast Hbound. subst seen. rewrite Hfound.
    destruct (Z.leb_spec (now v + latency + 300) T); [reflexivity | lia]. }
  split.
  { subst seen. rewrite (Hnone NotFound) by tauto. unfold synced. rewrite Hd.
    destruct (stateStabilized v); simpl.
    - case_bool_decide; simpl; tauto.
    - destruct (now v + 300 <=? T); tauto. }
  split.
  { subst seen. rewrite (Hnone NotFound), (Hnone DbThrows) by tauto.
    reflexivity. }
  split.
  { intros res Hbound.
    by apply (check_is_over p d v latency T Hquiet Hreach Hnew Hd Hdb Hexp
                Hid res). }
  intros res es Hes.
  assert (hasCheckedExpiredOrderRef (seen res) = Some (Order.orderId d) ∧
          db_queries (seen res) = db_queries v ++ [Order.orderId d])
    as [Href Hq].
  { subst seen. unfold seen_at, run_until.
    destruct (run_keeps_ref_and_queries
                (S (total_weight (pending (observe p latency res v))))
                T (observe p latency res v)) as [-> ->].
    rewrite (observe_at_rest p d) by assumption. done. }
  destruct (replay_same_order es (seen res) _ Href Hes) as [_ ->].
  exact Hq.
Qed.

Lemma reconciliation_of_expired_order_witness :
  let d := Samples.expired_order "A" in
  Order.currentStatus
    <$> orderDetails (seen_at (Samples.props d) (mount (Samples.props d) 0)
                        500 3000 (Found (Samples.record_of "A")))
  = Some "completed"%string.
Proof.
  intros d.
  refine (proj1 (proj2
    (reconciliation_of_expired_order (Samples.props d) d
       (mount (Samples.props d) 0) (Samples.record_of "A") 500 3000
       eq_refl eq_refl _ eq_refl eq_refl eq_refl eq_refl _)) _ _);
    [discriminate | lia | lia | simpl; lia].
Defined.

(** [C8, as stated, fails] The store holds a completed record for order
    A but answers after 5000 ms: at the 3000 ms bound the view still
    shows the order as expired.  And a view that has reconciled order A,
    then order B, reconciles order A a second time when it is rendered
    for A again. *)
Lemma slow_store_and_revisited_order :
  let A := Samples.expired_order "A" in
  let B := Samples.expired_order "B" in
  Order.currentStatus
    <$> orderDetails (seen_at (Samples.props A) (mount (Samples.props A) 0)
                        5000 3000 (Found (Samples.record_of "A")))
  = Some "expired"%string ∧
  db_queries
    (replay [ Wait 1000; Observe (Samples.props B) 100 NotFound; Wait 2000;
              Observe (Samples.props A) 100 NotFound ]
       (observe (Samples.props A) 100 NotFound (mount (Samples.props A) 0)))
  = ["A"; "B"; "A"]%string.
Proof. split; vm_compute; reflexivity. Qed.

(** The handler that applies a found record is declared after the
    component's early returns.  A view that was still loading when the
    expired order arrived creates the check's callback in a render that
    returned early, so the call of the handler throws and the record
    that was found is dropped. *)
Lemma record_found_while_loading_is_dropped :
  let A := Samples.expired_order "A" in
  let loading_props :=
    {| initialLoading := true; error := None; initialOrderDetails := None;
       checkDbForCompletedTransaction := true |} in
  let v0 := observe loading_props 0 NotFound (mount loading_props 0) in
  let v1 := observe (Samples.props A) 500 (Found (Samples.record_of "A"))
              (run_until 1000 v0) in
  db_queries v1 = ["A"]%string ∧
  Order.currentStatus <$> orderDetails (run_until 10000 v1)
  = Some "expired"%string.
Proof. split; vm_compute; reflexivity. Qed.

End ExpiredOrderReconciler.

(** ** The quote calculator *)

Module QuoteCalculator.
Import Provider Conditions.

Section Calculator.

Variable parseFloat : string → JS.number.

Lemma calculateReceiveAmount_skips (r : State) out now (c : Config) :
  inputs_given parseFloat r = false →
  calculateReceiveAmount parseFloat r out now c
  = on_state (setLastPriceData None)
      (on_state (setEstimatedReceiveAmount EmptyString) c).
Proof.
  unfold inputs_given, calculateReceiveAmount. intros H.
  destruct (JS.truthy (fromCurrency r)), (JS.truthy (toCurrency r)),
    (JS.truthy (amount r)),
    (JS.le (parseFloat (amount r)) (JS.of_Z 0)); simpl in *;
    try reflexivity; discriminate.
Qed.

Lemma calculateReceiveAmount_runs (r : State) :
  inputs_given parseFloat r = true →
  JS.truthy (fromCurrency r) = true ∧ JS.truthy (toCurrency r) = true ∧
  JS.truthy (amount r) = true ∧
  JS.le (parseFloat (amount r)) (JS.of_Z 0) = false.
Proof.
  unfold inputs_given.
  destruct (JS.truthy (fromCurrency r)), (JS.truthy (toCurrency r)),
    (JS.truthy (amount r)),
    (JS.le (parseFloat (amount r)) (JS.of_Z 0)); simpl; intros;
    try discriminate; done.
Qed.

(** [X1] With a currency or the amount missing, or an amount that is zero or
    negative, the calculator calls nothing, forgets the quote and the
    estimate, and leaves the busy flag as it is.  Otherwise it calls the
    quote service once and, whatever the service does, ends with the
    busy flag clear; it keeps a quote exactly when the service answered
    with one, and shows "0" as the estimate when it did not. *)
Theorem calculation_ends_idle (r : State) (out : price_outcome) (now : Z)
    (c : Config) :
  let c' := calculateReceiveAmount parseFloat r out now c in
  if inputs_given parseFloat r
  then
    isCalculating (st c') = false ∧
    calls (world c')
    = calls (world c)
      ++ [CalculatePrice (fromCurrency r) (toCurrency r) (amount r)
            (orderType r)] ∧
    lastPriceData (st c')
    = match out with PriceData p => Some p | _ => None end ∧
    estimatedReceiveAmount (st c')
    = match out with PriceData p => to_amount p | _ => "0"%string end
  else
    isCalculating (st c') = isCalculating (st c) ∧
    calls (world c') = calls (world c) ∧
    lastPriceData (st c') = None ∧
    estimatedReceiveAmount (st c') = EmptyString.
Proof.
  intros c'. subst c'. destruct (inputs_given parseFloat r) eqn:Hin.
  - destruct (calculateReceiveAmount_runs r Hin)
      as (H1 & H2 & H3 & H4).
    unfold calculateReceiveAmount. rewrite H1, H2, H3, H4. simpl.
    destruct out as [p| |m]; simpl; repeat split.
    all: destruct (validateAmount parseFloat r _) as [ok s'] eqn:E;
      unfold validateAmount in E;
      repeat match type of E with
             | context [match ?x with _ => _ end] => destruct x
             end; injection E as <- <-; reflexivity.
  - rewrite (calculateReceiveAmount_skips r out now c Hin). done.
Qed.

(** [X2] The countdown after a calculation.  The effect that follows a
    calculation which called the service finds an estimate, even the
    "0" of a failed one, and no busy flag: it starts a countdown.  After
    a calculation that skipped the call it finds no estimate: it clears
    the display and sets no timer. *)
Theorem countdown_after_calculation (r : State) (out : price_outcome)
    (now t0 t1 : Z) (c : Config) :
  let c' := calculateReceiveAmount parseFloat r out now c in
  let started := countdown_effect (st c') t0 t1 c' in
  (match out with PriceData p => JS.truthy (to_amount p) | _ => true end
   = true →
   if inputs_given parseFloat r
   then
     timeRemainingTimerRef (refs started) = Some (next_timer (world c)) ∧
     quoteExpiryTimeRef (refs started) = Some (t0 + 120000) ∧
     intervals (world started) !! next_timer (world c) = Some 1000
   else
     timeRemainingTimerRef (refs started) = None ∧
     timeRemaining (st started) = None ∧
     next_timer (world started) = next_timer (world c)).
Proof.
  intros c' started Hest.
  pose proof (calculation_ends_idle r out now c) as Hc. fold c' in Hc.
  destruct (inputs_given parseFloat r) eqn:Hin.
  - destruct Hc as (Hidle & Hcalls & Hq & He).
    assert (JS.truthy (estimatedReceiveAmount (st c')) = true) as Ht.
    { rewrite He. destruct out; done. }
    destruct (QuoteCountdown.countdown_effect_started (st c') t0 t1 c'
                Ht Hidle) as (Hid & Hexp & Hint).
    fold started in Hid, Hexp, Hint.
    assert (next_timer (world c') = next_timer (world c)) as Hn.
    { subst c'. destruct (calculateReceiveAmount_runs r Hin)
        as (H1 & H2 & H3 & H4).
      unfold calculateReceiveAmount. rewrite H1, H2, H3, H4. simpl.
      destruct out; reflexivity. }
    rewrite <- Hn. repeat split; try assumption.
    rewrite Hint. apply lookup_insert_eq.
  - destruct Hc as (_ & _ & _ & He).
    subst started. unfold countdown_effect. rewrite He. simpl.
    rewrite QuoteCountdown.clear_countdown_no_timer.
    repeat split.
    subst c'. rewrite (calculateReceiveAmount_skips r out now c Hin).
    unfold clear_countdown. simpl.
    destruct (timeRemainingTimerRef (refs c)); reflexivity.
Qed.

End Calculator.

Lemma countdown_after_calculation_witness :
  let r := Samples.form "11" "addr1" None in
  let c' := calculateReceiveAmount parseFloat_digits r PriceNull 1000
              (Samples.at_rest r) in
  timeRemainingTimerRef (refs (countdown_effect (st c') 1000 1000 c'))
  = Some 1%nat.
Proof.
  intros r c'.
  exact (proj1 (countdown_after_calculation parseFloat_digits r PriceNull
                  1000 1000 1000 (Samples.at_rest r) eq_refl)).
Defined.

End QuoteCalculator.

(** ** Submitting an order with a quote that is still valid *)

Module OrderSubmission.
Import Provider Conditions.

Section Submission.

Variable parseFloat : string → JS.number.

Lemma createBridgeTransaction_submits (r : State) (now : JS.number)
    (now_ms : Z) price order (c : Config) (q : PriceResponse) :
  (validateBridgeTransaction parseFloat r (st c)).1 = None →
  lastPriceData r = Some q →
  JS.lt (expiresAt q) now = false →
  createBridgeTransaction parseFloat r now now_ms price order c
  = submit r q order
      (on_state (λ _, (validateBridgeTransaction parseFloat r (st c)).2) c).
Proof.
  intros Hv Hq Hfresh. unfold createBridgeTransaction.
  destruct (validateBridgeTransaction parseFloat r (st c)) as [t s1].
  simpl in Hv. subst t. rewrite Hq, Hfresh. reflexivity.
Qed.

Lemma startStatusChecking_world (c : Config) :
  let c' := startStatusChecking c in
  calls (world c') = calls (world c) ∧
  localStorage (world c') = localStorage (world c) ∧
  toasts (world c') = toasts (world c) ∧
  st c' = st c.
Proof.
  unfold startStatusChecking.
  destruct (statusCheckTimerRef (refs c)); simpl; done.
Qed.

Lemma startStatusChecking_timer (c : Config) :
  let c' := startStatusChecking c in
  statusCheckTimerRef (refs c') = Some (next_timer (world c)) ∧
  intervals (world c') !! next_timer (world c) = Some 10000 ∧
  (∀ i, statusCheckTimerRef (refs c) = Some i →
        i ≠ next_timer (world c) → intervals (world c') !! i = None) ∧
  timeRemainingTimerRef (refs c') = timeRemainingTimerRef (refs c).
Proof.
  unfold startStatusChecking.
  destruct (statusCheckTimerRef (refs c)) as [j|] eqn:E; simpl.
  - repeat split; [apply lookup_insert_eq|].
    intros i [= ->] Hne. rewrite lookup_insert_ne by congruence.
    apply lookup_delete_eq.
  - repeat split; [apply lookup_insert_eq|]. intros i [=].
Qed.

Lemma submit_calls (r : State) (q : PriceResponse) order (c : Config) :
  calls (world (submit r q order c).2)
  = calls (world c) ++ [order_call r q].
Proof.
  unfold submit, order_call.
  destruct order as [[res|]|[m|k m]]; cbn -[startStatusChecking];
    try reflexivity.
  - destruct (code res) as [[|k|k]|], (data res) as [d|];
      cbn -[startStatusChecking]; try reflexivity;
      try (destruct (JS.present (msg res)); reflexivity).
    destruct (expiresAt_iso (time_expiration d)); [|reflexivity].
    cbn [fst snd].
    match goal with
    | |- context [startStatusChecking ?x] =>
        destruct (startStatusChecking_world x) as (-> & _)
    end. reflexivity.
  - destruct (k =? 0); reflexivity.
Qed.

Lemma expiresAt_iso_in_range (expiration : option Z) :
  expiresAt_iso expiration
  = if date_in_range expiration
    then Some match expiration with
              | Some e => if e =? 0 then None else Some (e * 1000)
              | None => None
              end
    else None.
Proof.
  unfold expiresAt_iso, date_in_range.
  destruct expiration as [e|]; [|reflexivity].
  destruct (Z.eqb_spec e 0) as [-> | Hne]; [reflexivity|].
  destruct (Z.abs (e * 1000) <=? MAX_TIME_VALUE); reflexivity.
Qed.

(** [X3] An amount that is not a number is submitted.  With both
    currencies, a destination address and a quote that has not expired,
    an amount that is not empty and that [parseFloat] reads as NaN
    fails none of the checks: the order service is called with that
    amount. *)
Theorem unparsable_amount_is_submitted (r : State) (now : JS.number)
    (now_ms : Z) (price : price_outcome) (order : order_outcome)
    (c : Config) (q : PriceResponse) :
  JS.truthy (fromCurrency r) = true →
  JS.truthy (toCurrency r) = true →
  JS.truthy (amount r) = true →
  JS.truthy (destinationAddress r) = true →
  JS.isNaN (parseFloat (amount r)) = true →
  lastPriceData r = Some q →
  JS.lt (expiresAt q) now = false →
  let out := createBridgeTransaction parseFloat r now now_ms price order c in
  calls (world out.2) = calls (world c) ++ [order_call r q] ∧
  amountError (st out.2) = None.
Proof.
  intros H1 H2 H3 H4 Hnan Hq Hfresh out.
  assert (validateBridgeTransaction parseFloat r (st c)
          = (None, setAmountError None (st c))) as Hv.
  { unfold validateBridgeTransaction, validateAmount.
    rewrite H1, H2, H3, H4, Hq, Hnan.
    destruct (parseFloat (amount r)); try discriminate. reflexivity. }
  subst out.
  rewrite (createBridgeTransaction_submits r now now_ms price order c q)
    by (try rewrite Hv; done).
  rewrite submit_calls, Hv. split; [reflexivity|].
  unfold submit.
  destruct order as [[res|]|[m|k m]]; cbn -[startStatusChecking];
    try reflexivity.
  - destruct (code res) as [[|k|k]|], (data res) as [d|];
      cbn -[startStatusChecking]; try reflexivity;
      try (destruct (JS.present (msg res)); reflexivity).
    destruct (expiresAt_iso (time_expiration d)); [|reflexivity].
    cbn [fst snd].
    match goal with
    | |- context [startStatusChecking ?x] =>
        destruct (startStatusChecking_world x) as (_ & _ & _ & ->)
    end. reflexivity.
  - destruct (k =? 0); reflexivity.
Qed.

(** [X4] An accepted order.  When the checks pass, the quote has not
    expired and the order service answers with code 0 and an order, the
    provider has called the service once.  If the order's expiry is
    missing, 0, or a time a date can hold, the provider returns the
    answer as it came, keeps the order's id, token and status with the
    form's values and the expiry in local storage, and starts the one
    status timer, of 10 seconds, in place of any earlier one; it shows
    no toast.  If the expiry is out of the range of dates, formatting it
    throws: the provider reports a failure with code 500 and a toast,
    keeps nothing in local storage and starts no timer, although the
    service has accepted the order. *)
Theorem accepted_order_is_stored_and_watched (r : State)
    (now : JS.number) (now_ms : Z) (price : price_outcome) (c : Config)
    (q : PriceResponse) (res : OrderResponse) (d : OrderData) :
  (validateBridgeTransaction parseFloat r (st c)).1 = None →
  lastPriceData r = Some q →
  JS.lt (expiresAt q) now = false →
  code res = Some 0 →
  data res = Some d →
  let out :=
    createBridgeTransaction parseFloat r now now_ms price
      (OrderReturns (Some res)) c in
  calls (world out.2) = calls (world c) ++ [order_call r q] ∧
  if date_in_range (time_expiration d)
  then
    out.1 = Returned res ∧
    (∃ t, localStorage (world out.2) = Some t ∧
          stored_id t = order_id d ∧
          stored_orderToken t = order_token d ∧
          stored_status t = order_status d ∧
          stored_fromCurrency t = fromCurrency r ∧
          stored_toCurrency t = toCurrency r ∧
          stored_amount t = amount r ∧
          stored_destinationAddress t = destinationAddress r ∧
          stored_receiveAmount t = estimatedReceiveAmount r ∧
          stored_expiresAt t
          = match time_expiration d with
            | Some e => if e =? 0 then None else Some (e * 1000)
            | None => None
            end) ∧
    statusCheckTimerRef (refs out.2) = Some (next_timer (world c)) ∧
    intervals (world out.2) !! next_timer (world c) = Some 10000 ∧
    (∀ i, statusCheckTimerRef (refs c) = Some i →
          i ≠ next_timer (world c) → intervals (world out.2) !! i = None) ∧
    toasts (world out.2) = toasts (world c)
  else
    out.1 = Failure 500 invalid_time_value ∧
    localStorage (world out.2) = localStorage (world c) ∧
    intervals (world out.2) = intervals (world c) ∧
    refs out.2 = refs c ∧
    toasts (world out.2) = toasts (world c) ++ ["Transaction Failed"%string].
Proof.
  intros Hv Hq Hfresh Hcode Hdata out. subst out.
  rewrite (createBridgeTransaction_submits r now now_ms price _ c q)
    by assumption.
  split; [rewrite submit_calls; reflexivity|].
  unfold submit. rewrite Hcode, Hdata.
  rewrite (expiresAt_iso_in_range (time_expiration d)).
  destruct (date_in_range (time_expiration d)); [|done].
  cbn [fst snd].
  match goal with
  | |- context [startStatusChecking ?x] =>
      destruct (startStatusChecking_world x) as (_ & Hs & Ht & _);
      destruct (startStatusChecking_timer x) as (Hid & Hint & Hold & _)
  end.
  rewrite Hs, Ht. cbn in Hid, Hint, Hold.
  split; [reflexivity|].
  split; [eexists; split; [reflexivity|]; repeat split|].
  split; [exact Hid|]. split; [exact Hint|]. split; [exact Hold|].
  reflexivity.
Qed.

(** [X5] An order that is not accepted.  When the checks pass and the quote
    has not expired but the order service does not answer with code 0
    and an order, the provider has called the service once, keeps
    nothing in local storage and starts no timer.  A decline that
    carries a code other than 0 and a message is returned as it came,
    and so is a thrown object with a code other than 0; neither shows a
    toast. *)
Theorem refused_order_leaves_no_trace (r : State) (now : JS.number)
    (now_ms : Z) (price : price_outcome) (order : order_outcome)
    (c : Config) (q : PriceResponse) :
  (validateBridgeTransaction parseFloat r (st c)).1 = None →
  lastPriceData r = Some q →
  JS.lt (expiresAt q) now = false →
  order_accepted order = None →
  let out := createBridgeTransaction parseFloat r now now_ms price order c in
  calls (world out.2) = calls (world c) ++ [order_call r q] ∧
  localStorage (world out.2) = localStorage (world c) ∧
  intervals (world out.2) = intervals (world c) ∧
  next_timer (world out.2) = next_timer (world c) ∧
  refs out.2 = refs c ∧
  (∀ res k, order = OrderReturns (Some res) → code res = Some k →
            k ≠ 0 → JS.present (msg res) = true →
            out.1 = Returned res ∧
            toasts (world out.2) = toasts (world c)) ∧
  (∀ k m, order = OrderThrows (ApiErrorObject k m) → k ≠ 0 →
          out.1 = Rethrown k m ∧
          toasts (world out.2) = toasts (world c)) ∧
  (∀ res, out.1 = Returned res → order = OrderReturns (Some res)).
Proof.
  intros Hv Hq Hfresh Hno out. subst out.
  rewrite (createBridgeTransaction_submits r now now_ms price _ c q)
    by assumption.
  split; [rewrite submit_calls; reflexivity|].
  unfold submit.
  destruct order as [[res|]|[m|k m]]; cbn [order_accepted] in Hno.
  - destruct (code res) as [[|k|k]|] eqn:Hc, (data res) as [d|] eqn:Hd;
      try discriminate; cbn -[startStatusChecking];
      try (destruct (JS.present (msg res)) eqn:Hm;
           cbn -[startStatusChecking]);
      repeat match goal with |- _ ∧ _ => split end; try reflexivity;
      intros; simplify_eq; try done; congruence.
  - cbn. repeat match goal with |- _ ∧ _ => split end; try reflexivity;
      intros; simplify_eq.
  - cbn. repeat match goal with |- _ ∧ _ => split end; try reflexivity;
      intros; simplify_eq.
  - cbn. destruct (k =? 0) eqn:Hk; cbn;
      repeat match goal with |- _ ∧ _ => split end; try reflexivity;
      intros; simplify_eq; try done.
    apply Z.eqb_eq in Hk. lia.
Qed.

End Submission.

Lemma unparsable_amount_is_submitted_witness :
  let r := Samples.form "abc" "addr1" (Some (Samples.quote "10" "100")) in
  calls (world (createBridgeTransaction parseFloat_digits r (JS.of_Z 1000)
                  1000000 PriceNull (OrderReturns None)
                  (Samples.at_rest r)).2)
  = [CreateOrder "USDT" "BTC" "abc" "addr1" fixed "0.000016"].
Proof.
  intros r.
  exact (proj1 (unparsable_amount_is_submitted parseFloat_digits r
                  (JS.of_Z 1000) 1000000 PriceNull (OrderReturns None)
                  (Samples.at_rest r) (Samples.quote "10" "100")
                  eq_refl eq_refl eq_refl eq_refl eq_refl eq_refl eq_refl)).
Defined.

Lemma accepted_order_is_stored_and_watched_witness :
  let r := Samples.form "11" "addr1" (Some (Samples.quote "10" "100")) in
  let d := {| order_id := "FF-Y"; order_token := "tok-Y";
              order_status := "NEW"; from_address := Some "dep1";
              from_tag := None; from_tagName := None;
              from_addressAlt := None; time_expiration := Some 3000 |} in
  let res := {| code := Some 0; data := Some d; msg := None;
                debugInfo := None |} in
  (createBridgeTransaction parseFloat_digits r (JS.of_Z 1000) 1000000
     PriceNull (OrderReturns (Some res)) (Samples.at_rest r)).1
  = Returned res.
Proof.
  intros r d res.
  exact (proj1 (proj2
    (accepted_order_is_stored_and_watched parseFloat_digits r
       (JS.of_Z 1000) 1000000 PriceNull (Samples.at_rest r)
       (Samples.quote "10" "100") res d
       eq_refl eq_refl eq_refl eq_refl eq_refl))).
Defined.

Lemma refused_order_leaves_no_trace_witness :
  let r := Samples.form "11" "addr1" (Some (Samples.quote "10" "100")) in
  let res := {| code := Some 301; data := None;
                msg := Some "Invalid address"; debugInfo := None |} in
  let out :=
    createBridgeTransaction parseFloat_digits r (JS.of_Z 1000) 1000000
      PriceNull (OrderReturns (Some res)) (Samples.at_rest r) in
  localStorage (world out.2) = None.
Proof.
  intros r res out.
  exact (proj1 (proj2 (refused_order_leaves_no_trace parseFloat_digits r
                         (JS.of_Z 1000) 1000000 PriceNull
                         (OrderReturns (Some res)) (Samples.at_rest r)
                         (Samples.quote "10" "100")
                         eq_refl eq_refl eq_refl eq_refl))).
Defined.

End OrderSubmission.

(** ** The provider's timers *)

Module ProviderTimers.
Import Provider Conditions.

Lemma status_tick_without_timer (d : option string) (c : Config) :
  statusCheckTimerRef (refs c) = None → StatusTimer.status_tick d c = c.
Proof.
  intros H. unfold StatusTimer.status_tick, StatusTimer.clear_status_timer.
  rewrite H. destruct d as [s|]; [|reflexivity].
  destruct (bool_decide _); reflexivity.
Qed.

Lemma status_ticks_without_timer (answers : list (option string))
    (c : Config) :
  statusCheckTimerRef (refs c) = None → status_ticks answers c = c.
Proof.
  revert c. induction answers as [|d answers IH]; intros c H; [done|].
  unfold status_ticks in *. simpl.
  rewrite (status_tick_without_timer d c H). apply IH, H.
Qed.

Lemma status_ticks_with_timer (answers : list (option string))
    (c : Config) (i : nat) :
  statusCheckTimerRef (refs c) = Some i →
  let c' := status_ticks answers c in
  (if existsb stops answers
   then statusCheckTimerRef (refs c') = None ∧
        intervals (world c') = delete i (intervals (world c))
   else c' = c) ∧
  timeRemainingTimerRef (refs c') = timeRemainingTimerRef (refs c).
Proof.
  revert c. induction answers as [|d answers IH]; intros c H; [done|].
  unfold status_ticks in *. cbn [foldl existsb].
  destruct (stops d) eqn:Hd; cbn [orb].
  - assert (StatusTimer.status_tick d c
            = on_refs (set_statusCheckTimerRef None)
                (on_world (clearInterval i) c)) as ->.
    { unfold StatusTimer.status_tick, StatusTimer.clear_status_timer.
      destruct d as [s|]; [|discriminate]. simpl in Hd.
      rewrite Hd, H. reflexivity. }
    fold (status_ticks answers
            (on_refs (set_statusCheckTimerRef None)
               (on_world (clearInterval i) c))).
    rewrite status_ticks_without_timer by reflexivity. done.
  - assert (StatusTimer.status_tick d c = c) as ->.
    { unfold StatusTimer.status_tick. destruct d as [s|]; [|reflexivity].
      simpl in Hd. rewrite Hd. reflexivity. }
    apply IH, H.
Qed.

(** [X6] The status timer.  Starting the status check leaves exactly one
    status timer, of 10 seconds, whatever was set before.  It runs as
    long as every check answers nothing or a status that is not
    completed, failed, expired or refunded; the first answer with one of
    these stops it, and no later answer starts it again.  The quote
    countdown's timer is not touched. *)
Theorem status_timer_runs_until_terminal (c : Config)
    (answers : list (option string)) :
  let started := startStatusChecking c in
  let c' := status_ticks answers started in
  let id := next_timer (world c) in
  (if existsb stops answers
   then statusCheckTimerRef (refs c') = None ∧
        intervals (world c') !! id = None
   else statusCheckTimerRef (refs c') = Some id ∧
        intervals (world c') !! id = Some 10000) ∧
  (∀ i, statusCheckTimerRef (refs c) = Some i → i ≠ id →
        intervals (world c') !! i = None) ∧
  (∀ j, j ≠ id → statusCheckTimerRef (refs c) ≠ Some j →
        intervals (world c') !! j = intervals (world c) !! j) ∧
  timeRemainingTimerRef (refs c') = timeRemainingTimerRef (refs c).
Proof.
  intros started c' id.
  destruct (OrderSubmission.startStatusChecking_timer c)
    as (Hid & Hint & Hold & Hcd).
  fold started id in Hid, Hint, Hold, Hcd.
  assert (∀ j, j ≠ id → statusCheckTimerRef (refs c) ≠ Some j →
               intervals (world started) !! j = intervals (world c) !! j)
    as Hother.
  { intros j Hj Hp. subst started id. unfold startStatusChecking.
    destruct (statusCheckTimerRef (refs c)) as [p|]; simpl.
    - rewrite lookup_insert_ne by congruence.
      apply lookup_delete_ne. congruence.
    - apply lookup_insert_ne. congruence. }
  destruct (status_ticks_with_timer answers started id Hid) as [Hrun Hcd'].
  fold c' in Hrun, Hcd'.
  destruct (existsb stops answers).
  - destruct Hrun as [Href Hmap]. rewrite Hmap.
    split; [split; [exact Href | apply lookup_delete_eq]|].
    split; [|split].
    + intros i Hi Hne. rewrite lookup_delete_ne by congruence.
      apply Hold; assumption.
    + intros j Hj Hp. rewrite lookup_delete_ne by congruence.
      apply Hother; assumption.
    + congruence.
  - rewrite Hrun. repeat split; try assumption. 
Qed.

Lemma clear_countdown_status_ref (c : Config) :
  statusCheckTimerRef (refs (clear_countdown c))
  = statusCheckTimerRef (refs c).
Proof.
  unfold clear_countdown.
  destruct (timeRemainingTimerRef (refs c)); reflexivity.
Qed.

Lemma updateTimer_status_ref (now : Z) (c : Config) :
  statusCheckTimerRef (refs (updateTimer now c))
  = statusCheckTimerRef (refs c).
Proof.
  unfold updateTimer.
  destruct (quoteExpiryTimeRef (refs c)) as [e|]; [|reflexivity].
  destruct (e =? 0); [reflexivity|].
  destruct (Z.max 0 (e - now) <=? 0); [|reflexivity].
  rewrite clear_countdown_status_ref. reflexivity.
Qed.

Lemma countdown_ticks_keep_teardown (id : nat) (M : gmap nat Z)
    (ticks : list Z) (c : Config) :
  M !! id = None →
  (timeRemainingTimerRef (refs c) = Some id ∧
   intervals (world c) = <[id := 1000]> M)
  ∨ (timeRemainingTimerRef (refs c) = None ∧ intervals (world c) = M) →
  let c' := countdown_cleanup (run_ticks ticks c) in
  timeRemainingTimerRef (refs c') = None ∧ intervals (world c') = M ∧
  statusCheckTimerRef (refs c') = statusCheckTimerRef (refs c).
Proof.
  intros HM. revert c.
  assert (∀ c, (timeRemainingTimerRef (refs c) = Some id ∧
                intervals (world c) = <[id := 1000]> M)
               ∨ (timeRemainingTimerRef (refs c) = None ∧
                  intervals (world c) = M) →
               timeRemainingTimerRef (refs (clear_countdown c)) = None ∧
               intervals (world (clear_countdown c)) = M ∧
               statusCheckTimerRef (refs (clear_countdown c))
               = statusCheckTimerRef (refs c) ∧
               st (clear_countdown c) = st c) as Hclear.
  { intros c [[Hr Hm] | [Hr Hm]]; unfold clear_countdown; rewrite Hr;
      simpl; repeat split; try assumption.
    rewrite Hm, delete_insert_eq. apply delete_id, HM. }
  induction ticks as [|t ticks IH]; intros c Hc c'.
  - subst c'. unfold countdown_cleanup, run_ticks. simpl.
    destruct (Hclear c Hc) as (H1 & H2 & H3 & _). done.
  - subst c'. unfold run_ticks. cbn [foldl].
    fold (run_ticks ticks (updateTimer t c)).
    assert (((timeRemainingTimerRef (refs (updateTimer t c)) = Some id ∧
              intervals (world (updateTimer t c)) = <[id := 1000]> M)
             ∨ (timeRemainingTimerRef (refs (updateTimer t c)) = None ∧
                intervals (world (updateTimer t c)) = M)) ∧
            statusCheckTimerRef (refs (updateTimer t c))
            = statusCheckTimerRef (refs c)) as [Hc' Hs].
    { unfold updateTimer.
      destruct (quoteExpiryTimeRef (refs c)) as [e|]; [|done].
      destruct (e =? 0); [done|].
      destruct (Z.max 0 (e - t) <=? 0); [|done].
      destruct (Hclear (on_state (setTimeRemaining None) c) Hc)
        as (H1 & H2 & H3 & _).
      split; [right; done | exact H3]. }
    destruct (IH _ Hc') as (H1 & H2 & H3). rewrite <- Hs. done.
Qed.

(** [X7] Teardown of the quote countdown.  Let the countdown effect run,
    then any number of the interval's ticks at any times, then the
    effect's cleanup.  Afterwards the countdown holds no timer, and the
    intervals that are set are exactly those that were set before the
    effect, less the countdown's earlier one: the effect's own interval
    does not outlive it, and the status timer is not touched. *)
Theorem countdown_is_torn_down (r : State) (t0 t1 : Z) (ticks : list Z)
    (c : Config) :
  intervals (world c) !! next_timer (world c) = None →
  let c' :=
    countdown_cleanup (run_ticks ticks (countdown_effect r t0 t1 c)) in
  timeRemainingTimerRef (refs c') = None ∧
  (∀ j, intervals (world c') !! j
        = if decide (timeRemainingTimerRef (refs c) = Some j) then None
          else intervals (world c) !! j) ∧
  statusCheckTimerRef (refs c') = statusCheckTimerRef (refs c).
Proof.
  intros Hfresh c'.
  set (M := match timeRemainingTimerRef (refs c) with
            | Some i => delete i (intervals (world c))
            | None => intervals (world c)
            end).
  assert (M !! next_timer (world c) = None) as HM.
  { subst M. destruct (timeRemainingTimerRef (refs c)) as [i|];
      [|exact Hfresh].
    destruct (decide (i = next_timer (world c))) as [->|Hne].
    - apply lookup_delete_eq.
    - rewrite lookup_delete_ne by exact Hne. exact Hfresh. }
  assert (∀ j, M !! j
               = if decide (timeRemainingTimerRef (refs c) = Some j)
                 then None else intervals (world c) !! j) as Hlook.
  { intros j. subst M.
    destruct (timeRemainingTimerRef (refs c)) as [i|].
    - destruct (decide (Some i = Some j)) as [[= ->]|Hne].
      + apply lookup_delete_eq.
      + apply lookup_delete_ne. congruence.
    - destruct (decide (None = Some j)); [discriminate | reflexivity]. }
  assert (statusCheckTimerRef (refs (countdown_effect r t0 t1 c))
          = statusCheckTimerRef (refs c) ∧
          ((timeRemainingTimerRef (refs (countdown_effect r t0 t1 c))
            = Some (next_timer (world c)) ∧
            intervals (world (countdown_effect r t0 t1 c))
            = <[next_timer (world c) := 1000]> M)
           ∨ (timeRemainingTimerRef (refs (countdown_effect r t0 t1 c))
              = None ∧
              intervals (world (countdown_effect r t0 t1 c)) = M)))
    as [Hs Hc].
  { destruct (JS.truthy (estimatedReceiveAmount r) && negb (isCalculating r))
      eqn:Hgo.
    - apply andb_prop in Hgo as [He Hn]. apply negb_true_iff in Hn.
      destruct (QuoteCountdown.countdown_effect_started r t0 t1 c He Hn)
        as (Hid & _ & Hint).
      split; [|left; split; [exact Hid | exact Hint]].
      unfold countdown_effect. rewrite He, Hn.
      cbn -[updateTimer clear_countdown].
      rewrite updateTimer_status_ref. cbn -[clear_countdown].
      apply clear_countdown_status_ref.
    - unfold countdown_effect. rewrite Hgo. cbn -[clear_countdown].
      split; [apply clear_countdown_status_ref|]. right.
      split; [apply QuoteCountdown.clear_countdown_no_timer|].
      subst M. unfold clear_countdown.
      destruct (timeRemainingTimerRef (refs c)); reflexivity. }
  destruct (countdown_ticks_keep_teardown _ M ticks _ HM Hc)
    as (H1 & H2 & H3).
  fold c' in H1, H2, H3.
  split; [exact H1|]. split; [|congruence].
  intros j. rewrite H2. apply Hlook.
Qed.

Lemma countdown_is_torn_down_witness :
  let r := Samples.form "11" "addr1" None in
  timeRemainingTimerRef
    (refs (countdown_cleanup
             (run_ticks [2000; 200000]
                (countdown_effect r 1000 1000 (Samples.at_rest r)))))
  = None.
Proof.
  intros r.
  exact (proj1 (countdown_is_torn_down r 1000 1000 [2000; 200000]
                  (Samples.at_rest r) eq_refl)).
Defined.

End ProviderTimers.

(** ** The currency catalogue *)

Module CurrencyCatalogue.
Import Catalog.

Lemma includes_nonempty (s needle : string) :
  includes s needle = true → JS.truthy needle = true →
  JS.truthy s = true.
Proof. destruct s, needle; simpl; done. Qed.

(** [X8] Loading the catalogue.  The loading flag is up while the fetch is
    in flight and down after it, whatever the fetch does.  The
    catalogue becomes the fetched list, or the empty list when the fetch
    gives no list or throws; only a throw shows a toast.  The selected
    pair is either left as it was, or set as a whole: to a fetched
    currency that can be sent and whose code contains USDT, and to BTC,
    fetched as receivable. *)
Theorem refreshCurrencies_settles (out : fetch_outcome) (s : State) :
  let s' := refreshCurrencies out s in
  isLoadingCurrencies (refreshCurrencies_begin s) = true ∧
  isLoadingCurrencies s' = false ∧
  availableCurrencies s'
  = match out with Fetched cs => cs | _ => [] end ∧
  toasts s'
  = match out with FetchThrows => toasts s ++ ["Error"%string]
    | _ => toasts s end ∧
  ((fromCurrency s' = fromCurrency s ∧ toCurrency s' = toCurrency s)
   ∨ ∃ cs u b,
       out = Fetched cs ∧ u ∈ cs ∧ b ∈ cs ∧
       send u = 1 ∧ recv b = 1 ∧
       code u = Some (fromCurrency s') ∧
       includes (fromCurrency s') "USDT" = true ∧
       code b = Some "BTC"%string ∧ toCurrency s' = "BTC"%string).
Proof.
  intros s'. subst s'. unfold refreshCurrencies, refreshCurrencies_begin.
  destruct out as [cs| |]; try (repeat split; left; done).
  destruct cs as [|c0 cs]; [repeat split; left; done|].
  unfold refreshCurrencies_resume.
  destruct (usdtCurrency (c0 :: cs)) as [u|] eqn:Hu;
    [|repeat split; left; done].
  destruct (btcCurrency (c0 :: cs)) as [b|] eqn:Hb;
    [|repeat split; left; done].
  repeat split. right.
  apply find_some in Hu as [Huin Hu]. apply find_some in Hb as [Hbin Hb].
  apply andb_prop in Hu as [Hinc Hsend]. apply andb_prop in Hb as [Hbtc Hrecv].
  apply Z.eqb_eq in Hsend, Hrecv.
  unfold code_is in Hbtc. apply bool_decide_eq_true in Hbtc.
  unfold code_includes in Hinc.
  destruct (code u) as [cu|] eqn:Hcu; [|discriminate].
  pose proof (includes_nonempty cu "USDT" Hinc eq_refl) as Hne.
  exists (c0 :: cs), u, b. cbn. rewrite Hcu, Hbtc. cbn. rewrite Hne.
  repeat split; try assumption; try reflexivity.
  - apply list_elem_of_In, Huin.
  - apply list_elem_of_In, Hbin.
Qed.

End CurrencyCatalogue.

(** ** The awaiting-deposit page: answers, simulation and rows *)

Module AwaitingPage.
Import Awaiting Conditions.

Section Page.

Variable parseFloat : string → JS.number.
Variable nav : Navigator.

(** [X9] Answers that are not a completion.  A status answer that is not a
    successful DONE (an error, a rejected call, an API code other than
    0, no data, or any other status) leaves the displayed order, the
    polling interval, the attempt time and the saved flag as they are,
    reaches neither the store nor the user, and starts no save.  It sets
    the error text exactly when it is a failure. *)
Theorem answer_without_completion_changes_nothing (r : State)
    (out : invoke_outcome) (c : State * World) :
  done_answer out = false →
  let res := checkOrderStatus_resume parseFloat nav r out c in
  orderDetails res.1.1 = orderDetails c.1 ∧
  pollingInterval res.1.1 = pollingInterval c.1 ∧
  lastPollTimestamp res.1.1 = lastPollTimestamp c.1 ∧
  transactionSaved res.1.1 = transactionSaved c.1 ∧
  res.1.2 = c.2 ∧
  res.2 = None ∧
  (if failed_answer out
   then ∃ e, statusCheckError res.1.1 = Some e
   else statusCheckError res.1.1 = statusCheckError c.1).
Proof.
  intros Hnot res. subst res. unfold checkOrderStatus_resume.
  destruct out as [m|d|m]; cbn [failed_answer].
  - repeat split. eexists. reflexivity.
  - cbn [done_answer] in Hnot.
    destruct (data d) as [dd|]; destruct (debugInfo d);
      try (repeat split; eexists; reflexivity).
    all: destruct (code d =? 0); cbn [negb andb] in *;
      try (repeat split; eexists; reflexivity).
    all: rewrite Hnot; repeat split.
  - repeat split. eexists. reflexivity.
Qed.

(** [X10] A completed order keeps being polled.  After a successful DONE
    answer the page shows the completion toast, once per answer; the
    interval that follows the displayed order is 30 seconds; on a page
    with order id and token the timer stays set, and a tick 30 seconds
    or more after the last attempt asks for the status again. *)
Theorem completed_order_keeps_being_polled (r : State)
    (resp : StatusResponse) (dd : Order.RawApiResponse)
    (o : Order.OrderDetails) (c : State * World) (now : Z) (w : World) :
  data resp = Some dd → code resp = 0 → Order.status dd = "DONE"%string →
  originalOrderDetails r = Some o →
  let res := checkOrderStatus_resume parseFloat nav r (InvokeData resp) c in
  let s2 := polling_interval_effect res.1.1 res.1.1 in
  toasts res.1.2 = toasts c.2 ++ ["Transaction Complete"%string] ∧
  pollingInterval s2 = JS.Num 30000 ∧
  (∀ oid, orderId c.1 = Some oid → JS.truthy oid = true →
     JS.truthy (token c.1) = true →
     polling_timer s2 = Some (JS.Num 30000) ∧
     (30000 ≤ now - lastPollTimestamp c.1 →
      (polling_tick s2 now (s2, w)).2
      = Some {| req_id := oid; req_token := token c.1 |})).
Proof.
  intros Hd Hc Hs Ho res s2.
  assert (res = ((setOrderDetails (Some (completed o))
                    match debugInfo resp with
                    | Some i => setStatusCheckDebugInfo (Some i) c.1
                    | None => c.1
                    end,
                  (saveCompletedTransaction parseFloat nav r (Some o)
                     (Some dd) false
                     (toast "Transaction Complete" c.2)).1),
                 (saveCompletedTransaction parseFloat nav r (Some o)
                    (Some dd) false
                    (toast "Transaction Complete" c.2)).2)) as Hres.
  { subst res. unfold checkOrderStatus_resume. rewrite Hd, Hc, Hs, Ho.
    cbn [Z.eqb String.eqb Ascii.eqb Bool.eqb].
    destruct (saveCompletedTransaction _ _ _ _ _ _ _); reflexivity. }
  assert (toasts res.1.2 = toasts c.2 ++ ["Transaction Complete"%string])
    as Ht.
  { rewrite Hres. unfold saveCompletedTransaction.
    destruct (transactionSaved r); reflexivity. }
  assert (s2 = setPollingInterval (JS.Num 30000) res.1.1) as Hs2.
  { subst s2. rewrite Hres. unfold polling_interval_effect.
    destruct (debugInfo resp); reflexivity. }
  split; [exact Ht|]. split; [rewrite Hs2; reflexivity|].
  intros oid Hoid Hok Htok.
  assert (orderId s2 = Some oid ∧ token s2 = token c.1 ∧
          lastPollTimestamp s2 = lastPollTimestamp c.1 ∧
          pollingInterval s2 = JS.Num 30000) as (H1 & H2 & H3 & H4).
  { rewrite Hs2, Hres. destruct (debugInfo resp); cbn; done. }
  assert (polling_timer s2 = Some (JS.Num 30000)) as Hp.
  { unfold polling_timer. rewrite H1, H2, H4. cbn. rewrite Hok, Htok.
    reflexivity. }
  split; [exact Hp|]. intros Hlate.
  unfold polling_tick, checkOrderStatus. rewrite Hp, H1, H2, H3, H4, Hok, Htok.
  cbn. destruct (Z.ltb_spec (now - lastPollTimestamp c.1) 30000);
    [lia | reflexivity].
Qed.

(** [X11] Rows tell a simulated completion from a live one.  The effect that
    watches the simulation starts a save only with the switch on and
    the saved flag down, and the row it writes carries both simulation
    marks and the status the order had when it was loaded.  A save
    started by a status answer writes a row without the marks, built
    from the order as it was loaded.  Both rows say completed. *)
Theorem rows_tell_simulated_from_live (r : State) (out : invoke_outcome)
    (c : State * World) (w : World) :
  match (simulated_completion_effect parseFloat nav r w).2 with
  | Some p =>
      simulateSuccess r = true ∧ transactionSaved r = false ∧
      orderDetails r = Some p.2 ∧
      simulated (raw_api_response p.1) = true ∧
      simulation (client_metadata p.1) = true ∧
      original_status (raw_api_response p.1)
      = Order.raw_status (originalOrderDetails r) ∧
      status p.1 = "completed"%string
  | None => (simulated_completion_effect parseFloat nav r w).1 = w
  end ∧
  match (checkOrderStatus_resume parseFloat nav r out c).2 with
  | Some p =>
      done_answer out = true ∧ transactionSaved r = false ∧
      originalOrderDetails r = Some p.2 ∧
      simulated (raw_api_response p.1) = false ∧
      simulation (client_metadata p.1) = false ∧
      status p.1 = "completed"%string
  | None => True
  end.
Proof.
  split.
  - unfold simulated_completion_effect, saveCompletedTransaction.
    destruct (orderDetails r) as [d|]; [|reflexivity].
    destruct (simulateSuccess r); [|reflexivity].
    destruct (String.eqb _ _); [|reflexivity].
    destruct (bool_decide _); [|reflexivity].
    destruct (transactionSaved r); [reflexivity|].
    cbn. done.
  - unfold checkOrderStatus_resume, saveCompletedTransaction.
    destruct out as [m|d|m]; cbn [snd]; try exact I.
    cbn [done_answer].
    destruct (data d) as [dd|]; [|exact I].
    destruct (code d =? 0); [|exact I].
    destruct (String.eqb (Order.status dd) "DONE"); [|exact I].
    destruct (originalOrderDetails r) as [o|]; [|exact I].
    destruct (transactionSaved r); [exact I|]. cbn. done.
Qed.


End Page.

(** [X13] The first check is forced once.  With an order id, a token and no
    earlier attempt, the effect that runs when the page opens issues a
    status request whatever the polling interval and the time of the
    last attempt are, and records the attempt; the same effect of the
    next render issues nothing.  Without one of the three it issues
    nothing at all. *)
Theorem first_check_is_forced_once (r : State) (now : Z)
    (c : State * World) :
  let res := initial_check_effect r now c in
  match res.2 with
  | Some q =>
      orderId r = Some (req_id q) ∧ req_token q = token r ∧
      JS.truthy (req_id q) = true ∧ JS.truthy (token r) = true ∧
      manualStatusCheckAttempted r = false ∧
      manualStatusCheckAttempted res.1.1 = true ∧
      lastPollTimestamp res.1.1 = now ∧
      status_invocations res.1.2 = status_invocations c.2 ++ [q] ∧
      (∀ now' c', initial_check_effect res.1.1 now' c' = (c', None))
  | None =>
      res.1 = c ∧
      JS.present (orderId r) && JS.truthy (token r)
      && negb (manualStatusCheckAttempted r) = false
  end.
Proof.
  intros res. subst res. unfold initial_check_effect, checkOrderStatus.
  destruct (orderId r) as [oid|]; [|done]. cbn [JS.present].
  destruct (JS.truthy oid) eqn:Hoid; [|done].
  destruct (JS.truthy (token r)) eqn:Htok; [|done].
  destruct (manualStatusCheckAttempted r); [done|].
  cbn. rewrite !andb_false_r. cbn. repeat split; done.
Qed.

Lemma answer_without_completion_changes_nothing_witness :
  let s := Samples.page "tok-Y" in
  (checkOrderStatus_resume Provider.parseFloat_digits Samples.nav s
     (InvokeThrows "network") (s, Samples.quiet)).2 = None.
Proof.
  intros s.
  exact (proj1 (proj2 (proj2 (proj2 (proj2 (proj2
    (answer_without_completion_changes_nothing
       Provider.parseFloat_digits Samples.nav s (InvokeThrows "network")
       (s, Samples.quiet) eq_refl))))))).
Defined.

Lemma completed_order_keeps_being_polled_witness :
  let s := Samples.page "tok-Y" in
  let res :=
    checkOrderStatus_resume Provider.parseFloat_digits Samples.nav s
      (InvokeData Samples.done_for_X) (s, Samples.quiet) in
  pollingInterval (polling_interval_effect res.1.1 res.1.1)
  = JS.Num 30000.
Proof.
  intros s res.
  exact (proj1 (proj2
    (completed_order_keeps_being_polled Provider.parseFloat_digits
       Samples.nav s Samples.done_for_X
       {| Order.id := "FF-X"; Order.status := "DONE";
          Order.payload := "{}" |}
       Samples.order_Y (s, Samples.quiet) 40000 Samples.quiet
       eq_refl eq_refl eq_refl eq_refl))).
Defined.


End AwaitingPage.

(** ** The renderer: what is shown, and when *)

Module RendererViews.
Import Renderer.

Ltac by_due :=
  match goal with
  | |- context [Z.leb ?a ?b] => destruct (Z.leb_spec a b); try lia
  end.

Ltac timeline :=
  unfold run_until, observe, sync_effect, reconcile_effect, clearTimeouts;
  repeat (cbn -[Z.leb Z.add Z.max]; try by_due).

(** A view that mounts with an order that is not expired: its first
    render sets the stabilisation timer and nothing else. *)
Lemma first_render_with_order (p : Props) (d : Order.OrderDetails)
    (t0 t1 l : Z) (r : db_outcome) :
  initialOrderDetails p = Some d → isExpiredOrder d = false →
  t0 ≤ t1 → t1 < t0 + 300 →
  run_until t1 (observe p l r (mount p t0))
  = {| orderDetails := Some d; checkingDbForExpiredOrder := false;
       loading := initialLoading p; stateStabilized := false;
       hasCheckedExpiredOrderRef := None; now := t1;
       pending := [(t0 + 300, Stabilize d)]; db_queries := [] |}.
Proof.
  intros H E Ht Ht'. unfold mount, observe, sync_effect, reconcile_effect.
  rewrite H, E. timeline. replace (Z.max t0 t1) with t1 by lia. reflexivity.
Qed.

(** A view that mounts without an order: its first render copies the
    parent's loading flag and sets no timer. *)
Lemma first_render_without_order (p : Props) (t0 t1 l : Z)
    (r : db_outcome) :
  initialOrderDetails p = None → t0 ≤ t1 →
  run_until t1 (observe p l r (mount p t0))
  = {| orderDetails := None; checkingDbForExpiredOrder := false;
       loading := initialLoading p; stateStabilized := false;
       hasCheckedExpiredOrderRef := None; now := t1;
       pending := []; db_queries := [] |}.
Proof.
  intros H Ht. unfold mount, observe, sync_effect, reconcile_effect.
  rewrite H. timeline. replace (Z.max t0 t1) with t1 by lia. reflexivity.
Qed.

(** A render with an order that is not expired, of a view that is not
    stable and waits for nothing but a stabilisation timer: the timer is
    replaced, and when the new one fires the view shows the order and is
    stable.  Nothing else changes. *)
Lemma render_then_stabilise (p : Props) (d : Order.OrderDetails)
    (od : option Order.OrderDetails) (ld : bool) (ref : option string)
    (t T l : Z) (r : db_outcome) (q : list (Z * task))
    (qs : list string) :
  initialOrderDetails p = Some d → isExpiredOrder d = false →
  List.filter (λ e, negb (is_Stabilize e.2)) q = [] →
  run_until T
    (observe p l r
       {| orderDetails := od; checkingDbForExpiredOrder := false;
          loading := ld; stateStabilized := false;
          hasCheckedExpiredOrderRef := ref; now := t;
          pending := q; db_queries := qs |})
  = if t + 300 <=? T
    then {| orderDetails := Some d; checkingDbForExpiredOrder := false;
            loading := ld; stateStabilized := true;
            hasCheckedExpiredOrderRef := ref;
            now := Z.max (Z.max t (t + 300)) T;
            pending := []; db_queries := qs |}
    else {| orderDetails := od; checkingDbForExpiredOrder := false;
            loading := ld; stateStabilized := false;
            hasCheckedExpiredOrderRef := ref; now := Z.max t T;
            pending := [(t + 300, Stabilize d)]; db_queries := qs |}.
Proof.
  intros H E Hq. unfold observe, sync_effect, reconcile_effect, clearTimeouts.
  cbn -[run_until Z.add]. rewrite H, E, Hq. unfold run_until.
  cbn -[Z.leb Z.add Z.max].
  destruct (t + 300 <=? T); reflexivity.
Qed.

(** [X14] The newest order wins.  A view mounts with an order that is not
    expired, and less than 300 ms later its parent passes another one,
    not expired either.  The first order's stabilisation timer never
    fires: the view keeps showing the order it mounted with until
    300 ms after the second render, and from then on shows the second
    order and is stable.  The store is never asked. *)
Theorem newest_order_is_shown (p1 p2 : Props) (d1 d2 : Order.OrderDetails)
    (t0 t1 T l1 l2 : Z) (r1 r2 : db_outcome) :
  initialOrderDetails p1 = Some d1 → initialOrderDetails p2 = Some d2 →
  isExpiredOrder d1 = false → isExpiredOrder d2 = false →
  t0 ≤ t1 → t1 < t0 + 300 →
  let v :=
    run_until T
      (observe p2 l2 r2 (run_until t1 (observe p1 l1 r1 (mount p1 t0)))) in
  orderDetails v = (if t1 + 300 <=? T then Some d2 else Some d1) ∧
  stateStabilized v = (t1 + 300 <=? T) ∧
  db_queries v = [].
Proof.
  intros H1 H2 E1 E2 Ht Ht' v. subst v.
  rewrite (first_render_with_order p1 d1) by assumption.
  rewrite (render_then_stabilise p2 d2) by done.
  destruct (t1 + 300 <=? T); done.
Qed.

(** [X15] The loading flag waits for the next render.  A view mounts without
    an order; later its parent passes an order that is not expired.
    That render sets the stabilisation timer and returns before it
    copies the parent's loading flag: 300 ms later the view is stable
    and holds the order, with nothing left to run, but its loading flag
    is still the one it mounted with, so a view that mounted loading
    still shows the loading screen.  The flag follows the parent at the
    next render. *)
Theorem loading_flag_waits_for_the_next_render (p0 p1 : Props)
    (d : Order.OrderDetails) (t0 t1 T l0 l1 : Z) (r0 r1 : db_outcome) :
  initialOrderDetails p0 = None →
  initialOrderDetails p1 = Some d →
  isExpiredOrder d = false →
  t0 ≤ t1 → t1 + 300 ≤ T →
  let v :=
    run_until T
      (observe p1 l1 r1 (run_until t1 (observe p0 l0 r0 (mount p0 t0)))) in
  orderDetails v = Some d ∧
  stateStabilized v = true ∧
  pending v = [] ∧
  loading v = initialLoading p0 ∧
  (initialLoading p0 = true →
   Actions.screen p1 v
   = Actions.LoadingState "Verifying transaction status...") ∧
  (∀ l r, loading (observe p1 l r v) = initialLoading p1).
Proof.
  intros H0 H1 E Ht HT v. subst v.
  rewrite (first_render_without_order p0) by assumption.
  rewrite (render_then_stabilise p1 d) by done.
  destruct (Z.leb_spec (t1 + 300) T); [|lia].
  split; [reflexivity|]. split; [reflexivity|]. split; [reflexivity|].
  split; [reflexivity|]. split.
  - intros Hl. unfold Actions.screen. cbn. rewrite Hl. reflexivity.
  - intros l r. unfold observe, sync_effect, reconcile_effect.
    cbn. rewrite H1, E. cbn. try case_bool_decide; reflexivity.
Qed.

(** [X16] A render starts no check without cause.  A render without an
    order, with an order that is not expired, while a check is in
    flight, for the order reconciled last, or without the check
    function, asks the store nothing and leaves the ref and the check
    flag as they are. *)
Theorem no_check_without_cause (p : Props) (latency : Z)
    (res : db_outcome) (v : View) :
  match initialOrderDetails p with
  | Some d =>
      isExpiredOrder d = false ∨ checkingDbForExpiredOrder v = true
      ∨ hasCheckedExpiredOrderRef v = Some (Order.orderId d)
      ∨ checkDbForCompletedTransaction p = false
  | None => True
  end →
  let v' := observe p latency res v in
  db_queries v' = db_queries v ∧
  hasCheckedExpiredOrderRef v' = hasCheckedExpiredOrderRef v ∧
  checkingDbForExpiredOrder v' = checkingDbForExpiredOrder v.
Proof.
  intros Hcause v'. subst v'. unfold observe, reconcile_effect.
  set (live := sync_effect p v (clearTimeouts is_Stabilize v)).
  assert (hasCheckedExpiredOrderRef live = hasCheckedExpiredOrderRef v ∧
          db_queries live = db_queries v ∧
          checkingDbForExpiredOrder live = checkingDbForExpiredOrder v)
    as (Hr & Hq & Hc).
  { subst live. unfold sync_effect.
    destruct (initialOrderDetails p), (stateStabilized v);
      simpl; try case_bool_decide; simpl; done. }
  destruct (initialOrderDetails p) as [d|]; [|done].
  rewrite Hr.
  destruct Hcause as [H | [H | [H | H]]]; rewrite H;
    rewrite ?bool_decide_eq_true_2 by done;
    rewrite ?andb_false_r; cbn [andb negb]; rewrite ?andb_false_r.
  all: try done.
  all: repeat split; congruence.
Qed.

(** [X17] While the check is in flight.  After a render that got past the
    early returns, with nothing waiting, has observed an expired order
    it has not reconciled, the check flag is up exactly until the
    store's answer has been applied (300 ms after a found or missing
    record, at once after a failure) or 3000 ms have passed, whichever
    comes first.  While it is up the view shows the loading screen
    that says it is checking the records; once it is down the loading
    flag is down too, and the view is stable from 300 ms on. *)
Theorem check_in_flight_shows_loading (p : Props)
    (d : Order.OrderDetails) (v : View) (latency T : Z)
    (res : db_outcome) :
  pending v = [] →
  reaches_handlers p v = true →
  hasCheckedExpiredOrderRef v ≠ Some (Order.orderId d) →
  initialOrderDetails p = Some d →
  checkDbForCompletedTransaction p = true →
  isExpiredOrder d = true →
  JS.truthy (Order.orderId d) = true →
  0 ≤ latency →
  let seen := seen_at p v latency T res in
  let answered :=
    now v + latency + match res with DbThrows => 0 | _ => 300 end in
  checkingDbForExpiredOrder seen
  = negb ((now v + 3000 <=? T) || (answered <=? T)) ∧
  (checkingDbForExpiredOrder seen = true →
   Actions.screen p seen
   = Actions.LoadingState "Checking transaction records...") ∧
  (checkingDbForExpiredOrder seen = false →
   loading seen = false ∧
   (now v + 300 ≤ T → stateStabilized seen = true)).
Proof.
  intros Hquiet Hreach Hnew Hd Hdb Hexp Hid Hlat seen answered.
  assert (checkingDbForExpiredOrder seen = true →
          Actions.screen p seen
          = Actions.LoadingState "Checking transaction records...") as Hscr.
  { intros Hc. unfold Actions.screen. rewrite Hc, orb_true_r. reflexivity. }
  split; [|split; [exact Hscr|]]; subst seen answered; unfold seen_at;
    rewrite (ExpiredOrderReconciler.observe_at_rest p d) by assumption;
    destruct res; destruct (stateStabilized v);
    unfold run_until; cbn [total_weight foldr pending weight snd fst app];
    simpl Nat.add;
    repeat (cbn -[Z.leb Z.add Z.max]; by_due); try reflexivity;
    try discriminate; try (intros _; split; [reflexivity | intros; lia]);
    try (intros _; split; [reflexivity | intros; reflexivity]).
Qed.

(** The view right after a render that returned early (it was loading,
    had an error or had no order) has observed an expired order it has
    not reconciled: the check is started, by a callback that cannot
    reach the handler that applies a record. *)
Lemma observe_by_early_render (p : Props) (d : Order.OrderDetails)
    (v : View) (latency : Z) (res : db_outcome) :
  pending v = [] →
  checkingDbForExpiredOrder v = false →
  reaches_handlers p v = false →
  hasCheckedExpiredOrderRef v ≠ Some (Order.orderId d) →
  initialOrderDetails p = Some d →
  checkDbForCompletedTransaction p = true →
  isExpiredOrder d = true →
  JS.truthy (Order.orderId d) = true →
  observe p latency res v
  = {| orderDetails := synced p v;
       checkingDbForExpiredOrder := true;
       loading := if stateStabilized v then initialLoading p else loading v;
       stateStabilized := false;
       hasCheckedExpiredOrderRef := Some (Order.orderId d);
       now := now v;
       pending := (if stateStabilized v then []
                   else [(now v + 300, Stabilize d)])
                  ++ [ (now v + 3000, CheckTimeout);
                       (now v + latency, DbResolves d false res) ];
       db_queries := db_queries v ++ [Order.orderId d] |}.
Proof.
  intros Hq Hc Hh Href Hd Hdb Hexp Hid.
  destruct v as [od ck ld sb rf t0 q qs]. simpl in *. subst q ck.
  unfold observe, reconcile_effect, sync_effect, synced, clearTimeouts.
  simpl. rewrite Hd, Hdb, Hexp, Hid. simpl.
  destruct sb; simpl; repeat case_bool_decide; simpl in *;
    rewrite ?Hh; try reflexivity; congruence.
Qed.

(** [X18] A record found for a view that returned early is dropped.  A
    render that returned early (the view was loading, had an error or
    had no order) observes an expired order it has not reconciled.  The
    store is asked once, but the callback that would apply a found
    record was created before the handler was declared: whatever the
    store holds, the view shows what it shows when there is no record,
    and the check flag stays up for the full 3000 ms. *)
Theorem record_found_by_early_render_is_dropped (p : Props)
    (d : Order.OrderDetails) (v : View) (tx : DbTransaction)
    (latency T : Z) :
  pending v = [] →
  checkingDbForExpiredOrder v = false →
  reaches_handlers p v = false →
  hasCheckedExpiredOrderRef v ≠ Some (Order.orderId d) →
  initialOrderDetails p = Some d →
  checkDbForCompletedTransaction p = true →
  isExpiredOrder d = true →
  JS.truthy (Order.orderId d) = true →
  0 ≤ latency →
  let seen := seen_at p v latency T in
  db_queries (seen (Found tx)) = db_queries v ++ [Order.orderId d] ∧
  orderDetails (seen (Found tx)) = orderDetails (seen NotFound) ∧
  (orderDetails (seen (Found tx)) = Some d
   ∨ orderDetails (seen (Found tx)) = synced p v) ∧
  checkingDbForExpiredOrder (seen (Found tx)) = negb (now v + 3000 <=? T).
Proof.
  intros Hq Hc Hh Href Hd Hdb Hexp Hid Hlat seen. subst seen.
  unfold seen_at.
  rewrite !(observe_by_early_render p d) by assumption.
  destruct (stateStabilized v);
    unfold run_until; cbn [total_weight foldr pending weight snd fst app];
    simpl Nat.add;
    repeat (cbn -[Z.leb Z.add Z.max]; by_due);
    repeat split; try reflexivity; try (by left); try (by right).
Qed.

Lemma newest_order_is_shown_witness :
  let p1 := Samples.props Samples.order_Y in
  let p2 := Samples.props (Awaiting.completed Samples.order_Y) in
  orderDetails
    (run_until 1000
       (observe p2 0 NotFound
          (run_until 100 (observe p1 0 NotFound (mount p1 0)))))
  = Some (Awaiting.completed Samples.order_Y).
Proof.
  intros p1 p2.
  refine (proj1 (newest_order_is_shown p1 p2 Samples.order_Y
                   (Awaiting.completed Samples.order_Y) 0 100 1000 0 0
                   NotFound NotFound eq_refl eq_refl eq_refl eq_refl _ _));
    lia.
Defined.

Lemma loading_flag_waits_for_the_next_render_witness :
  let p0 := {| initialLoading := true; error := None;
               initialOrderDetails := None;
               checkDbForCompletedTransaction := true |} in
  let p1 := Samples.props Samples.order_Y in
  loading
    (run_until 1000
       (observe p1 0 NotFound
          (run_until 100 (observe p0 0 NotFound (mount p0 0)))))
  = true.
Proof.
  intros p0 p1.
  refine (proj1 (proj2 (proj2 (proj2
    (loading_flag_waits_for_the_next_render p0 p1 Samples.order_Y 0 100
       1000 0 0 NotFound NotFound eq_refl eq_refl eq_refl _ _)))));
    lia.
Defined.

Lemma no_check_without_cause_witness :
  let p := Samples.props Samples.order_Y in
  db_queries (observe p 0 NotFound (mount p 0)) = [].
Proof.
  intros p.
  exact (proj1 (no_check_without_cause p 0 NotFound (mount p 0)
                  (or_introl eq_refl))).
Defined.

Lemma check_in_flight_shows_loading_witness :
  let d := Samples.expired_order "A" in
  checkingDbForExpiredOrder
    (seen_at (Samples.props d) (mount (Samples.props d) 0) 500 600 NotFound)
  = true.
Proof.
  intros d.
  refine (proj1
    (check_in_flight_shows_loading (Samples.props d) d
       (mount (Samples.props d) 0) 500 600 NotFound
       eq_refl eq_refl _ eq_refl eq_refl eq_refl eq_refl _));
    [discriminate | lia].
Defined.

Lemma record_found_by_early_render_is_dropped_witness :
  let d := Samples.expired_order "A" in
  let p0 := {| initialLoading := true; error := None;
               initialOrderDetails := None;
               checkDbForCompletedTransaction := true |} in
  checkingDbForExpiredOrder
    (seen_at (Samples.props d) (mount p0 0) 500 2000
       (Found (Samples.record_of "A")))
  = true.
Proof.
  intros d p0.
  refine (proj2 (proj2 (proj2
    (record_found_by_early_render_is_dropped (Samples.props d) d
       (mount p0 0) (Samples.record_of "A") 500 2000
       eq_refl eq_refl eq_refl _ eq_refl eq_refl eq_refl eq_refl _))));
    [discriminate | lia].
Defined.

End RendererViews.

(** ** Emergency actions *)

Module EmergencyActions.
Import Actions.

(** [X19] The emergency request.  The handler invokes the emergency service
    at most once, and only for an order on display that has an exchange
    id, with a token.  Otherwise it invokes nothing and says which
    information is missing.  The request carries the exchange id, the
    token and the choice; an EXCHANGE never carries an address, and a
    REFUND carries the refund address exactly when one was given and is
    not empty. *)
Theorem emergency_request_shape (p : Props)
    (orderDetails : option Order.OrderDetails) (k : choice)
    (refundAddress : option string) (out : outcome) (w : Effects) :
  let w' := handleEmergencyAction p orderDetails k refundAddress out w in
  (invocations w' = invocations w ∧
   toasts w'
   = toasts w ++ ["Missing order information for emergency action"%string] ∧
   (orderDetails = None
    ∨ (∃ d, orderDetails = Some d ∧
            JS.present (Order.ffOrderId d) = false)
    ∨ JS.truthy (token_ p) = false))
  ∨ (∃ d q, orderDetails = Some d ∧
       invocations w' = invocations w ++ [q] ∧
       Order.ffOrderId d = Some (id q) ∧ JS.truthy (id q) = true ∧
       token q = token_ p ∧ JS.truthy (token q) = true ∧
       choice_ q = k ∧
       (k = EXCHANGE → address q = None) ∧
       (k = REFUND →
        address q = if JS.present refundAddress then refundAddress
                    else None)).
Proof.
  intros w'. subst w'. unfold handleEmergencyAction.
  destruct orderDetails as [d|]; [|left; repeat split; left; reflexivity].
  destruct (Order.ffOrderId d) as [fid|] eqn:Hfid;
    [|left; repeat split; right; left; exists d; rewrite Hfid; done].
  destruct (JS.truthy fid) eqn:Hf; cbn [andb];
    [|left; repeat split; right; left; exists d; rewrite Hfid; done].
  destruct (JS.truthy (token_ p)) eqn:Ht;
    [|left; repeat split; right; right; reflexivity].
  right. exists d, (requestBody p fid k refundAddress).
  split; [reflexivity|]. split.
  { destruct out as [m|[r|]|]; try reflexivity.
    destruct (bool_decide _); reflexivity. }
  cbn. repeat split; try assumption; intros ->; reflexivity.
Qed.

(** [X20] The outcome of an emergency action is reported once.  Whatever the
    handler is given and whatever the service does, exactly one of two
    things happens.  Either the service answered with code 0: the
    window event is dispatched, the parent's flag is raised if the
    parent passed the setter, one status check is scheduled 1000 ms
    later if the parent passed the check, and no toast is shown.  Or
    the handler shows one toast and does none of these. *)
Theorem emergency_outcome_is_reported_once (p : Props)
    (orderDetails : option Order.OrderDetails) (k : choice)
    (refundAddress : option string) (out : outcome) (w : Effects) :
  let w' := handleEmergencyAction p orderDetails k refundAddress out w in
  (∃ r, out = InvokeData (Some r) ∧ code r = Some 0 ∧
        toasts w' = toasts w ∧
        events w' = events w ++ ["emergency-action-triggered"%string] ∧
        emergencyActionTaken w'
        = setEmergencyActionTaken p || emergencyActionTaken w ∧
        scheduled_checks w'
        = scheduled_checks w ++ (if checkOrderStatus p then [1000] else []))
  ∨ ((∃ t, toasts w' = toasts w ++ [t]) ∧
     events w' = events w ∧
     emergencyActionTaken w' = emergencyActionTaken w ∧
     scheduled_checks w' = scheduled_checks w).
Proof.
  intros w'. subst w'. unfold handleEmergencyAction.
  destruct orderDetails as [d|]; [|right; repeat split; eexists; done].
  destruct (Order.ffOrderId d) as [fid|];
    [|right; repeat split; eexists; done].
  destruct (JS.truthy fid && JS.truthy (token_ p));
    [|right; repeat split; eexists; done].
  destruct out as [m|[r|]|]; try (right; repeat split; eexists; done).
  case_bool_decide as Hc; [|right; repeat split; eexists; done].
  left. exists r. cbn.
  destruct (setEmergencyActionTaken p), (checkOrderStatus p);
    rewrite ?app_nil_r; done.
Qed.

End EmergencyActions.

(** ** The completion page *)

Module CompletionPage.
Import Complete.

Lemma length_append (a b : string) :
  String.length (a ++ b) = (String.length a + String.length b)%nat.
Proof. induction a as [|x a IH]; simpl; [done|]. rewrite IH. done. Qed.

Lemma length_substring (n : nat) (s : string) :
  (n ≤ String.length s)%nat → String.length (String.substring 0 n s) = n.
Proof.
  revert s. induction n as [|n IH]; intros s Hn.
  - destruct s; reflexivity.
  - destruct s as [|x s]; simpl in *; [lia|]. rewrite IH; lia.
Qed.

Lemma substring_is_prefix (n : nat) (s : string) :
  String.prefix (String.substring 0 n s) s = true.
Proof.
  revert s. induction n as [|n IH]; intros s.
  - destruct s; reflexivity.
  - destruct s as [|x s]; simpl; [reflexivity|].
    rewrite IH. destruct (Ascii.ascii_dec x x); done.
Qed.

(** [X21] The shortened transaction id.  What the page prints for a
    transaction id is never empty and never longer than 21 characters.
    A missing or empty id prints as N/A, an id of up to 20 characters
    as it is, and a longer one as its first 18 characters followed by
    three dots. *)
Theorem truncateTxId_bounds (txId : option string) :
  let shown := truncateTxId txId in
  (1 ≤ String.length shown ≤ 21)%nat ∧
  (JS.present txId = false → shown = "N/A"%string) ∧
  (∀ t, txId = Some t → (1 ≤ String.length t ≤ 20)%nat → shown = t) ∧
  (∀ t, txId = Some t → (20 < String.length t)%nat →
     ∃ head, shown = (head ++ "...")%string ∧
             String.length head = 18%nat ∧
             String.prefix head t = true).
Proof.
  intros shown. subst shown. unfold truncateTxId.
  destruct txId as [t|]; [|repeat split; simpl; try lia; intros; done].
  destruct t as [|x t]; [repeat split; simpl; try lia; intros; try done;
                         simplify_eq; simpl in *; lia|].
  cbn [JS.truthy negb JS.present].
  destruct (Nat.leb_spec (String.length (String x t)) 20) as [Hle | Hgt].
  - repeat split; try (simpl in *; lia); try discriminate.
    + intros t' [= <-] _. reflexivity.
    + intros t' [= <-] Hlong. lia.
  - assert (String.length (String.substring 0 18 (String x t)) = 18%nat)
      as Hlen by (apply length_substring; lia).
    repeat split; try discriminate.
    + rewrite length_append, Hlen. simpl. lia.
    + rewrite length_append, Hlen. simpl. lia.
    + intros t' [= <-] Hshort. lia.
    + intros t' [= <-] _. eexists. split; [reflexivity|].
      split; [exact Hlen | apply substring_is_prefix].
Qed.

(** [X22] The fetch of the completion page settles.  Without an order id
    the page reports that none was provided and calls nothing; a fetch
    by a render that has already attempted one changes nothing.
    Otherwise the order service is called once and the loading flag
    ends down, whatever the services do.  A failure of the order
    service sets the error, shows one toast and goes no further.  An
    order that is not completed is kept, and the page navigates to the
    awaiting-deposit page for the same id without asking for the
    status.  A completed order is kept and the status service is asked
    with the order's exchange id and token; only an answer with code 0
    stores the transaction details, and no failure of the status
    service shows an error. *)
Theorem completion_fetch_settles (r : State) (order : order_outcome)
    (details : status_outcome) (c : State * World) :
  let c' := fetchOrderDetails r order details c in
  match orderId r with
  | Some oid =>
      if JS.truthy oid
      then
        if apiAttempted r then c' = c
        else
          loading c'.1 = false ∧ apiAttempted c'.1 = true ∧
          match order with
          | OrderData_ d =>
              orderDetails c'.1 = Some d ∧
              error c'.1 = error c.1 ∧ toasts c'.2 = toasts c.2 ∧
              if String.eqb (status d) "completed"
              then
                calls c'.2
                = calls c.2
                  ++ [BridgeOrder oid;
                      BridgeStatus (ff_order_id d) (ff_order_token d)] ∧
                navigations c'.2 = navigations c.2 ∧
                apiOrderData c'.1
                = match details with
                  | StatusData 0 payload => payload
                  | _ => apiOrderData c.1
                  end
              else
                calls c'.2 = calls c.2 ++ [BridgeOrder oid] ∧
                navigations c'.2
                = navigations c.2
                  ++ [("/bridge/awaiting-deposit?orderId=" ++ oid)%string] ∧
                apiOrderData c'.1 = apiOrderData c.1
          | _ =>
              (∃ e, error c'.1 = Some e) ∧
              toasts c'.2 = toasts c.2 ++ ["Error"%string] ∧
              calls c'.2 = calls c.2 ++ [BridgeOrder oid] ∧
              navigations c'.2 = navigations c.2 ∧
              apiOrderData c'.1 = apiOrderData c.1
          end
      else
        loading c'.1 = false ∧
        error c'.1 = Some "No order ID provided"%string ∧ c'.2 = c.2
  | None =>
      loading c'.1 = false ∧
      error c'.1 = Some "No order ID provided"%string ∧ c'.2 = c.2
  end.
Proof.
  intros c'. subst c'. unfold fetchOrderDetails.
  destruct (orderId r) as [oid|]; [|done].
  destruct (JS.truthy oid); cbn [negb]; [|done].
  destruct (apiAttempted r); [done|].
  destruct order as [|m|te|d|[m|]]; try (cbn; repeat split; eexists; done).
  destruct (String.eqb (status d) "completed"); cbn [negb]; [|done].
  destruct details as [| | |[|k|k] payload|]; cbn;
    rewrite <- ?app_assoc; done.
Qed.

End CompletionPage.

(** ** The amount field of the currency selector *)

Module AmountField.
Import Selector Conditions.

Lemma append_String (x : Ascii.ascii) (a t : string) :
  (String x a ++ t)%string = String x (a ++ t).
Proof. reflexivity. Qed.

Lemma append_empty (a : string) : (a ++ EmptyString)%string = a.
Proof. induction a as [|x a IH]; [done|]. rewrite append_String, IH. done. Qed.

Lemma after_digits_split (s : string) :
  ∃ a, all_digits a = true ∧ s = (a ++ after_digits s)%string.
Proof.
  induction s as [|x s (a & Ha & Hs)]; [exists EmptyString; done|].
  simpl. destruct (is_digit x) eqn:Hx.
  - exists (String x a). simpl. rewrite Hx, Ha. split; [done|].
    rewrite append_String. f_equal. exact Hs.
  - exists EmptyString. done.
Qed.

Lemma after_digits_app (a t : string) :
  all_digits a = true → after_digits (a ++ t) = after_digits t.
Proof.
  induction a as [|x a IH]; [done|]. rewrite append_String. simpl.
  intros H. apply andb_prop in H as [-> H]. apply IH, H.
Qed.

Lemma after_digits_all (a : string) :
  all_digits a = true → after_digits a = EmptyString.
Proof.
  induction a as [|x a IH]; simpl; [done|]. intros H.
  apply andb_prop in H as [-> H]. apply IH, H.
Qed.

(** [X23] What the amount field accepts.  The pattern of the amount field
    accepts exactly the strings of decimal digits with at most one
    point among them: digits, or digits, a point, digits, where each
    run of digits may be empty. *)
Theorem amount_pattern_accepts (s : string) :
  amount_pattern s = true
  ↔ ∃ a b, all_digits a = true ∧ all_digits b = true ∧
           (s = a ∨ s = (a ++ "." ++ b)%string).
Proof.
  unfold amount_pattern. split.
  - destruct (after_digits_split s) as (a & Ha & Hs).
    destruct (after_digits s) as [|x rest] eqn:Hrest.
    + intros _. exists a, EmptyString. rewrite Hs.
      split; [done|]. split; [done|]. left. apply append_empty.
    + intros H. apply andb_prop in H as [Hdot Hb].
      destruct (after_digits_split rest) as (b & Hb' & Hr).
      destruct (after_digits rest); [|discriminate].
      exists a, b. split; [done|]. split; [done|]. right.
      rewrite Hs. f_equal. unfold is_dot in Hdot. apply N.eqb_eq in Hdot.
      rewrite Hr.
      assert (x = Ascii.ascii_of_N 46) as ->.
      { rewrite <- Hdot. symmetry. apply Ascii.ascii_N_embedding. }
      rewrite append_empty. reflexivity.
  - intros (a & b & Ha & Hb & [-> | ->]).
    + rewrite after_digits_all by done. reflexivity.
    + rewrite after_digits_app by done. simpl.
      rewrite after_digits_all by done. reflexivity.
Qed.

Ltac by_members :=
  apply set_eq; intros ?;
  rewrite ?elem_of_union, ?elem_of_difference, ?elem_of_singleton,
    ?elem_of_empty;
  intuition congruence.

Lemma field_invariant (handled : bool) (es : list event) :
  let c := field_after handled es in
  timeouts c.2
  = (if isTyping c.1
     then match typingTimeout c.1 with Some t => {[t]} | None => ∅ end
     else ∅) ∧
  (isTyping c.1 = true → is_Some (typingTimeout c.1)) ∧
  Forall (λ v, amount_pattern v = true) (amount_changes c.2).
Proof.
  unfold field_after. induction es as [|e es IH] using rev_ind; [done|].
  rewrite foldl_app. cbn [foldl].
  set (c := foldl (happen handled) mounted es) in *.
  destruct IH as (Ht & Hs & Hp). destruct e as [value|i]; simpl.
  - unfold handleAmountChange. destruct handled; simpl; [|done].
    destruct (amount_pattern value) eqn:Hv; simpl; [|done].
    split; [|split; [done|]].
    + rewrite Ht. destruct (isTyping c.1), (typingTimeout c.1); by_members.
    + apply Forall_app. split; [done|]. by constructor.
  - unfold typing_timeout_fires. case_bool_decide as Hi; simpl; [|done].
    split; [|done]. rewrite Ht in Hi |- *.
    destruct (isTyping c.1), (typingTimeout c.1);
      rewrite ?elem_of_singleton, ?elem_of_empty in Hi; by_members.
Qed.

Lemma unhandled_field_stays (es : list event) :
  field_after false es = mounted.
Proof.
  unfold field_after. induction es as [|e es IH] using rev_ind; [done|].
  rewrite foldl_app. cbn [foldl]. rewrite IH. destruct e; reflexivity.
Qed.

(** [X24] The typing timer.  After any sequence of edits and timeouts, each
    handled by the render of the state it finds: the typing flag is up
    exactly when one timeout is pending, the one the field remembers;
    it is down exactly when none is pending; every value passed on to
    the amount handler matches the pattern; and a field without an
    amount handler never changes. *)
Theorem typing_timer_is_single (handled : bool) (es : list event) :
  let c := field_after handled es in
  (isTyping c.1 = true
   ↔ ∃ t, typingTimeout c.1 = Some t ∧ timeouts c.2 = {[t]}) ∧
  (isTyping c.1 = false ↔ timeouts c.2 = ∅) ∧
  Forall (λ v, amount_pattern v = true) (amount_changes c.2) ∧
  (handled = false → c = mounted).
Proof.
  intros c. destruct (field_invariant handled es) as (Ht & Hs & Hp).
  fold c in Ht, Hs, Hp.
  assert (∀ t : positive, ({[t]} : gset positive) ≠ ∅) as Hne.
  { intros t H. assert (t ∈ (∅ : gset positive)) as Hin.
    { rewrite <- H. by apply elem_of_singleton. }
    by apply elem_of_empty in Hin. }
  split; [|split; [|split; [exact Hp|]]].
  - split.
    + intros H. destruct (Hs H) as [t Htt]. exists t.
      rewrite Ht, H, Htt. done.
    + intros (t & Htt & Hset). destruct (isTyping c.1); [done|].
      rewrite Ht in Hset. symmetry in Hset. by apply Hne in Hset.
  - split.
    + intros H. rewrite Ht, H. done.
    + intros Hempty. destruct (isTyping c.1) eqn:H; [|done].
      destruct (Hs eq_refl) as [t Htt]. rewrite Ht, Htt in Hempty.
      by apply Hne in Hempty.
  - intros ->. apply unhandled_field_stays.
Qed.

End AmountField.

(** ** The default currency of the selector *)

Module DefaultCurrency.
Import Selector Conditions.

Lemma insert_by_priority_In (x y : Catalog.Currency)
    (l : list Catalog.Currency) :
  In y (insert_by_priority x l) ↔ y = x ∨ In y l.
Proof.
  induction l as [|z l IH]; simpl; [intuition|].
  destruct (prio x <? prio z); simpl; rewrite ?IH; intuition.
Qed.

Lemma sort_by_priority_In (y : Catalog.Currency)
    (l : list Catalog.Currency) :
  In y (sort_by_priority l) ↔ In y l.
Proof.
  unfold sort_by_priority. induction l as [|x l IH]; simpl; [done|].
  rewrite insert_by_priority_In, IH. intuition.
Qed.

Lemma insert_by_priority_head (x : Catalog.Currency)
    (l : list Catalog.Currency) :
  (∀ h, head l = Some h → ∀ y, In y l → prio y ≤ prio h) →
  ∀ h, head (insert_by_priority x l) = Some h →
       ∀ y, In y (insert_by_priority x l) → prio y ≤ prio h.
Proof.
  destruct l as [|z l]; simpl.
  - intros _ h [= <-] y [-> | []]. lia.
  - intros Hl. specialize (Hl z eq_refl).
    destruct (Z.ltb_spec (prio x) (prio z)); simpl.
    + intros h [= <-] y [-> | Hy]; [lia|].
      apply insert_by_priority_In in Hy as [-> | Hy]; [lia|].
      apply Hl. by right.
    + intros h [= <-] y [-> | Hy]; [lia|].
      specialize (Hl y Hy). lia.
Qed.

Lemma sort_by_priority_head (l : list Catalog.Currency) :
  ∀ h, head (sort_by_priority l) = Some h →
       ∀ y, In y l → prio y ≤ prio h.
Proof.
  intros h Hh y Hy. apply sort_by_priority_In in Hy. revert h Hh y Hy.
  unfold sort_by_priority. induction l as [|x l IH]; [done|]. simpl.
  apply insert_by_priority_head. exact IH.
Qed.

Lemma filteredCurrencies_In (side : bool) (cs : list Catalog.Currency)
    (c : Catalog.Currency) :
  In c (filteredCurrencies side cs) ↔ In c cs ∧ eligible side c = true.
Proof. unfold filteredCurrencies, eligible. apply filter_In. Qed.

Lemma find_code_is (s : string) (l : list Catalog.Currency) :
  (∃ c, In c l ∧ Catalog.code c = Some s) →
  ∃ c, List.find (Catalog.code_is s) l = Some c ∧ Catalog.code c = Some s.
Proof.
  intros (c & Hin & Hc).
  destruct (List.find (Catalog.code_is s) l) as [c'|] eqn:Hf.
  - exists c'. split; [done|]. apply find_some in Hf as [_ Hf].
    unfold Catalog.code_is in Hf. by apply bool_decide_eq_true in Hf.
  - pose proof (find_none _ _ Hf c Hin) as Hno.
    unfold Catalog.code_is in Hno. rewrite bool_decide_eq_true_2 in Hno; done.
Qed.

Lemma present_code (o : option string) :
  JS.present o = true →
  o = Some (JS.or_else o EmptyString) ∧
  JS.truthy (JS.or_else o EmptyString) = true.
Proof. destruct o as [[|x s]|]; simpl; done. Qed.

Lemma absent_code (o : option string) :
  JS.present o = false → JS.or_else o EmptyString = EmptyString.
Proof. destruct o as [[|x s]|]; simpl; done. Qed.

Lemma find_code_includes (needle : string) (l : list Catalog.Currency)
    (c : Catalog.Currency) :
  List.find (Catalog.code_includes needle) l = Some c →
  In c l ∧ ∃ s, Catalog.code c = Some s ∧ Catalog.includes s needle = true.
Proof.
  intros H. apply find_some in H as [Hin H]. split; [done|].
  unfold Catalog.code_includes in H.
  destruct (Catalog.code c) as [s|]; [|done]. by exists s.
Qed.

Lemma find_code_is_Some (s : string) (l : list Catalog.Currency)
    (c : Catalog.Currency) :
  List.find (Catalog.code_is s) l = Some c → In c l ∧ Catalog.code c = Some s.
Proof.
  intros H. apply find_some in H as [Hin H]. split; [done|].
  unfold Catalog.code_is in H. by apply bool_decide_eq_true in H.
Qed.

Lemma first_code_app (cands tail : list (option Catalog.Currency)) :
  first_code (cands ++ tail) = first_code tail
  ∨ ∃ c, Some c ∈ cands ∧ JS.present (Catalog.code c) = true ∧
         first_code (cands ++ tail)
         = JS.or_else (Catalog.code c) EmptyString.
Proof.
  induction cands as [|[c|] cands IH]; [by left| |]; cbn [app first_code].
  - destruct (JS.present (Catalog.code c)) eqn:Hp.
    + right. exists c. split; [by left | done].
    + destruct IH as [IH | (c' & Hin & Hp' & Hc')]; [by left|].
      right. exists c'. split; [by right | done].
  - destruct IH as [IH | (c' & Hin & Hp' & Hc')]; [by left|].
    right. exists c'. split; [by right | done].
Qed.

(** [X25] The default currency.  The selector chooses a default only when
    no currency is selected and its side offers one.  The choice is the
    code of an offered currency among those the side prefers (on the
    receive side a code containing USDT or USDC, or ETH; on the send
    side BTC or ETH), or else the code, possibly empty, of an offered
    currency of highest priority.  On the send side BTC is chosen
    whenever it is offered. *)
Theorem default_currency_is_offered (isReceiveSide : bool)
    (availableCurrencies : list Catalog.Currency) (value : string) :
  let offered c :=
    c ∈ availableCurrencies ∧ eligible isReceiveSide c = true in
  match default_currency isReceiveSide availableCurrencies value with
  | None =>
      JS.truthy value = true ∨ ∀ c, ¬ offered c
  | Some s =>
      JS.truthy value = false ∧
      ((∃ c, offered c ∧ Catalog.code c = Some s ∧ JS.truthy s = true ∧
             preferred isReceiveSide s)
       ∨ (∃ h, offered h ∧ (∀ c, offered c → prio c ≤ prio h) ∧
               s = JS.or_else (Catalog.code h) EmptyString)) ∧
      (isReceiveSide = false →
       (∃ c, offered c ∧ Catalog.code c = Some "BTC"%string) →
       s = "BTC"%string)
  end.
Proof.
  intros offered. unfold default_currency.
  destruct (filteredCurrencies isReceiveSide availableCurrencies)
    as [|c0 l] eqn:Hf.
  { right. intros c [Hin He].
    assert (In c (filteredCurrencies isReceiveSide availableCurrencies))
      as H by (apply filteredCurrencies_In; split;
               [by apply list_elem_of_In | done]).
    rewrite Hf in H. destruct H. }
  destruct (JS.truthy value); [by left|].
  set (filtered := c0 :: l) in *.
  assert (∀ c, In c filtered ↔ offered c) as Hoff.
  { intros c. rewrite <- Hf, filteredCurrencies_In. unfold offered.
    by rewrite list_elem_of_In. }
  assert (∃ h, head (sort_by_priority filtered) = Some h ∧ offered h ∧
               ∀ c, offered c → prio c ≤ prio h) as (h & Hh & Hho & Hmax).
  { destruct (sort_by_priority filtered) as [|h rest] eqn:Hs.
    - assert (In c0 (sort_by_priority filtered)) as H
        by (apply sort_by_priority_In; by left).
      rewrite Hs in H. destruct H.
    - exists h. split; [done|]. split.
      + apply Hoff, sort_by_priority_In. rewrite Hs. by left.
      + intros c Hc. apply (sort_by_priority_head filtered h).
        * by rewrite Hs.
        * by apply Hoff. }
  rewrite Hh.
  assert (first_code [Some h; Some h]
          = JS.or_else (Catalog.code h) EmptyString) as Htail.
  { cbn [first_code]. destruct (JS.present (Catalog.code h)) eqn:Hp;
      [done | by rewrite absent_code]. }
  assert (∀ cands,
    (∀ c, Some c ∈ cands → JS.present (Catalog.code c) = true →
          offered c ∧
          preferred isReceiveSide (JS.or_else (Catalog.code c) EmptyString)) →
    (∃ c, offered c ∧
          Catalog.code c = Some (first_code (cands ++ [Some h; Some h])) ∧
          JS.truthy (first_code (cands ++ [Some h; Some h])) = true ∧
          preferred isReceiveSide (first_code (cands ++ [Some h; Some h])))
    ∨ (∃ h', offered h' ∧ (∀ c, offered c → prio c ≤ prio h') ∧
             first_code (cands ++ [Some h; Some h])
             = JS.or_else (Catalog.code h') EmptyString)) as Hshape.
  { intros cands Hc.
    destruct (first_code_app cands [Some h; Some h])
      as [-> | (c & Hin & Hp & ->)].
    - right. exists h. rewrite Htail. done.
    - left. exists c. destruct (Hc c Hin Hp) as [Ho Hpref].
      destruct (present_code _ Hp) as [Hcode Ht]. done. }
  destruct isReceiveSide; (split; [done|]); split.
  - apply (Hshape [ List.find (Catalog.code_includes "USDT") filtered;
                    List.find (Catalog.code_includes "USDC") filtered;
                    List.find (Catalog.code_is "ETH") filtered ]).
    intros c Hin Hp. destruct (present_code _ Hp) as [Hcode _].
    apply elem_of_cons in Hin as [Hin | Hin].
    { symmetry in Hin.
      destruct (find_code_includes _ _ _ Hin) as (Hc & s & Hs & Hinc).
      split; [by apply Hoff|].
      assert (JS.or_else (Catalog.code c) EmptyString = s) as ->
        by congruence.
      left. exact Hinc. }
    apply elem_of_cons in Hin as [Hin | Hin].
    { symmetry in Hin.
      destruct (find_code_includes _ _ _ Hin) as (Hc & s & Hs & Hinc).
      split; [by apply Hoff|].
      assert (JS.or_else (Catalog.code c) EmptyString = s) as ->
        by congruence.
      right. left. exact Hinc. }
    apply elem_of_cons in Hin as [Hin | Hin]; [|by apply elem_of_nil in Hin].
    symmetry in Hin. destruct (find_code_is_Some _ _ _ Hin) as [Hc Hs].
    split; [by apply Hoff|]. right. right. by rewrite Hs.
  - done.
  - apply (Hshape [ List.find (Catalog.code_is "BTC") filtered;
                    List.find (Catalog.code_is "ETH") filtered ]).
    intros c Hin Hp.
    apply elem_of_cons in Hin as [Hin | Hin].
    { symmetry in Hin. destruct (find_code_is_Some _ _ _ Hin) as [Hc Hs].
      split; [by apply Hoff|]. left. by rewrite Hs. }
    apply elem_of_cons in Hin as [Hin | Hin]; [|by apply elem_of_nil in Hin].
    symmetry in Hin. destruct (find_code_is_Some _ _ _ Hin) as [Hc Hs].
    split; [by apply Hoff|]. right. by rewrite Hs.
  - intros _ (c & Hc & Hbtc).
    destruct (find_code_is "BTC" filtered) as (b & Hb & Hcode).
    { exists c. split; [by apply Hoff | done]. }
    rewrite Hb. cbn [first_code]. rewrite Hcode. reflexivity.
Qed.

End DefaultCurrency.
